(** * GoodDeeds: credential authentication and route authorisation

    A shallow embedding of the authentication core of the GoodDeeds
    Next.js application: the bearer-token helpers of [src/lib/auth.ts],
    the Zod schemas of [src/lib/validators.ts], the response envelope of
    [src/lib/apiResponse.ts], the edge middleware, the [useAuth] hook and
    the signup and login route handlers.

    Conventions.
    - A JavaScript string is a [string]: the sequence of its code units,
      restricted to the 8-bit range (ASCII and Latin-1). Every regular
      expression of the schemas accepts ASCII characters only.
    - [undefined] and [null] are [None].
    - A function that may throw returns a [result]; [Throw] carries the
      exception.
    - Clock readings ([Date.now()], [new Date().toISOString()]) are
      explicit arguments. *)

From Stdlib Require Import String Ascii List ZArith Lia Bool.
From Stdlib Require Import DecimalString DecimalZ.
From stdpp Require Import base option gmap strings.
Import ListNotations.

Local Open Scope string_scope.
Local Open Scope Z_scope.

(** ** JavaScript strings *)

Module Js.

Definition code (c : ascii) : N := N_of_ascii c.

Definition in_range (lo hi : N) (c : ascii) : bool :=
  ((lo <=? code c) && (code c <=? hi))%N.

(** [A-Z], [a-z], [\d] *)
Definition is_upper (c : ascii) : bool := in_range 65 90 c.
Definition is_lower (c : ascii) : bool := in_range 97 122 c.
Definition is_digit (c : ascii) : bool := in_range 48 57 c.
Definition is_alpha (c : ascii) : bool := is_upper c || is_lower c.
Definition is_alnum (c : ascii) : bool := is_alpha c || is_digit c.

(** White space and line terminators, as [String.prototype.trim] and the
    class [\s] read them: TAB, LF, VT, FF, CR, SP and NBSP. *)
Definition is_space (c : ascii) : bool :=
  in_range 9 13 c || (code c =? 32)%N || (code c =? 160)%N.

(** [String.prototype.toLowerCase] on one code unit: the ASCII capitals
    and the Latin-1 capitals (U+00C0..U+00DE without the sign U+00D7). *)
Definition lower_char (c : ascii) : ascii :=
  if is_upper c || (in_range 192 222 c && negb (code c =? 215)%N)
  then ascii_of_N (code c + 32)
  else c.

Fixpoint toLowerCase (s : string) : string :=
  match s with
  | EmptyString => EmptyString
  | String c r => String (lower_char c) (toLowerCase r)
  end.

Fixpoint trimStart (s : string) : string :=
  match s with
  | EmptyString => EmptyString
  | String c r => if is_space c then trimStart r else s
  end.

(** [trimEnd] keeps a character when it is not white space or when
    something remains after it. *)
Fixpoint trimEnd (s : string) : string :=
  match s with
  | EmptyString => EmptyString
  | String c r =>
      match trimEnd r with
      | EmptyString => if is_space c then EmptyString else String c EmptyString
      | r' => String c r'
      end
  end.

Definition trim (s : string) : string := trimEnd (trimStart s).

(** [s.startsWith(p)] *)
Definition startsWith (s p : string) : bool := String.prefix p s.

(** [s.substring(n)] for [0 <= n]: the string without its first [n]
    code units (empty when [n] exceeds the length). *)
Fixpoint substring (n : nat) (s : string) : string :=
  match n, s with
  | O, _ => s
  | S n', String _ r => substring n' r
  | S _, EmptyString => EmptyString
  end.

Fixpoint forallb (p : ascii -> bool) (s : string) : bool :=
  match s with
  | EmptyString => true
  | String c r => p c && forallb p r
  end.

Fixpoint existsb (p : ascii -> bool) (s : string) : bool :=
  match s with
  | EmptyString => false
  | String c r => p c || existsb p r
  end.

Definition mem (c : ascii) (set : string) : bool :=
  existsb (Ascii.eqb c) set.

(** [parts.join(sep)] *)
Fixpoint join (sep : string) (parts : list string) : string :=
  match parts with
  | [] => EmptyString
  | [p] => p
  | p :: rest => p +:+ sep +:+ join sep rest
  end.

(** [s.split(sep)] for a one-character separator. *)
Fixpoint split (sep : ascii) (s : string) : list string :=
  match s with
  | EmptyString => [EmptyString]
  | String c r =>
      if Ascii.eqb c sep then EmptyString :: split sep r
      else match split sep r with
           | [] => [String c EmptyString]
           | p :: ps => String c p :: ps
           end
  end.

(** JavaScript truthiness of a string, and of a [string | undefined]. *)
Definition truthy (s : string) : bool :=
  match s with EmptyString => false | _ => true end.

Definition truthy_opt (o : option string) : bool :=
  match o with Some s => truthy s | None => false end.

End Js.

(** ** Exceptions and results *)

(** The classes of [jsonwebtoken]'s errors: [TokenExpiredError]
    extends [JsonWebTokenError]. *)
Inductive JwtError : Type :=
| JsonWebTokenError (message : string)
| TokenExpiredError.

Inductive exn : Type :=
| Error (message : string)                (* a plain [Error] *)
| JwtException (e : JwtError)             (* thrown by [jsonwebtoken] *)
| SyntaxError (message : string)          (* thrown by [JSON.parse] *)
| PrismaClientKnownRequestError (code message : string). (* thrown by Prisma *)

Inductive result (A : Type) : Type :=
| Ok (a : A)
| Throw (e : exn).
Arguments Ok {A} a.
Arguments Throw {A} e.

Definition bind {A B : Type} (r : result A) (k : A -> result B) : result B :=
  match r with
  | Ok a => k a
  | Throw e => Throw e
  end.

Notation "'let*' x ':=' r 'in' k" := (bind r (fun x => k))
  (at level 10, x name, r at level 100, k at level 200).

(** [try { body } catch (error) { handler(error) }] *)
Definition try_catch {A : Type} (body : result A) (handler : exn -> A) : A :=
  match body with
  | Ok a => a
  | Throw e => handler e
  end.

(** ** JSON values: request bodies and response payloads *)

#[warnings="-register-all"]
Inductive json : Type :=
| JNull
| JBool (b : bool)
| JNum (n : Z)
| JStr (s : string)
| JArr (items : list json)
| JObj (members : list (string * json)).

(** ** [src/lib/constants.ts] *)

Module HTTP_STATUS.
Definition OK : Z := 200.
Definition CREATED : Z := 201.
Definition BAD_REQUEST : Z := 400.
Definition UNAUTHORIZED : Z := 401.
Definition FORBIDDEN : Z := 403.
Definition NOT_FOUND : Z := 404.
Definition CONFLICT : Z := 409.
Definition INTERNAL_SERVER_ERROR : Z := 500.
End HTTP_STATUS.

Module ERROR_MESSAGES.
Definition INVALID_CREDENTIALS := "Invalid email or password".
Definition USER_ALREADY_EXISTS := "User with this email already exists".
Definition MISSING_REQUIRED_FIELDS := "Missing required fields".
Definition INTERNAL_SERVER_ERROR := "An error occurred while processing your request".
Definition UNAUTHORIZED := "Unauthorized: Please provide a valid authentication token".
Definition INVALID_TOKEN := "Invalid or expired authentication token".
Definition USER_NOT_FOUND := "User not found".
Definition POST_NOT_FOUND := "Post not found".
Definition INVALID_INPUT := "Invalid input data".
End ERROR_MESSAGES.

Module SUCCESS_MESSAGES.
Definition USER_CREATED := "User created successfully".
Definition LOGIN_SUCCESSFUL := "Login successful".
Definition OPERATION_SUCCESS := "Operation completed successfully".
End SUCCESS_MESSAGES.

Module AUTH_CONFIG.
Definition TOKEN_EXPIRY := "7d".
Definition BCRYPT_ROUNDS : Z := 10.
Definition TOKEN_HEADER_PREFIX := "Bearer ".
End AUTH_CONFIG.

(** ** Requests and responses *)

(** What a handler reads of a [NextRequest]: the header list, the cookie
    jar, the path of [nextUrl] and the body. *)
Record NextRequest : Type := {
  headers : list (string * string);
  cookies : gmap string string;
  pathname : string;
  body : option json   (* [None]: the body is not JSON text *)
}.

(** [await req.json()] *)
Definition req_json (req : NextRequest) : result json :=
  match body req with
  | Some j => Ok j
  | None => Throw (SyntaxError "Unexpected end of JSON input")
  end.

(** The [Headers] of a request keep each value without the HTTP white
    space (tab, line feed, carriage return, space) at its two ends. *)
Module Headers.

Definition is_http_space (c : ascii) : bool :=
  let n := Js.code c in ((n =? 9) || (n =? 10) || (n =? 13) || (n =? 32))%N.

Fixpoint strip_start (s : string) : string :=
  match s with
  | EmptyString => EmptyString
  | String c r => if is_http_space c then strip_start r else s
  end.

Fixpoint strip_end (s : string) : string :=
  match s with
  | EmptyString => EmptyString
  | String c r =>
      match strip_end r with
      | EmptyString => if is_http_space c then EmptyString else String c EmptyString
      | r' => String c r'
      end
  end.

Definition normalize (value : string) : string := strip_end (strip_start value).

End Headers.

(** [req.headers.get(name)] on the header list as the request was sent:
    header names compare without case, each value is read without the
    white space at its ends, and the values of a repeated header are
    joined with a comma and a space. *)
Definition headers_get (req : NextRequest) (name : string) : option string :=
  match List.filter
          (fun kv => String.eqb (Js.toLowerCase (fst kv)) (Js.toLowerCase name))
          (headers req) with
  | [] => None
  | found => Some (Js.join ", " (map (fun kv => Headers.normalize (snd kv)) found))
  end.

(** The body of a JSON response: the two envelopes of [apiResponse.ts].
    [details = None] is an envelope without the [details] member. *)
Inductive ApiBody : Type :=
| ApiSuccess (data : json) (message : string) (timestamp : string)
| ApiError (error code : string) (status : Z) (details : option json)
           (timestamp : string).

Inductive NextResponse : Type :=
| Json (payload : ApiBody) (status : Z)   (* [NextResponse.json(payload, {status})] *)
| Redirect (url : string)                 (* [NextResponse.redirect(new URL(url, request.url))] *)
| Next.                                   (* [NextResponse.next()] *)

(** ** [src/lib/apiResponse.ts] *)

Module ApiResponse.

Section WithProcess.
(** [process.env], and the reading of [new Date().toISOString()]. *)
Variable process_env : gmap string string.
Variable timestamp : string.

(** [process.env.NODE_ENV === 'development'] *)
Definition is_development : bool :=
  match process_env !! "NODE_ENV" with
  | Some v => String.eqb v "development"
  | None => false
  end.

Definition successResponse (data : json) (message : string) (status : Z)
  : NextResponse :=
  Json (ApiSuccess data
          (if Js.truthy message then message
           else SUCCESS_MESSAGES.OPERATION_SUCCESS)
          timestamp)
       status.

(** The spread [...(process.env.NODE_ENV === 'development' && { details })]
    adds the member [details] in development and nothing otherwise. The
    callers below pass the message, the code and the status themselves,
    so the default values of these parameters are never used. *)
Definition errorResponse (message code : string) (status : Z)
           (details : option json) : NextResponse :=
  Json (ApiError message code status
          (if is_development then details else None)
          timestamp)
       status.

Definition validation_details (errors : list (string * string)) : json :=
  JObj [("validationErrors", JObj (map (fun kv => (fst kv, JStr (snd kv))) errors))].

Definition validationErrorResponse (errors : list (string * string))
  : NextResponse :=
  errorResponse ERROR_MESSAGES.INVALID_INPUT "VALIDATION_ERROR"
                HTTP_STATUS.BAD_REQUEST (Some (validation_details errors)).

Definition unauthorizedResponse (message : string) : NextResponse :=
  errorResponse message "UNAUTHORIZED" HTTP_STATUS.UNAUTHORIZED None.

Definition conflictResponse (message : string) : NextResponse :=
  errorResponse message "CONFLICT" HTTP_STATUS.CONFLICT None.

Definition notFoundResponse (message : string) : NextResponse :=
  errorResponse message "NOT_FOUND" HTTP_STATUS.NOT_FOUND None.

(** [error instanceof Error ? error.message : 'Unknown error occurred'];
    every exception of the model is an instance of [Error]. *)
Definition error_message (e : exn) : string :=
  match e with
  | Error m => m
  | JwtException (JsonWebTokenError m) => m
  | JwtException TokenExpiredError => "jwt expired"
  | SyntaxError m => m
  | PrismaClientKnownRequestError _ m => m
  end.

(** The console output of [handleError] is not part of the result. *)
Definition handleError (error : exn) (context : option string) : NextResponse :=
  errorResponse ERROR_MESSAGES.INTERNAL_SERVER_ERROR "INTERNAL_ERROR"
                HTTP_STATUS.INTERNAL_SERVER_ERROR
                (if is_development
                 then Some (JObj [("originalError", JStr (error_message error))])
                 else None).
End WithProcess.

End ApiResponse.

(** ** [src/lib/routeHandler.ts] *)

Definition withErrorHandling (process_env : gmap string string) (timestamp : string)
           {A : Type} (handler : A -> result NextResponse) (context : option string)
  : A -> NextResponse :=
  fun req =>
    try_catch (handler req)
              (fun error => ApiResponse.handleError process_env timestamp error context).

(** ** [src/lib/env.ts] *)

Module Env.

Record env : Type := {
  JWT_SECRET : string;
  DATABASE_URL : string;
  NODE_ENV : string;
  NEXT_PUBLIC_API_URL : string
}.

(** [process.env.X || fallback] *)
Definition or_else (v : option string) (fallback : string) : string :=
  match v with
  | Some s => if Js.truthy s then s else fallback
  | None => fallback
  end.

Definition load (process_env : gmap string string) : env :=
  {| JWT_SECRET := or_else (process_env !! "JWT_SECRET") "";
     DATABASE_URL := or_else (process_env !! "DATABASE_URL") "";
     NODE_ENV := or_else (process_env !! "NODE_ENV") "development";
     NEXT_PUBLIC_API_URL := or_else (process_env !! "NEXT_PUBLIC_API_URL") "/api" |}.

Definition getJwtSecret (e : env) : result string :=
  if negb (Js.truthy (JWT_SECRET e))
  then Throw (Error "JWT_SECRET environment variable is not set. This is required for authentication.")
  else Ok (JWT_SECRET e).

End Env.

(** ** The [jsonwebtoken] library (version 9), as [auth.ts] uses it *)

Module Jwt.

(** The interface [JwtPayload] of [auth.ts]. *)
Record JwtPayload : Type := {
  id : string;
  email : string;
  iat : option Z;
  exp : option Z
}.

(** A token that splits into three segments and decodes: the algorithm
    of its header, its payload, the signing input (the first two
    segments as they stand in the token) and the signature segment. *)
Record Jws : Type := {
  alg : string;
  payload : JwtPayload;
  signing_input : string;
  signature : string
}.

Section Library.
(** The encoding of a header and a payload as the first two segments
    (base64url of their JSON), the parse of a token, the HMAC of a
    signing input under a secret, and the library [ms] that reads a
    time span such as ['7d'] in milliseconds. *)
Variable encode : string -> JwtPayload -> string.
Variable decode : string -> option Jws.
Variable hmac : string -> string -> string -> string.
Variable ms : string -> option Z.

(** [Math.floor(Date.now() / 1000)] *)
Definition clockTimestamp (now : Z) : Z := now / 1000.

(** The library names an option between double quotes in its messages. *)
Definition named (option_name : string) : string :=
  String (ascii_of_nat 34) (option_name +:+ String (ascii_of_nat 34) "").

Definition expiresIn_message : string :=
  named "expiresIn" +:+ " should be a number of seconds or string representing a timespan".

(** [jwt.sign(payload, secret, { expiresIn })] with the default
    algorithm HS256: [iat] is the clock in seconds and [exp] is [iat]
    plus the span. An empty [expiresIn] fails the check of the options,
    one that [ms] does not read fails with the longer message. *)
Definition sign (id email secret expiresIn : string) (now : Z) : result string :=
  if negb (Js.truthy secret)
  then Throw (Error "secretOrPrivateKey must have a value")
  else if negb (Js.truthy expiresIn)
  then Throw (Error expiresIn_message)
  else
    match ms expiresIn with
    | None =>
        Throw (Error (expiresIn_message +:+ " eg: " +:+ named "1d" +:+ ", " +:+
                      named "20h" +:+ ", 60"))
    | Some span =>
        let timestamp := clockTimestamp now in
        let p := {| id := id; email := email;
                    iat := Some timestamp;
                    exp := Some (timestamp + span / 1000) |} in
        let input := encode "HS256" p in
        Ok (input +:+ "." +:+ hmac "HS256" secret input)
    end.

Definition accepted_algorithm (a : string) : bool :=
  String.eqb a "HS256" || String.eqb a "HS384" || String.eqb a "HS512".

Definition jwt_error {A : Type} (message : string) : result A :=
  Throw (JwtException (JsonWebTokenError message)).

(** [jwt.verify(token, secret)] with a non-empty secret and no options:
    structure, signature, then expiry. A payload has the members that
    [generateToken] writes and the two dates that [sign] adds; a token
    with a [nbf] member, which the library would also hold against the
    clock, is not among the tokens of this model. *)
Definition verify (token secret : string) (now : Z) : result JwtPayload :=
  if negb (Js.truthy token) then jwt_error "jwt must be provided"
  else
    match decode token with
    | None => jwt_error "jwt malformed"
    | Some j =>
        if negb (Js.truthy (Js.trim (signature j)))
        then jwt_error "jwt signature is required"
        else if negb (accepted_algorithm (alg j))
        then jwt_error "invalid algorithm"
        else if negb (String.eqb (signature j) (hmac (alg j) secret (signing_input j)))
        then jwt_error "invalid signature"
        else
          match exp (payload j) with
          | Some e =>
              if e <=? clockTimestamp now
              then Throw (JwtException TokenExpiredError)
              else Ok (payload j)
          | None => Ok (payload j)
          end
    end.
End Library.

End Jwt.

(** ** [src/lib/auth.ts] *)

Module Auth.
Import Jwt.

Record AuthResult : Type := {
  success : bool;
  user : option JwtPayload;
  error : option string
}.

Definition extractToken (req : NextRequest) : option string :=
  let authHeader := headers_get req "authorization" in
  match authHeader with
  | None => None                      (* [authHeader?.startsWith] is undefined *)
  | Some h =>
      if negb (Js.startsWith h "Bearer ") then None
      else Some (Js.substring 7 h)
  end.

Section WithLibrary.
Variable encode : string -> JwtPayload -> string.
Variable decode : string -> option Jws.
Variable hmac : string -> string -> string -> string.
Variable ms : string -> option Z.
Variable env : Env.env.

(** [error instanceof jwt.JsonWebTokenError], and the error's [name]. *)
Definition verification_message (e : exn) : string :=
  match e with
  | JwtException TokenExpiredError => "Token has expired"
  | JwtException (JsonWebTokenError _) => "Invalid token"
  | _ => "Token verification failed"
  end.

Definition verifyToken (token : string) (now : Z) : AuthResult :=
  try_catch
    (let* secret := Env.getJwtSecret env in
     let* decoded := Jwt.verify decode hmac token secret now in
     Ok {| success := true; user := Some decoded; error := None |})
    (fun e => {| success := false; user := None;
                 error := Some (verification_message e) |}).

Definition authenticateRequest (req : NextRequest) (now : Z) : AuthResult :=
  let token := extractToken req in
  if negb (Js.truthy_opt token)
  then {| success := false; user := None;
          error := Some "No authentication token provided" |}
  else
    match token with
    | Some t => verifyToken t now
    | None => {| success := false; user := None;
                 error := Some "No authentication token provided" |}
    end.

Definition generateToken (userId email : string) (expiresIn : string) (now : Z)
  : result string :=
  let* secret := Env.getJwtSecret env in
  Jwt.sign encode hmac ms userId email secret expiresIn now.
End WithLibrary.

End Auth.

(** ** The [zod] library (version 4), as [validators.ts] uses it *)

Module Zod.

(** The checks of a string schema, in the order the schema chains them.
    [toLowerCase] and [trim] are overwrite checks: they replace the value
    that the checks after them see. *)
Inductive check : Type :=
| Min (minimum : nat) (message : string)
| Max (maximum : nat) (message : string)
| Email (message : string)
| Regex (test : string -> bool) (message : string)
| ToLowerCase
| Trim.

Definition ZodString : Type := list check.

(** An object schema whose members are string schemas, in shape order. *)
Definition ZodObject : Type := list (string * ZodString).

Record issue : Type := {
  path : list string;
  message : string
}.

(** The default pattern of [z.string().email()]. It is anchored at both
    ends and reads: no dot first and no two dots in a row anywhere; a
    local part of characters [A-Za-z0-9_'+-.] whose last character is
    one of [A-Za-z0-9_+-]; an [@]; one or more labels, each a character
    of [A-Za-z0-9] followed by characters of [A-Za-z0-9-] and closed by
    a dot; and a last piece of two or more letters. *)
Definition local_char (c : ascii) : bool := Js.is_alnum c || Js.mem c "_'+-.".
Definition local_last_char (c : ascii) : bool := Js.is_alnum c || Js.mem c "_+-".
Definition label_char (c : ascii) : bool := Js.is_alnum c || Js.mem c "-".

Fixpoint last_char (s : string) : option ascii :=
  match s with
  | EmptyString => None
  | String c EmptyString => Some c
  | String _ r => last_char r
  end.

Fixpoint has_double_dot (s : string) : bool :=
  match s with
  | String "." (String "." _) => true
  | String _ r => has_double_dot r
  | EmptyString => false
  end.

Definition is_label (l : string) : bool :=
  match l with
  | EmptyString => false
  | String c r => Js.is_alnum c && Js.forallb label_char r
  end.

Definition is_tld (l : string) : bool :=
  (2 <=? String.length l)%nat && Js.forallb Js.is_alpha l.

(** The labels before the last one are followed by a dot each; the last
    piece is the top-level domain; there is at least one label. *)
Fixpoint is_domain_pieces (pieces : list string) (seen_label : bool) : bool :=
  match pieces with
  | [] => false
  | [tld] => seen_label && is_tld tld
  | l :: rest => is_label l && is_domain_pieces rest true
  end.

Definition is_local (l : string) : bool :=
  match l, last_char l with
  | String c _, Some z =>
      negb (Ascii.eqb c ".") && Js.forallb local_char l && local_last_char z
  | _, _ => false
  end.

Definition email_regex (s : string) : bool :=
  match Js.split "@" s with
  | [l; d] =>
      negb (has_double_dot s) && is_local l && is_domain_pieces (Js.split "." d) false
  | _ => false
  end.

(** Runs the checks from left to right on a string value. Each issue of
    these checks lets the checks after it run, so every failing check
    adds its issue. The result is the final value and the messages. *)
Fixpoint runChecks (checks : ZodString) (value : string) (issues : list string)
  : string * list string :=
  match checks with
  | [] => (value, issues)
  | Min n m :: rest =>
      runChecks rest value
                (if (String.length value <? n)%nat then (issues ++ [m])%list else issues)
  | Max n m :: rest =>
      runChecks rest value
                (if (n <? String.length value)%nat then (issues ++ [m])%list else issues)
  | Email m :: rest =>
      runChecks rest value (if email_regex value then issues else (issues ++ [m])%list)
  | Regex test m :: rest =>
      runChecks rest value (if test value then issues else (issues ++ [m])%list)
  | ToLowerCase :: rest => runChecks rest (Js.toLowerCase value) issues
  | Trim :: rest => runChecks rest (Js.trim value) issues
  end.

Section Locale.
(** The messages the library reports when a schema of the expected
    type is given a value of another type ([None] is [undefined], a
    missing member): the locale's [invalid_type] message. Their wording
    is left open. On a value of another type that has a [length], an
    array for one, the library still runs the length checks of a string
    schema and adds their messages; the model reports the issues of the
    type alone, so that for such a member the refusal is that of the
    code and the list of messages is not. *)
Variable type_issues : string -> option json -> list string.

(** A string schema on a member: the parsed value when the member is a
    string, and the messages of its issues. *)
Definition parseString (schema : ZodString) (v : option json)
  : option string * list string :=
  match v with
  | Some (JStr s) =>
      let (value, issues) := runChecks schema s [] in (Some value, issues)
  | _ => (None, type_issues "string" v)
  end.

(** The member of a parsed JSON object. *)
Fixpoint member (members : list (string * json)) (key : string) : option json :=
  match members with
  | [] => None
  | (k, v) :: rest => if String.eqb k key then Some v else member rest key
  end.

(** The members of the shape, in shape order: parsed values and issues
    with the member's name as path. Unknown members are stripped. A
    member that is not a string makes the result invalid. *)
Fixpoint parseShape (shape : ZodObject) (input : list (string * json))
  : bool * list (string * string) * list issue :=
  match shape with
  | [] => (true, [], [])
  | (key, schema) :: rest =>
      let '(ok, values, issues) := parseShape rest input in
      let (parsed, messages) := parseString schema (member input key) in
      let here := map (fun m => {| path := [key]; message := m |}) messages in
      match parsed with
      | Some value => (ok, (key, value) :: values, (here ++ issues)%list)
      | None => (false, values, (here ++ issues)%list)
      end
  end.

(** [schema.safeParse(data)] for an object schema: the typed data when
    there is no issue, the issues otherwise. *)
Definition safeParse (schema : ZodObject) (data : json)
  : list (string * string) + list issue :=
  match data with
  | JObj members =>
      let '(ok, values, issues) := parseShape schema members in
      match ok, issues with
      | true, [] => inl values
      | _, _ => inr issues
      end
  | _ =>
      inr (map (fun m => {| path := []; message := m |})
               (type_issues "object" (Some data)))
  end.
End Locale.

End Zod.

(** ** [src/lib/validators.ts] *)

Module Validators.
Import Zod.

Definition emailSchema : ZodString :=
  [Email "Invalid email format"; ToLowerCase; Trim].

Definition special_characters : string := "@$!%*?&".

Definition passwordSchema : ZodString :=
  [Min 8 "Password must be at least 8 characters long";
   Regex (Js.existsb Js.is_upper)
         "Password must contain at least one uppercase letter";
   Regex (Js.existsb Js.is_lower)
         "Password must contain at least one lowercase letter";
   Regex (Js.existsb Js.is_digit)
         "Password must contain at least one number";
   Regex (Js.existsb (fun c => Js.mem c special_characters))
         "Password must contain at least one special character (@$!%*?&)"].

(** [/^[a-zA-Z\s\-']+$/] *)
Definition name_regex (s : string) : bool :=
  Js.truthy s &&
  Js.forallb (fun c => Js.is_alpha c || Js.is_space c || Js.mem c "-'") s.

Definition nameSchema : ZodString :=
  [Min 2 "Name must be at least 2 characters long";
   Max 100 "Name must be at most 100 characters long";
   Regex name_regex
         "Name can only contain letters, spaces, hyphens, and apostrophes"].

Definition signupSchema : ZodObject :=
  [("name", nameSchema); ("email", emailSchema); ("password", passwordSchema)].

Definition loginSchema : ZodObject :=
  [("email", emailSchema); ("password", [Min 1 "Password is required"])].

(** [errors[path] = message]: a later message for the same path replaces
    the earlier one, in place. *)
Fixpoint assign (errors : list (string * string)) (key value : string)
  : list (string * string) :=
  match errors with
  | [] => [(key, value)]
  | (k, v) :: rest =>
      if String.eqb k key then (k, value) :: rest
      else (k, v) :: assign rest key value
  end.

(** The validation result: [{ success: true, data }] or
    [{ success: false, errors }]. *)
Inductive ValidationResult : Type :=
| Success (data : list (string * string))
| Failure (errors : list (string * string)).

Definition collect (issues : list issue) : list (string * string) :=
  fold_left (fun errors i => assign errors (Js.join "." (path i)) (message i))
            issues [].

Definition validateInput (type_issues : string -> option json -> list string)
           (schema : ZodObject) (data : json) : ValidationResult :=
  match safeParse type_issues schema data with
  | inr issues => Failure (collect issues)
  | inl parsed => Success parsed
  end.

(** A member of the typed data, as the handlers destructure it. *)
Fixpoint field (data : list (string * string)) (key : string) : string :=
  match data with
  | [] => ""
  | (k, v) :: rest => if String.eqb k key then v else field rest key
  end.

End Validators.

(** ** The edge middleware ([middleware.ts]) *)

Module Middleware.

Definition protectedRoutes : list string :=
  ["/create"; "/profile"; "/messages"; "/dashboard"].

Definition isProtectedRoute (pathname : string) : bool :=
  List.existsb (fun route => Js.startsWith pathname route) protectedRoutes.

(** The matcher of [config] runs the middleware on every path except the
    API routes and the static assets; no protected prefix is among these.

    [request.cookies.get('authToken')?.value] is the cookie's value, or
    [undefined] without the cookie; [!authToken] holds for [undefined]
    and for the empty string. *)
Definition middleware (request : NextRequest) : NextResponse :=
  if isProtectedRoute (pathname request) then
    let authToken := cookies request !! "authToken" in
    if negb (Js.truthy_opt authToken) then Redirect "/login"
    else Next
  else Next.

End Middleware.

(** ** The client hook ([src/lib/useAuth.ts]) *)

Module UseAuth.

(** The React state of the hook. [user] holds whatever [JSON.parse]
    returned: the cast to [AuthUser] checks nothing. *)
Record AuthState : Type := {
  token : option string;
  user : option json
}.

Definition initial : AuthState := {| token := None; user := None |}.

(** [!!value] for a parsed JSON value. *)
Definition json_truthy (j : json) : bool :=
  match j with
  | JNull => false
  | JBool b => b
  | JNum n => negb (n =? 0)
  | JStr s => Js.truthy s
  | JArr _ | JObj _ => true
  end.

Definition isAuthenticated (st : AuthState) : bool :=
  Js.truthy_opt (token st) &&
  match user st with Some u => json_truthy u | None => false end.

Section Mount.
(** [JSON.parse]: the parsed value, or a thrown [SyntaxError]. *)
Variable JSON_parse : string -> result json.

(** The effect that runs on mount, on the browser's [localStorage]:
    the state after it and the store after it. Only [JSON.parse] can
    throw, and it stands inside the [try]. *)
Definition loadAuthState (localStorage : gmap string string) (st : AuthState)
  : result (AuthState * gmap string string) :=
  let storedToken := localStorage !! "authToken" in
  let storedUser := localStorage !! "user" in
  let st1 :=
    if Js.truthy_opt storedToken
    then {| token := storedToken; user := user st |}
    else st in
  match storedUser with
  | Some u =>
      if Js.truthy u then
        Ok (try_catch
              (let* parsedUser := JSON_parse u in
               Ok ({| token := token st1; user := Some parsedUser |}, localStorage))
              (fun _ => (st1, delete "user" localStorage)))
      else Ok (st1, localStorage)
  | None => Ok (st1, localStorage)
  end.
End Mount.

End UseAuth.

(** ** The user table of the record store ([prisma.user]) *)

Module Prisma.

Record User : Type := {
  id : string;
  email : string;
  password : string;
  name : string
}.

(** [prisma.user.findUnique({ where: { email } })] *)
Definition findUnique (table : list User) (mail : string) : option User :=
  List.find (fun u => String.eqb (email u) mail) table.

(** [prisma.user.create({ data })]: the table carries the constraint
    [User_email_key UNIQUE (email)] of the migration, and the client
    throws the known request error [P2002] when it is violated. The new
    row's id is generated by the store. *)
Definition create (new_id : string) (table : list User)
           (name email password : string) : result (User * list User) :=
  match findUnique table email with
  | Some _ =>
      Throw (PrismaClientKnownRequestError
               "P2002" "Unique constraint failed on the fields: (`email`)")
  | None =>
      let u := {| id := new_id; email := email; password := password; name := name |} in
      Ok (u, (table ++ [u])%list)
  end.

End Prisma.

(** ** The route handlers *)

(** What a route handler reads of its process and its libraries. *)
Record Platform : Type := {
  process_env : gmap string string;
  (** [zod]: the messages for a value of the wrong type. *)
  type_issues : string -> option json -> list string;
  (** [jsonwebtoken] and [ms]. *)
  jws_encode : string -> Jwt.JwtPayload -> string;
  jws_decode : string -> option Jwt.Jws;
  hmac : string -> string -> string -> string;
  ms : string -> option Z;
  (** [bcrypt.hash(password, rounds)] and [bcrypt.compare(password, hash)]. *)
  bcrypt_hash : string -> Z -> string;
  bcrypt_compare : string -> string -> bool;
  (** The id the store gives to the row created in a table of [n] rows. *)
  cuid : nat -> string
}.

(** The clock readings of one run of a handler: [Date.now()] in
    milliseconds and [new Date().toISOString()]. *)
Record Clock : Type := {
  now : Z;
  iso : string
}.

Definition double_quote : string := String (ascii_of_nat 34) EmptyString.

Definition session_data (token : string) (u : Prisma.User) : json :=
  JObj [("token", JStr token);
        ("user", JObj [("id", JStr (Prisma.id u));
                       ("email", JStr (Prisma.email u));
                       ("name", JStr (Prisma.name u))])].

Definition generateToken (P : Platform) (userId email : string) (clock : Clock)
  : result string :=
  Auth.generateToken (jws_encode P) (hmac P) (ms P) (Env.load (process_env P))
                     userId email "7d" (now clock).

(** *** [src/app/api/auth/signup/route.ts] *)

Module Signup.
Import Validators ApiResponse.

(** The handler awaits the store twice and the hasher once. A task is a
    run of the handler between two of these points. *)
Inductive Task : Type :=
| Received (req : NextRequest)
| Hashing (name email password : string)
| Creating (name email hashedPassword : string)
| Returned (r : result NextResponse).

Section Handler.
Variable P : Platform.
Variable clock : Clock.

Definition already_exists (email : string) : string :=
  "User with email " +:+ double_quote +:+ email +:+ double_quote +:+
  " already exists. Please try logging in or use a different email.".

(** One step of a task on the user table: up to and including the
    next operation it awaits. *)
Definition step (table : list Prisma.User) (t : Task) : list Prisma.User * Task :=
  match t with
  | Received req =>
      match req_json req with
      | Throw e => (table, Returned (Throw e))
      | Ok body =>
          match validateInput (type_issues P) signupSchema body with
          | Failure errors =>
              (table, Returned (Ok (validationErrorResponse (process_env P) (iso clock) errors)))
          | Success data =>
              let name := field data "name" in
              let email := field data "email" in
              let password := field data "password" in
              match Prisma.findUnique table email with
              | Some existingUser =>
                  (table, Returned (Ok (conflictResponse (process_env P) (iso clock)
                                                         (already_exists email))))
              | None => (table, Hashing name email password)
              end
          end
      end
  | Hashing name email password =>
      (table, Creating name email (bcrypt_hash P password AUTH_CONFIG.BCRYPT_ROUNDS))
  | Creating name email hashedPassword =>
      match Prisma.create (cuid P (length table)) table name email hashedPassword with
      | Throw e => (table, Returned (Throw e))
      | Ok (user, table') =>
          (table',
           Returned
             (let* token := generateToken P (Prisma.id user) (Prisma.email user) clock in
              Ok (successResponse (iso clock)
                                  (session_data token user)
                                  SUCCESS_MESSAGES.USER_CREATED
                                  HTTP_STATUS.CREATED)))
      end
  | Returned r => (table, t)
  end.

(** [withErrorHandling(POST, 'SIGNUP')] on a task that has returned. *)
Definition response (t : Task) : option NextResponse :=
  match t with
  | Returned r =>
      Some (try_catch r (fun e => handleError (process_env P) (iso clock) e (Some "SIGNUP")))
  | _ => None
  end.

(** A request served alone: the three steps in a row. *)
Definition POST (table : list Prisma.User) (req : NextRequest)
  : list Prisma.User * Task :=
  let (t1, k1) := step table (Received req) in
  let (t2, k2) := step t1 k1 in
  step t2 k2.
End Handler.

(** Two requests served concurrently: the schedule says which task
    takes the next step ([true]: the first one). *)
Fixpoint run (P : Platform) (clockA clockB : Clock) (schedule : list bool)
         (table : list Prisma.User) (a b : Task)
  : list Prisma.User * Task * Task :=
  match schedule with
  | [] => (table, a, b)
  | true :: rest =>
      let (table', a') := step P clockA table a in
      run P clockA clockB rest table' a' b
  | false :: rest =>
      let (table', b') := step P clockB table b in
      run P clockA clockB rest table' a b'
  end.

End Signup.

(** *** [src/app/api/auth/login/route.ts] *)

Module Login.
Import Validators ApiResponse.

Section Handler.
Variable P : Platform.
Variable clock : Clock.

Definition POST (table : list Prisma.User) (req : NextRequest) : result NextResponse :=
  let* body := req_json req in
  match validateInput (type_issues P) loginSchema body with
  | Failure errors => Ok (validationErrorResponse (process_env P) (iso clock) errors)
  | Success data =>
      let email := field data "email" in
      let password := field data "password" in
      match Prisma.findUnique table email with
      | None =>
          Ok (unauthorizedResponse (process_env P) (iso clock)
                                   ERROR_MESSAGES.INVALID_CREDENTIALS)
      | Some user =>
          let isPasswordValid := bcrypt_compare P password (Prisma.password user) in
          if negb isPasswordValid
          then Ok (unauthorizedResponse (process_env P) (iso clock)
                                        ERROR_MESSAGES.INVALID_CREDENTIALS)
          else
            let* token := generateToken P (Prisma.id user) (Prisma.email user) clock in
            Ok (successResponse (iso clock)
                                (session_data token user)
                                SUCCESS_MESSAGES.LOGIN_SUCCESSFUL
                                HTTP_STATUS.OK)
      end
  end.

Definition handler (table : list Prisma.User) (req : NextRequest) : NextResponse :=
  withErrorHandling (process_env P) (iso clock) (POST table) (Some "LOGIN") req.
End Handler.

End Login.

(** ** A reference codec for tokens

    A concrete, invertible encoding of a header and a payload, standing
    for base64url over JSON: each text is written after its length in
    unary, each number in decimal. It shows that the laws assumed of the
    [jsonwebtoken] codec can be met. *)

Module ReferenceCodec.
Import Jwt.

Fixpoint unary (n : nat) : string :=
  match n with
  | O => "0"
  | S k => String "1" (unary k)
  end.

Definition text (s : string) : string := unary (String.length s) +:+ s.

Definition decimal (z : Z) : string :=
  DecimalString.NilEmpty.string_of_int (Z.to_int z).

Definition number (o : option Z) : string :=
  match o with
  | None => "N"
  | Some z => String "S" (text (decimal z))
  end.

Definition encode (alg : string) (p : JwtPayload) : string :=
  text alg +:+ text (id p) +:+ text (email p) +:+ number (iat p) +:+ number (exp p).

Fixpoint read_unary (s : string) (n : nat) : option (nat * string) :=
  match s with
  | String "1" r => read_unary r (S n)
  | String "0" r => Some (n, r)
  | _ => None
  end.

Fixpoint take (n : nat) (s : string) : option (string * string) :=
  match n, s with
  | O, _ => Some (EmptyString, s)
  | S k, String c r =>
      match take k r with
      | Some (a, b) => Some (String c a, b)
      | None => None
      end
  | S _, EmptyString => None
  end.

Definition read_text (s : string) : option (string * string) :=
  match read_unary s 0 with
  | Some (n, r) => take n r
  | None => None
  end.

Definition read_number (s : string) : option (option Z * string) :=
  match s with
  | String "N" r => Some (None, r)
  | String "S" r =>
      match read_text r with
      | Some (d, r') =>
          match DecimalString.NilEmpty.int_of_string d with
          | Some i => Some (Some (Z.of_int i), r')
          | None => None
          end
      | None => None
      end
  | _ => None
  end.

Definition decode (token : string) : option Jws :=
  match read_text token with
  | Some (a, r1) =>
  match read_text r1 with
  | Some (i, r2) =>
  match read_text r2 with
  | Some (e, r3) =>
  match read_number r3 with
  | Some (t0, r4) =>
  match read_number r4 with
  | Some (t1, String "." sig) =>
      let p := {| id := i; email := e; iat := t0; exp := t1 |} in
      Some {| alg := a; payload := p; signing_input := encode a p; signature := sig |}
  | _ => None
  end | None => None end | None => None end | None => None end | None => None end.

(** A keyed digest that is never blank: the key and the input behind a
    marker. It stands for the HMAC of the signing input. *)
Definition hmac (alg secret input : string) : string :=
  String "#" (text alg +:+ text secret +:+ input).

(** The spans of [ms] that the handlers use. *)
Definition ms (span : string) : option Z :=
  if String.eqb span "7d" then Some 604800000 else None.

End ReferenceCodec.


(** ** Vocabulary of the statements, and sample data *)

(** The value kept for a key of an [errors] object. *)
Fixpoint errors_get (errors : list (string * string)) (key : string) : option string :=
  match errors with
  | [] => None
  | (k, v) :: rest => if String.eqb k key then Some v else errors_get rest key
  end.

(** The rules of the password policy, in the order of the schema: what a
    password must satisfy, and the message for a password that does not. *)
Definition password_rules : list ((string -> bool) * string) :=
  [ (fun p => (8 <=? String.length p)%nat,
     "Password must be at least 8 characters long");
    (Js.existsb Js.is_upper,
     "Password must contain at least one uppercase letter");
    (Js.existsb Js.is_lower,
     "Password must contain at least one lowercase letter");
    (Js.existsb Js.is_digit,
     "Password must contain at least one number");
    (Js.existsb (fun c => Js.mem c "@$!%*?&"),
     "Password must contain at least one special character (@$!%*?&)") ].

(** The messages of the rules that a password fails, in policy order. *)
Definition failing_rules (p : string) : list string :=
  map snd (List.filter (fun rule => negb (fst rule p)) password_rules).

(** The detail object [{validationErrors: {field: message, ...}}]. *)
Definition validationErrors (errors : list (string * string)) : json :=
  JObj [("validationErrors",
         JObj (map (fun kv => (fst kv, JStr (snd kv))) errors))].

(** A string that does not begin with white space. *)
Definition starts_clean (s : string) : Prop :=
  match s with
  | EmptyString => True
  | String c _ => Js.is_space c = false
  end.

(** The [invalid_type] message of zod's English locale, alone. *)
Definition parsedType (v : option json) : string :=
  match v with
  | None => "undefined"
  | Some JNull => "null"
  | Some (JBool _) => "boolean"
  | Some (JNum _) => "number"
  | Some (JStr _) => "string"
  | Some (JArr _) => "array"
  | Some (JObj _) => "object"
  end.

Definition en_invalid_type (expected : string) (v : option json) : list string :=
  ["Invalid input: expected " +:+ expected +:+ ", received " +:+ parsedType v].

(** A parser that rejects its input, as [JSON.parse] rejects the empty
    string and the text of an unclosed object. *)
Definition rejecting_parser (s : string) : result json :=
  Throw (SyntaxError "Unexpected end of JSON input").

(** A platform for the examples: the reference codec, a hasher that marks
    the plaintext, and a production process with its secret set. *)
Definition reference_hash (password : string) (rounds : Z) : string :=
  "$2b$10$" +:+ password.

Definition ReferencePlatform : Platform :=
  {| process_env := {["JWT_SECRET" := "s3cret"; "NODE_ENV" := "production"]};
     type_issues := en_invalid_type;
     jws_encode := ReferenceCodec.encode;
     jws_decode := ReferenceCodec.decode;
     hmac := ReferenceCodec.hmac;
     ms := ReferenceCodec.ms;
     bcrypt_hash := reference_hash;
     bcrypt_compare := fun password hash => String.eqb hash (reference_hash password 10);
     cuid := fun n => "user-" +:+ ReferenceCodec.unary n |}.

Definition sample_clock : Clock :=
  {| now := 1767225600000; iso := "2026-01-01T00:00:00.000Z" |}.

(** Requests for the examples. *)
Definition request_with (hs : list (string * string)) : NextRequest :=
  {| headers := hs; cookies := ∅; pathname := "/api/posts"; body := None |}.

(** The values of a header as the request was sent, in order. *)
Definition header_values (req : NextRequest) (name : string) : list string :=
  map snd (List.filter
             (fun kv => String.eqb (Js.toLowerCase (fst kv)) (Js.toLowerCase name))
             (headers req)).

Definition navigation (path : string) (jar : gmap string string) : NextRequest :=
  {| headers := []; cookies := jar; pathname := path; body := None |}.

Definition post (path : string) (payload : json) : NextRequest :=
  {| headers := [("content-type", "application/json")]; cookies := ∅;
     pathname := path; body := Some payload |}.

Definition signup_body (name email password : string) : json :=
  JObj [("name", JStr name); ("email", JStr email); ("password", JStr password)].

Definition login_body (email password : string) : json :=
  JObj [("email", JStr email); ("password", JStr password)].

(** The answers of a signup: the account was created, or the request was
    refused, with the conflict envelope or with the internal-error
    envelope. *)
Definition created (clock : Clock) (r : NextResponse) : Prop :=
  exists data,
    r = Json (ApiSuccess data "User created successfully" (iso clock)) 201.

Definition refused (clock : Clock) (r : NextResponse) : Prop :=
  (exists message,
      r = Json (ApiError message "CONFLICT" 409 None (iso clock)) 409)
  \/ (exists details,
         r = Json (ApiError "An error occurred while processing your request"
                            "INTERNAL_ERROR" 500 details (iso clock)) 500).

(** A signup task that has not returned yet and that registers the
    normalised email [e]. *)
Definition pending (P : Platform) (e : string) (t : Signup.Task) : Prop :=
  match t with
  | Signup.Received req =>
      exists payload data,
        body req = Some payload
        /\ Validators.validateInput (type_issues P) Validators.signupSchema payload
           = Validators.Success data
        /\ Validators.field data "email" = e
  | Signup.Hashing _ mail _ => mail = e
  | Signup.Creating _ mail _ => mail = e
  | Signup.Returned _ => False
  end.

Definition won (P : Platform) (clock : Clock) (t : Signup.Task) : Prop :=
  exists r, Signup.response P clock t = Some r /\ created clock r.

Definition lost (P : Platform) (clock : Clock) (t : Signup.Task) : Prop :=
  exists r, Signup.response P clock t = Some r /\ refused clock r.

(** What holds of the table and the two tasks all along a race for [e]:
    while the email is free both tasks are pending; once it is taken, one
    task has created the account and the other is pending or refused. *)
Definition race_invariant (P : Platform) (clockA clockB : Clock) (e : string)
           (table : list Prisma.User) (a b : Signup.Task) : Prop :=
  (Prisma.findUnique table e = None /\ pending P e a /\ pending P e b)
  \/ (Prisma.findUnique table e <> None
      /\ won P clockA a /\ (pending P e b \/ lost P clockB b))
  \/ (Prisma.findUnique table e <> None
      /\ won P clockB b /\ (pending P e a \/ lost P clockA a)).

(** * The rest of the authentication core *)

(** ** More of [src/lib/env.ts] *)

Module EnvCheck.

(** [env[key]] for a key of the [env] object. *)
Definition member (e : Env.env) (key : string) : option string :=
  if String.eqb key "JWT_SECRET" then Some (Env.JWT_SECRET e)
  else if String.eqb key "DATABASE_URL" then Some (Env.DATABASE_URL e)
  else if String.eqb key "NODE_ENV" then Some (Env.NODE_ENV e)
  else if String.eqb key "NEXT_PUBLIC_API_URL" then Some (Env.NEXT_PUBLIC_API_URL e)
  else None.

Definition required : list string := ["JWT_SECRET"; "DATABASE_URL"].

Definition missing (key : string) : exn :=
  Error ("Missing required environment variable: " +:+ key +:+
         ". Please check your .env file.").

(** The loop [for (const key of required)]: the first key without a
    value throws. *)
Fixpoint check (e : Env.env) (keys : list string) : result unit :=
  match keys with
  | [] => Ok tt
  | key :: rest =>
      if negb (Js.truthy_opt (member e key)) then Throw (missing key)
      else check e rest
  end.

Definition validateEnv (e : Env.env) : result unit := check e required.

End EnvCheck.

(** ** Sample data for the rest *)

(** A token issued by the reference platform, and a request that bears it. *)
Definition sample_token : string :=
  match generateToken ReferencePlatform "user-1" "jo@test.com" sample_clock with
  | Ok token => token
  | Throw _ => ""
  end.

Definition bearing (token : string) (payload : option json) : NextRequest :=
  {| headers := [("Authorization", "Bearer " +:+ token)]; cookies := ∅;
     pathname := "/api/posts"; body := payload |}.

(** The messages of a failed authentication. *)
Definition authentication_errors : list string :=
  ["No authentication token provided"; "Token has expired"; "Invalid token";
   "Token verification failed"].

(** The rules of the name schema. *)
Definition valid_name (n : string) : bool :=
  (2 <=? String.length n)%nat && (String.length n <=? 100)%nat
  && Validators.name_regex n.

(** The row that a signup with the typed [data] creates in [table]. *)
Definition new_user (P : Platform) (table : list Prisma.User)
           (data : list (string * string)) : Prisma.User :=
  {| Prisma.id := cuid P (length table);
     Prisma.email := Validators.field data "email";
     Prisma.password := bcrypt_hash P (Validators.field data "password") 10;
     Prisma.name := Validators.field data "name" |}.

(** The payload of a session, member by member: a token and the id, the
    email and the name of the user. *)
Definition session (token id email name : string) : json :=
  JObj [("token", JStr token);
        ("user", JObj [("id", JStr id); ("email", JStr email); ("name", JStr name)])].

(** The internal-error envelope, with or without details. *)
Definition internal_error (clock : Clock) (r : NextResponse) : Prop :=
  exists details,
    r = Json (ApiError "An error occurred while processing your request"
                       "INTERNAL_ERROR" 500 details (iso clock)) 500.

(** ** [src/lib/pagination.ts] *)

Module Pagination.

Record PaginationMeta : Type := {
  page : Z;
  limit : Z;
  total : Z;
  pages : Z;
  hasMore : bool
}.

(** The numbers of the source are doubles. The model computes with the
    exact integers, which is what the source computes as long as every
    number stays at or below [Number.MAX_SAFE_INTEGER] in size; beyond
    that the source rounds, and the model does not follow it. *)
Definition MAX_SAFE_INTEGER : Z := 2 ^ 53 - 1.

(** [Math.ceil(a / b)] for integers [a] and [b] within the safe range,
    [b] not zero. A division by zero gives an infinity or [NaN] in the
    source and is outside the model; the route passes a limit that is at
    least 1. *)
Definition ceil_div (a b : Z) : Z := - ((- a) / b).

Definition calculatePagination (total page limit : Z) : PaginationMeta :=
  let pages := ceil_div total limit in
  let hasMore := page <? pages in
  {| page := page; limit := limit; total := total; pages := pages; hasMore := hasMore |}.

(** The product is exact within the safe range. *)
Definition calculateSkip (page limit : Z) : Z := (page - 1) * limit.

Definition digit_value (c : ascii) : option Z :=
  if Js.is_digit c then Some (Z.of_N (Js.code c) - 48) else None.

(** The value of the leading digits of a text, after the digits read so
    far; [None] when there is no digit at all. *)
Fixpoint read_digits (s : string) (read : option Z) : option Z :=
  match s with
  | EmptyString => read
  | String c r =>
      match digit_value c with
      | Some d => read_digits r (Some (10 * default 0 read + d))
      | None => read
      end
  end.

(** [parseInt(s, 10)]: leading white space, a sign, then the longest run
    of digits; [None] is [NaN]. The value is read as the exact integer.
    The source keeps the nearest double: the same number up to
    [MAX_SAFE_INTEGER], a rounded one beyond it, and an infinity for a
    run of some hundred digits; the model is exact only within the safe
    range. *)
Definition parseInt (s : string) : option Z :=
  match Js.trimStart s with
  | String "-" r => option_map Z.opp (read_digits r None)
  | String "+" r => read_digits r None
  | t => read_digits t None
  end.

(** The two kinds of argument of [parsePaginationParams]: the search
    parameters of a URL, where [get] returns the first value of a name,
    and a plain object. *)
Inductive SearchParams : Type :=
| URLSearchParams (entries : list (string * string))
| PlainObject (members : gmap string string).

Definition get (searchParams : SearchParams) (name : string) : option string :=
  match searchParams with
  | URLSearchParams entries =>
      option_map snd (List.find (fun kv => String.eqb (fst kv) name) entries)
  | PlainObject members => members !! name
  end.

(** [value || fallback] *)
Definition or_else (v : option string) (fallback : string) : string :=
  match v with
  | Some s => if Js.truthy s then s else fallback
  | None => fallback
  end.

Definition parsePaginationParams (searchParams : SearchParams) : Z * Z :=
  let page := parseInt (or_else (get searchParams "page") "1") in
  let limit := parseInt (or_else (get searchParams "limit") "10") in
  let page := Z.max 1 (match page with None => 1 | Some p => p end) in
  let limit := Z.min 100 (Z.max 1 (match limit with None => 10 | Some l => l end)) in
  (page, limit).

End Pagination.

(** The decimal numeral of an integer, as a template literal prints it:
    the digits, after a minus sign for a negative number. From 10^21 on a
    template literal prints an exponent, and the model does not follow
    it. *)
Fixpoint numeral_digits (fuel : nat) (n : Z) (after : string) : string :=
  match fuel with
  | O => after
  | S fuel' =>
      let after' := String (ascii_of_N (Z.to_N (48 + n mod 10))) after in
      if n <? 10 then after' else numeral_digits fuel' (n / 10) after'
  end.

Definition numeral (n : Z) : string :=
  if n <? 0 then String "-" (numeral_digits (S (Z.to_nat (- n))) (- n) "")
  else numeral_digits (S (Z.to_nat n)) n "".

(** ** Object schemas with enumerations *)

Module ZodEnum.
Import Zod.

(** A member of an object schema: a string schema or [z.enum(values)]. *)
Inductive member_schema : Type :=
| OfString (checks : ZodString)
| OfEnum (values : list string).

Definition ZodObject : Type := list (string * member_schema).

Section Locale.
Variable type_issues : string -> option json -> list string.
(** The message of the issue [invalid_value] that an enumeration
    reports for an input that is not one of its values, whatever the
    type of the input. Its wording is left open. *)
Variable invalid_value : list string -> option json -> string.

Definition parseEnum (values : list string) (v : option json)
  : option string * list string :=
  match v with
  | Some (JStr s) =>
      if List.existsb (String.eqb s) values then (Some s, [])
      else (None, [invalid_value values v])
  | _ => (None, [invalid_value values v])
  end.

Definition parseMember (schema : member_schema) (v : option json)
  : option string * list string :=
  match schema with
  | OfString checks => parseString type_issues checks v
  | OfEnum values => parseEnum values v
  end.

Fixpoint parseShape (shape : ZodObject) (input : list (string * json))
  : bool * list (string * string) * list issue :=
  match shape with
  | [] => (true, [], [])
  | (key, schema) :: rest =>
      let '(ok, values, issues) := parseShape rest input in
      let (parsed, messages) := parseMember schema (member input key) in
      let here := map (fun m => {| path := [key]; message := m |}) messages in
      match parsed with
      | Some value => (ok, (key, value) :: values, (here ++ issues)%list)
      | None => (false, values, (here ++ issues)%list)
      end
  end.

Definition safeParse (schema : ZodObject) (data : json)
  : list (string * string) + list issue :=
  match data with
  | JObj members =>
      let '(ok, values, issues) := parseShape schema members in
      match ok, issues with
      | true, [] => inl values
      | _, _ => inr issues
      end
  | _ =>
      inr (map (fun m => {| path := []; message := m |})
               (type_issues "object" (Some data)))
  end.

Definition validateInput (schema : ZodObject) (data : json)
  : Validators.ValidationResult :=
  match safeParse schema data with
  | inr issues => Validators.Failure (Validators.collect issues)
  | inl parsed => Validators.Success parsed
  end.
End Locale.

Definition postTypeSchema : member_schema := OfEnum ["offer"; "request"].

Definition categorySchema : member_schema :=
  OfEnum ["physical"; "monetary"; "goods"; "mentoring"; "other"].

Definition createPostSchema : ZodObject :=
  [("title", OfString [Min 5 "Title must be at least 5 characters long";
                       Max 200 "Title must be at most 200 characters long"]);
   ("description",
    OfString [Min 10 "Description must be at least 10 characters long";
              Max 5000 "Description must be at most 5000 characters long"]);
   ("type", postTypeSchema);
   ("category", categorySchema)].

End ZodEnum.

(** ** [src/services/database.ts] *)

Module UserService.

(** [select: { id: true, email: true, name: true }] *)
Record Selected : Type := {
  id : string;
  email : string;
  name : string
}.

Definition select (u : Prisma.User) : Selected :=
  {| id := Prisma.id u; email := Prisma.email u; name := Prisma.name u |}.

Definition getUserById (users : list Prisma.User) (id : string) : option Selected :=
  option_map select (List.find (fun u => String.eqb (Prisma.id u) id) users).

Definition getUserByEmail (users : list Prisma.User) (email : string)
  : option Prisma.User :=
  Prisma.findUnique users email.

Definition createUser (new_id : string) (users : list Prisma.User)
           (name email password : string) : result (Prisma.User * list Prisma.User) :=
  Prisma.create new_id users name email password.

End UserService.

Module PostService.

(** A row of the table [Post]. The two dates are clock readings: the
    milliseconds order the rows, the ISO text is what a response shows. *)
Record Post : Type := {
  id : string;
  title : string;
  description : string;
  type : string;
  category : string;
  status : string;
  createdAt : Clock;
  updatedAt : Clock;
  authorId : string
}.

(** A post with [include: { author: { select: ... } }]. *)
Record PostWithAuthor : Type := {
  post : Post;
  author : UserService.Selected
}.

Section Store.
(** [orderBy: { createdAt: 'desc' }] as the store answers one query. The
    order of two rows of the same date is the store's choice, and it
    makes the choice anew at each query: two queries are two such
    functions. *)
Variable orderBy_createdAt_desc : list Post -> list Post.

(** The author of each post of a result. The constraint
    [Post_authorId_fkey] of the migration gives every row an author;
    without one the client throws. *)
Fixpoint include_author (users : list Prisma.User) (rows : list Post)
  : result (list PostWithAuthor) :=
  match rows with
  | [] => Ok []
  | p :: rest =>
      match UserService.getUserById users (authorId p) with
      | None =>
          Throw (Error "Inconsistent query result: Field author is required to return data, got `null` instead.")
      | Some a =>
          let* others := include_author users rest in
          Ok ({| post := p; author := a |} :: others)
      end
  end.

(** [prisma.post.findMany] with the options [skip] and [take], which
    the route passes as a number that is at least 0 and a number that
    is at least 1. Negative numbers, and numbers that do not fit the
    32-bit integers of the store, are outside the model. *)
Definition getAllPosts (users : list Prisma.User) (posts : list Post)
           (options : option (Z * Z)) : result (list PostWithAuthor) :=
  let ordered := orderBy_createdAt_desc posts in
  include_author users
    match options with
    | Some (skip, take) => firstn (Z.to_nat take) (skipn (Z.to_nat skip) ordered)
    | None => ordered
    end.

Definition getPostCount (posts : list Post) : Z := Z.of_nat (length posts).

Definition getPostsByUser (posts : list Post) (userId : string) : list Post :=
  orderBy_createdAt_desc (List.filter (fun p => String.eqb (authorId p) userId) posts).
End Store.

(** [prisma.post.create({ data, include })]: the store gives the row its
    id, the status ['active'] and the two dates, and refuses a row whose
    author is not in the table [User] with the known request error
    [P2003]. *)
Definition createPost (new_id : string) (stored : Clock)
           (users : list Prisma.User) (posts : list Post)
           (title description type category authorId : string)
  : result (PostWithAuthor * list Post) :=
  match UserService.getUserById users authorId with
  | None =>
      Throw (PrismaClientKnownRequestError
               "P2003" "Foreign key constraint failed on the field: `Post_authorId_fkey (index)`")
  | Some a =>
      let p := {| id := new_id; title := title; description := description;
                  type := type; category := category; status := "active";
                  createdAt := stored; updatedAt := stored; authorId := authorId |} in
      Ok ({| post := p; author := a |}, (posts ++ [p])%list)
  end.

(** The JSON text of a post with its author. *)
Definition to_json (p : PostWithAuthor) : json :=
  JObj [("id", JStr (id (post p)));
        ("title", JStr (title (post p)));
        ("description", JStr (description (post p)));
        ("type", JStr (type (post p)));
        ("category", JStr (category (post p)));
        ("status", JStr (status (post p)));
        ("createdAt", JStr (iso (createdAt (post p))));
        ("updatedAt", JStr (iso (updatedAt (post p))));
        ("authorId", JStr (authorId (post p)));
        ("author", JObj [("id", JStr (UserService.id (author p)));
                         ("name", JStr (UserService.name (author p)));
                         ("email", JStr (UserService.email (author p)))])].

End PostService.

(** ** [src/app/api/posts/route.ts] *)

Module Posts.
Import ApiResponse.

(** [SUCCESS_MESSAGES.POST_CREATED] *)
Definition POST_CREATED : string := "Post created successfully".

(** A response of the two handlers: the paginated envelope of
    [paginatedResponse], or one of the other envelopes. *)
Inductive Response : Type :=
| Paginated (data : list json) (pagination : Pagination.PaginationMeta)
            (message timestamp : string) (status : Z)
| Plain (r : NextResponse).

(** [paginatedResponse(data, pagination, message, status)] *)
Definition paginatedResponse (timestamp : string) (data : list json)
           (pagination : Pagination.PaginationMeta) (message : option string)
           (status : Z) : Response :=
  Paginated data pagination
            (if Js.truthy_opt message then default "" message
             else SUCCESS_MESSAGES.OPERATION_SUCCESS)
            timestamp status.

Section Handlers.
Variable P : Platform.
Variable invalid_value : list string -> option json -> string.
Variable orderBy_createdAt_desc : list PostService.Post -> list PostService.Post.
Variable clock : Clock.

(** The two reads of [Promise.all] see the same table: the request is
    served alone. *)
Definition GET (users : list Prisma.User) (posts : list PostService.Post)
           (searchParams : Pagination.SearchParams) : result Response :=
  let (page, limit) := Pagination.parsePaginationParams searchParams in
  let skip := Pagination.calculateSkip page limit in
  let* found := PostService.getAllPosts orderBy_createdAt_desc users posts
                                        (Some (skip, limit)) in
  let total := PostService.getPostCount posts in
  let pagination := Pagination.calculatePagination total page limit in
  Ok (paginatedResponse (iso clock) (map PostService.to_json found) pagination
                        None HTTP_STATUS.OK).

(** [withErrorHandling(GET, 'GET_POSTS')] *)
Definition getHandler (users : list Prisma.User) (posts : list PostService.Post)
           (searchParams : Pagination.SearchParams) : Response :=
  try_catch (GET users posts searchParams)
            (fun e => Plain (handleError (process_env P) (iso clock) e (Some "GET_POSTS"))).

(** [stored] is the reading of the store's clock when it creates the
    row. *)
Definition POST (stored : Clock) (users : list Prisma.User)
           (posts : list PostService.Post) (req : NextRequest)
  : list PostService.Post * result NextResponse :=
  let authResult :=
    Auth.authenticateRequest (jws_decode P) (hmac P) (Env.load (process_env P))
                             req (now clock) in
  if negb (Auth.success authResult)
  then (posts,
        Ok (unauthorizedResponse (process_env P) (iso clock)
              (if Js.truthy_opt (Auth.error authResult)
               then default "" (Auth.error authResult)
               else ERROR_MESSAGES.UNAUTHORIZED)))
  else
    match req_json req with
    | Throw e => (posts, Throw e)
    | Ok body =>
        match ZodEnum.validateInput (type_issues P) invalid_value
                                    ZodEnum.createPostSchema body with
        | Validators.Failure errors =>
            (posts, Ok (validationErrorResponse (process_env P) (iso clock) errors))
        | Validators.Success data =>
            let title := Validators.field data "title" in
            let description := Validators.field data "description" in
            let type := Validators.field data "type" in
            let category := Validators.field data "category" in
            match Auth.user authResult with
            | None => (posts, Throw (Error "Cannot read properties of undefined (reading 'id')"))
            | Some user =>
                match PostService.createPost (cuid P (length posts)) stored users posts
                                             title description type category
                                             (Jwt.id user) with
                | Throw e => (posts, Throw e)
                | Ok (created, posts') =>
                    (posts',
                     Ok (successResponse (iso clock) (PostService.to_json created)
                                         POST_CREATED HTTP_STATUS.CREATED))
                end
            end
        end
    end.

(** [withErrorHandling(POST, 'CREATE_POST')] *)
Definition postHandler (stored : Clock) (users : list Prisma.User)
           (posts : list PostService.Post) (req : NextRequest)
  : list PostService.Post * NextResponse :=
  let (posts', r) := POST stored users posts req in
  (posts', try_catch r (fun e => handleError (process_env P) (iso clock) e
                                             (Some "CREATE_POST"))).
End Handlers.

End Posts.

(** Every post of the table has its author in the table of users: the
    constraint [Post_authorId_fkey]. *)
Definition referential_integrity (users : list Prisma.User)
           (posts : list PostService.Post) : Prop :=
  Forall (fun p => UserService.getUserById users (PostService.authorId p) <> None) posts.

(** A reference order of the posts: insertion by date, newest first; a
    row goes after the rows of its own date. *)
Fixpoint insert_by_date (p : PostService.Post) (sorted : list PostService.Post)
  : list PostService.Post :=
  match sorted with
  | [] => [p]
  | q :: rest =>
      if now (PostService.createdAt q) <? now (PostService.createdAt p)
      then p :: q :: rest
      else q :: insert_by_date p rest
  end.

Definition newest_first (posts : list PostService.Post) : list PostService.Post :=
  fold_right insert_by_date [] posts.

(** The rules of [createPostSchema] on the four members. *)
Definition valid_post (title description type category : string) : bool :=
  (5 <=? String.length title)%nat && (String.length title <=? 200)%nat
  && (10 <=? String.length description)%nat
  && (String.length description <=? 5000)%nat
  && List.existsb (String.eqb type) ["offer"; "request"]
  && List.existsb (String.eqb category)
                  ["physical"; "monetary"; "goods"; "mentoring"; "other"].

(** The window of a page of [limit] rows. *)
Definition page_of {A : Type} (rows : list A) (page limit : Z) : list A :=
  firstn (Z.to_nat limit) (skipn (Z.to_nat (Pagination.calculateSkip page limit)) rows).

(** The rows of a response of the posts route: those of the paginated
    envelope, none for another envelope. *)
Definition page_data (r : Posts.Response) : list json :=
  match r with
  | Posts.Paginated data _ _ _ _ => data
  | Posts.Plain _ => []
  end.

(** The query that the posts page sends for a page and a page size. *)
Definition posts_query (page limit : Z) : Pagination.SearchParams :=
  Pagination.URLSearchParams [("page", numeral page); ("limit", numeral limit)].

(** A table of users and a table of posts for the examples. *)
Definition sample_users : list Prisma.User :=
  [{| Prisma.id := "user-1"; Prisma.email := "jo@test.com";
      Prisma.password := reference_hash "Secret1!x" 10; Prisma.name := "Jo" |}].

Definition sample_post (n : nat) (title : string) (at_ms : Z) : PostService.Post :=
  {| PostService.id := cuid ReferencePlatform n;
     PostService.title := title;
     PostService.description := "A few words about it";
     PostService.type := "offer";
     PostService.category := "goods";
     PostService.status := "active";
     PostService.createdAt := {| now := at_ms; iso := numeral at_ms |};
     PostService.updatedAt := {| now := at_ms; iso := numeral at_ms |};
     PostService.authorId := "user-1" |}.

Definition sample_posts : list PostService.Post :=
  [sample_post 0 "Spare winter coats" 1767225600000;
   sample_post 1 "Help moving a sofa" 1767225700000;
   sample_post 2 "Free maths lessons" 1767225800000].

(** The row that [POST /api/posts] creates in a table of [posts]. *)
Definition new_post (P : Platform) (stored : Clock) (posts : list PostService.Post)
           (title description type category authorId : string) : PostService.Post :=
  {| PostService.id := cuid P (length posts);
     PostService.title := title;
     PostService.description := description;
     PostService.type := type;
     PostService.category := category;
     PostService.status := "active";
     PostService.createdAt := stored;
     PostService.updatedAt := stored;
     PostService.authorId := authorId |}.

(** [authenticateRequest] as the handlers of a platform call it. *)
Definition authenticated (P : Platform) (clock : Clock) (req : NextRequest)
  : Auth.AuthResult :=
  Auth.authenticateRequest (jws_decode P) (hmac P) (Env.load (process_env P))
                           req (now clock).

(** The [invalid_value] message of zod's English locale. *)
Definition en_invalid_value (values : list string) (v : option json) : string :=
  "Invalid option: expected one of " +:+
  Js.join "|" (map (fun s => double_quote +:+ s +:+ double_quote) values).

Definition post_body (title description type category : string) : json :=
  JObj [("title", JStr title); ("description", JStr description);
        ("type", JStr type); ("category", JStr category)].

(** The payload of [sample_token]. *)
Definition sample_payload : Jwt.JwtPayload :=
  {| Jwt.id := "user-1"; Jwt.email := "jo@test.com";
     Jwt.iat := Some 1767225600; Jwt.exp := Some 1767830400 |}.

(** The payload and the text of the token that [generateToken] issues
    for a user at a reading of the clock. *)
Definition token_payload (userId email : string) (clock : Clock) : Jwt.JwtPayload :=
  {| Jwt.id := userId; Jwt.email := email;
     Jwt.iat := Some (now clock / 1000);
     Jwt.exp := Some (now clock / 1000 + 604800) |}.

Definition token_text (P : Platform) (userId email : string) (clock : Clock) : string :=
  let input := jws_encode P "HS256" (token_payload userId email clock) in
  input +:+ "." +:+ hmac P "HS256" (Env.JWT_SECRET (Env.load (process_env P))) input.

(** ** The browser, as the hook and the pages use it *)

Module Browser.

(** A stored cookie: its value, and whether it was stored with
    [SameSite=Strict]. *)
Record Cookie : Type := {
  value : string;
  strict : bool
}.

(** The local storage, the cookies that [document.cookie] holds, and the
    path that [router.push] set last. *)
Record State : Type := {
  localStorage : gmap string string;
  cookie : gmap string Cookie;
  location : string
}.

(** The text before the first [c], and the text after it when [c]
    occurs. *)
Fixpoint cut (c : ascii) (s : string) : string * option string :=
  match s with
  | EmptyString => (EmptyString, None)
  | String a r =>
      if Ascii.eqb a c then (EmptyString, Some r)
      else let (before, after) := cut c r in (String a before, after)
  end.

Section Clock.
(** The browser's reading of a date against its clock. *)
Variable in_the_past : string -> bool.

(** Of the attributes of a cookie text the store reads [expires] and
    [SameSite]; of each the last one decides. The two texts of the hook
    carry no [max-age], and their path is the whole site. *)
Definition expired (attributes : list string) : bool :=
  fold_left
    (fun sofar attribute =>
       match cut "=" attribute with
       | (name, Some value) =>
           if String.eqb (Js.toLowerCase (Js.trim name)) "expires"
           then in_the_past (Js.trim value)
           else sofar
       | (_, None) => sofar
       end)
    attributes false.

Definition same_site_strict (attributes : list string) : bool :=
  fold_left
    (fun sofar attribute =>
       match cut "=" attribute with
       | (name, Some value) =>
           if String.eqb (Js.toLowerCase (Js.trim name)) "samesite"
           then String.eqb (Js.toLowerCase (Js.trim value)) "strict"
           else sofar
       | (_, None) => sofar
       end)
    attributes false.

(** The assignment [document.cookie = text]: the pair before the first
    semicolon is split at its first equals sign, the name and the value
    lose the white space around them, and the cookie is stored, or
    removed when it has expired. A text without an equals sign in its
    pair is ignored. *)
Definition assign (jar : gmap string Cookie) (text : string) : gmap string Cookie :=
  let (pair, rest) := cut ";" text in
  match cut "=" pair with
  | (name, Some v) =>
      let attributes := match rest with Some r => Js.split ";" r | None => [] end in
      if expired attributes then delete (Js.trim name) jar
      else <[Js.trim name := {| value := Js.trim v;
                                strict := same_site_strict attributes |}]> jar
  | (_, None) => jar
  end.
End Clock.

(** The cookies that the browser sends with a request of the site to
    itself: all of them. *)
Definition sent_within (jar : gmap string Cookie) : gmap string string :=
  value <$> jar.

(** The cookies that it sends with a navigation that another site
    started, by a link or a redirect: the strict ones are withheld. *)
Definition sent_across (jar : gmap string Cookie) : gmap string string :=
  omap (fun c => if strict c then None else Some (value c)) jar.

End Browser.

(** ** The actions of the hook ([src/lib/useAuth.ts]) *)

Module Session.
Import Browser.

Section Hook.
(** [JSON.stringify] on the user of a session. *)
Variable JSON_stringify : json -> string.
Variable in_the_past : string -> bool.

(** [expires] is [expirationDate.toUTCString()], the date seven days
    after the call. *)
Definition setAuthCookie (expires token : string) (jar : gmap string Cookie)
  : gmap string Cookie :=
  assign in_the_past jar
         ("authToken=" +:+ token +:+ "; path=/; expires=" +:+ expires +:+
          "; SameSite=Strict").

Definition clearAuthCookie (jar : gmap string Cookie) : gmap string Cookie :=
  assign in_the_past jar
         "authToken=; path=/; expires=Thu, 01 Jan 1970 00:00:00 UTC; SameSite=Strict".

Definition login (expires token : string) (userData : json) (b : State)
  : State * UseAuth.AuthState :=
  ({| localStorage :=
        <["user" := JSON_stringify userData]> (<["authToken" := token]> (localStorage b));
      cookie := setAuthCookie expires token (cookie b);
      location := location b |},
   {| UseAuth.token := Some token; UseAuth.user := Some userData |}).

Definition logout (b : State) : State * UseAuth.AuthState :=
  ({| localStorage := delete "user" (delete "authToken" (localStorage b));
      cookie := clearAuthCookie (cookie b);
      location := "/" |},
   {| UseAuth.token := None; UseAuth.user := None |}).
End Hook.

End Session.

(** A token that a cookie text carries unchanged: no semicolon in it
    and no white space around it. *)
Definition cookie_safe (token : string) : Prop :=
  Js.existsb (Ascii.eqb ";") token = false /\ Js.trim token = token.

(** A navigation of the browser to a path of the site, started within
    the site: it bears every cookie. *)
Definition visit (b : Browser.State) (path : string) : NextRequest :=
  {| headers := []; cookies := Browser.sent_within (Browser.cookie b);
     pathname := path; body := None |}.

(** A navigation to a path of the site that another site started. *)
Definition visit_from_another_site (b : Browser.State) (path : string) : NextRequest :=
  {| headers := []; cookies := Browser.sent_across (Browser.cookie b);
     pathname := path; body := None |}.

(** A writer and a reader of the user of a session for the examples:
    the three members in order, their texts without escapes. *)
Definition quoted (s : string) : string := double_quote +:+ s +:+ double_quote.

Definition write_user (u : json) : string :=
  match u with
  | JObj [(k1, JStr i); (k2, JStr e); (k3, JStr n)] =>
      "{" +:+ quoted k1 +:+ ":" +:+ quoted i +:+ "," +:+
      quoted k2 +:+ ":" +:+ quoted e +:+ "," +:+
      quoted k3 +:+ ":" +:+ quoted n +:+ "}"
  | _ => "null"
  end.

Definition read_user (s : string) : result json :=
  match Js.split (ascii_of_nat 34) s with
  | [open; k1; c1; i; m1; k2; c2; e; m2; k3; c3; n; close] =>
      if List.forallb (fun ab => String.eqb (fst ab) (snd ab))
                      [(open, "{"); (c1, ":"); (m1, ","); (c2, ":"); (m2, ",");
                       (c3, ":"); (close, "}")]
      then Ok (JObj [(k1, JStr i); (k2, JStr e); (k3, JStr n)])
      else Throw (SyntaxError "Unexpected token")
  | _ => Throw (SyntaxError "Unexpected token")
  end.

(** A browser whose clock reads a date after 1970 and before 2026. *)
Definition before_2026 (date : string) : bool :=
  String.eqb date "Thu, 01 Jan 1970 00:00:00 UTC".

Definition sample_user : json :=
  JObj [("id", JStr "user-1"); ("email", JStr "jo@test.com"); ("name", JStr "Jo")].

Definition sample_browser : Browser.State :=
  {| Browser.localStorage := {["theme" := "dark"]};
     Browser.cookie :=
       {["consent" := {| Browser.value := "yes"; Browser.strict := false |}]};
     Browser.location := "/login" |}.

(** ** The client: [src/services/api.ts], [src/hooks/useForm.ts] and the pages *)

Module ROUTES.
Definition HOME := "/".
Definition LOGIN := "/login".
Definition SIGNUP := "/signup".
Definition POSTS := "/posts".
Definition CREATE := "/create".
End ROUTES.

(** The JSON body of an envelope, as [NextResponse.json] writes it and
    [res.json()] reads it. *)
Definition wire (b : ApiBody) : json :=
  match b with
  | ApiSuccess data message timestamp =>
      JObj [("success", JBool true); ("data", data);
            ("message", JStr message); ("timestamp", JStr timestamp)]
  | ApiError error code status details timestamp =>
      JObj ([("success", JBool false); ("error", JStr error); ("code", JStr code);
             ("status", JNum status)]
            ++ match details with Some d => [("details", d)] | None => [] end
            ++ [("timestamp", JStr timestamp)])%list
  end.

(** [value.key] on a parsed JSON value, for the keys that the pages
    read: none of them is a member of a string, a number, a boolean or an
    array, and reading a member of [null] throws a [TypeError]. *)
Definition property (value : json) (key : string) : result (option json) :=
  match value with
  | JNull => Throw (Error ("Cannot read properties of null (reading '" +:+ key +:+ "')"))
  | JObj members => Ok (Zod.member members key)
  | _ => Ok None
  end.

(** [!!value] for a value that may be [undefined]. *)
Definition truthy_value (v : option json) : bool :=
  match v with
  | Some j => UseAuth.json_truthy j
  | None => false
  end.

Module ApiService.

(** [process.env.NEXT_PUBLIC_API_URL || '/api'] *)
Definition BASE_URL (process_env : gmap string string) : string :=
  match process_env !! "NEXT_PUBLIC_API_URL" with
  | Some url => if Js.truthy url then url else "/api"
  | None => "/api"
  end.

Section Requests.
Variable base : string.
(** The cookies that the browser holds: a request of a page to its own
    site bears them all. *)
Variable jar : gmap string Browser.Cookie.

Definition signup (name email password : string) : NextRequest :=
  {| headers := [("Content-Type", "application/json")];
     cookies := Browser.sent_within jar;
     pathname := base +:+ "/auth/signup";
     body := Some (JObj [("name", JStr name); ("email", JStr email);
                         ("password", JStr password)]) |}.

Definition login (email password : string) : NextRequest :=
  {| headers := [("Content-Type", "application/json")];
     cookies := Browser.sent_within jar;
     pathname := base +:+ "/auth/login";
     body := Some (JObj [("email", JStr email); ("password", JStr password)]) |}.

(** [post] holds the values of the form, member by member. *)
Definition createPost (post : list (string * string)) (token : string) : NextRequest :=
  {| headers := [("Content-Type", "application/json");
                 ("Authorization", "Bearer " +:+ token)];
     cookies := Browser.sent_within jar;
     pathname := base +:+ "/posts";
     body := Some (JObj (map (fun kv => (fst kv, JStr (snd kv))) post)) |}.
End Requests.

End ApiService.

Module Pages.

(** A page: the browser, the state of [useAuth], and of [useForm] the
    errors and the flag [isSubmitting]. *)
Record Page : Type := {
  browser : Browser.State;
  auth : UseAuth.AuthState;
  errors : gmap string json;
  isSubmitting : bool
}.

Definition setErrors (p : Page) (e : gmap string json) : Page :=
  {| browser := browser p; auth := auth p; errors := e; isSubmitting := isSubmitting p |}.

Definition push (p : Page) (path : string) : Page :=
  {| browser := {| Browser.localStorage := Browser.localStorage (browser p);
                   Browser.cookie := Browser.cookie (browser p);
                   Browser.location := path |};
     auth := auth p; errors := errors p; isSubmitting := isSubmitting p |}.

(** The end of a submission: the page as it is left, or an answer
    that breaks the type the page asserts for it, [{ token: string; user }]
    in the data of a success; the model does not follow the page there. *)
Inductive Outcome : Type :=
| Settled (p : Page)
| Untyped.

(** [handleSubmit] of [useForm] around a submission that has run to
    its end or has thrown, from the page [p]. *)
Definition handleSubmit (p : Page) (onSubmit : result Outcome) : Outcome :=
  match onSubmit with
  | Ok (Settled q) =>
      Settled {| browser := browser q; auth := auth q; errors := errors q;
                 isSubmitting := false |}
  | Ok Untyped => Untyped
  | Throw _ =>
      Settled {| browser := browser p; auth := auth p;
                 errors := {["submit" := JStr "Failed to submit form"]};
                 isSubmitting := false |}
  end.

(** [response.message || fallback] *)
Definition message_or (message : option json) (fallback : string) : json :=
  match message with
  | Some m => if UseAuth.json_truthy m then m else JStr fallback
  | None => JStr fallback
  end.

Section WithBrowser.
Variable JSON_stringify : json -> string.
Variable in_the_past : string -> bool.
(** The date seven days after the submission, as [toUTCString] prints it. *)
Variable expires : string.
(** [fetch] and [res.json()]: the parsed body of the answer to a
    request, or the exception of a failed request or of a body that is
    not JSON. *)
Variable fetch : NextRequest -> result json.
Variable base : string.

(** [login(response.data.token, response.data.user)] and
    [router.push(ROUTES.POSTS)] of the login page and the signup page. *)
Definition open_session (p : Page) (data : json) : result Outcome :=
  let* token := property data "token" in
  let* user := property data "user" in
  match token, user with
  | Some (JStr t), Some u =>
      let (b, st) := Session.login JSON_stringify in_the_past expires t u (browser p) in
      Ok (Settled (push {| browser := b; auth := st; errors := errors p;
                           isSubmitting := isSubmitting p |}
                        ROUTES.POSTS))
  | _, _ => Ok Untyped
  end.

(** The common end of [onSubmit] on the login page and the signup page. *)
Definition session_or_error (p : Page) (response : json) (fallback : string)
  : result Outcome :=
  let* success := property response "success" in
  let* data := property response "data" in
  match data with
  | Some d =>
      if truthy_value success && UseAuth.json_truthy d then open_session p d
      else
        let* message := property response "message" in
        Ok (Settled (setErrors p {["submit" := message_or message fallback]}))
  | None =>
      let* message := property response "message" in
      Ok (Settled (setErrors p {["submit" := message_or message fallback]}))
  end.

Definition LoginPage_onSubmit (p : Page) (email password : string) : result Outcome :=
  let* response :=
    fetch (ApiService.login base (Browser.cookie (browser p)) email password) in
  session_or_error p response ERROR_MESSAGES.INVALID_CREDENTIALS.

Definition SignupPage_onSubmit (p : Page) (name email password confirmPassword : string)
  : result Outcome :=
  if negb (String.eqb password confirmPassword)
  then Ok (Settled (setErrors p {["confirmPassword" := JStr "Passwords do not match"]}))
  else
    let* response :=
      fetch (ApiService.signup base (Browser.cookie (browser p)) name email password) in
    session_or_error p response ERROR_MESSAGES.INTERNAL_SERVER_ERROR.

Definition CreatePostPage_onSubmit (p : Page) (title description type category : string)
  : result Outcome :=
  let token := Browser.localStorage (browser p) !! "authToken" in
  match token with
  | Some t =>
      if negb (Js.truthy t)
      then Ok (Settled (setErrors p {["submit" := JStr "Authentication required"]}))
      else
        let* response :=
          fetch (ApiService.createPost base (Browser.cookie (browser p))
                   [("title", title); ("description", description);
                    ("type", type); ("category", category)] t) in
        let* success := property response "success" in
        if truthy_value success then Ok (Settled (push p ROUTES.POSTS))
        else
          let* message := property response "message" in
          Ok (Settled (setErrors p {["submit" := message_or message "Failed to create post"]}))
  | None => Ok (Settled (setErrors p {["submit" := JStr "Authentication required"]}))
  end.

(** The effect of the create page on mount. *)
Definition CreatePostPage_mount (p : Page) : Page :=
  if negb (Js.truthy_opt (Browser.localStorage (browser p) !! "authToken"))
  then push p ROUTES.LOGIN
  else p.
End WithBrowser.

End Pages.

(** [fetch] against a handler: the body of its answer. *)
Definition answered (r : NextResponse) : result json :=
  match r with
  | Json payload _ => Ok (wire payload)
  | Redirect _ | Next => Throw (SyntaxError "Unexpected token '<'")
  end.

(** A page on a browser, before any submission. *)
Definition fresh_page (b : Browser.State) : Pages.Page :=
  {| Pages.browser := b; Pages.auth := UseAuth.initial; Pages.errors := ∅;
     Pages.isSubmitting := false |}.

(** The user of a session, as the login route and the signup route
    write it. *)
Definition user_json (u : Prisma.User) : json :=
  JObj [("id", JStr (Prisma.id u)); ("email", JStr (Prisma.email u));
        ("name", JStr (Prisma.name u))].

(** The page that the login page and the signup page leave after they
    opened a session for [u] with [token]. *)
Definition signed_in (JSON_stringify : json -> string) (in_the_past : string -> bool)
           (expires token : string) (u : Prisma.User) (p : Pages.Page) : Pages.Page :=
  {| Pages.browser :=
       {| Browser.localStorage :=
            <["user" := JSON_stringify (user_json u)]>
              (<["authToken" := token]> (Browser.localStorage (Pages.browser p)));
          Browser.cookie :=
            Session.setAuthCookie in_the_past expires token
                                  (Browser.cookie (Pages.browser p));
          Browser.location := "/posts" |};
     Pages.auth := {| UseAuth.token := Some token; UseAuth.user := Some (user_json u) |};
     Pages.errors := Pages.errors p;
     Pages.isSubmitting := false |}.

(** ** The wrappers of [src/lib/routeHandler.ts], with the console *)

Module RouteHandler.

(** What a call of the console receives: the text, and for
    [console.error] the error after it. *)
Inductive entry : Type :=
| Log (text : string)
| Err (text : string) (error : exn).

(** A handler writes to the console and returns or throws. *)
Definition RouteHandler : Type := NextRequest -> list entry * result NextResponse.

(** [response.status] *)
Definition status (r : NextResponse) : Z :=
  match r with
  | Json _ s => s
  | Redirect _ => 307
  | Next => 200
  end.

Section Process.
Variable process_env : gmap string string.

(** [timestamp] is the reading of the clock in [handleError]. *)
Definition withErrorHandling (timestamp : string) (context : option string)
           (handler : RouteHandler) : RouteHandler :=
  fun req =>
    let (out, r) := handler req in
    match r with
    | Ok response => (out, Ok response)
    | Throw error =>
        ((out ++ [Err ("[" +:+ timestamp +:+ "] " +:+
                       (if Js.truthy_opt context
                        then "[" +:+ default "" context +:+ "] " else "") +:+
                       "Error:")
                      error])%list,
         Ok (ApiResponse.handleError process_env timestamp error context))
    end.

(** [timestamp] is the reading of the clock before the handler runs,
    [method] is [req.method] and [duration] the milliseconds that the
    handler took. *)
Definition withLogging (timestamp method : string) (duration : Z)
           (handler : RouteHandler) : RouteHandler :=
  fun req =>
    let (out, r) := handler req in
    match r with
    | Ok response =>
        ((out ++ [Log ("[" +:+ timestamp +:+ "] " +:+ method +:+ " " +:+ pathname req +:+
                       " - " +:+ numeral (status response) +:+
                       " (" +:+ numeral duration +:+ "ms)")])%list,
         Ok response)
    | Throw error =>
        ((out ++ [Err ("[" +:+ timestamp +:+ "] " +:+ method +:+ " " +:+ pathname req +:+
                       " - Error (" +:+ numeral duration +:+ "ms):")
                      error])%list,
         Throw error)
    end.
End Process.

(** The loop runs from the last wrapper to the first. *)
Definition applyMiddleware (handler : RouteHandler)
           (wrappers : list (RouteHandler -> RouteHandler)) : RouteHandler :=
  fold_left (fun wrappedHandler wrapper => wrapper wrappedHandler) (rev wrappers) handler.

End RouteHandler.

(** The largest number that the store takes for [skip] and [take]. *)
Definition MAX_INT : Z := 2 ^ 31 - 1.

(** The rows that the route skips for a query. *)
Definition skip_of (searchParams : Pagination.SearchParams) : Z :=
  let (page, limit) := Pagination.parsePaginationParams searchParams in
  Pagination.calculateSkip page limit.

(** A row of a result carries its own author: the user of the table
    whose id is the [authorId] of the post, with the selected members. *)
Definition own_author (users : list Prisma.User) (found : PostService.PostWithAuthor)
  : Prop :=
  UserService.getUserById users (PostService.authorId (PostService.post found))
    = Some (PostService.author found).

(** The date of a post, and rows in the order newest first: no row is
    older than a row after it. *)
Definition date (p : PostService.Post) : Z := now (PostService.createdAt p).

Fixpoint by_date_desc (rows : list PostService.Post) : Prop :=
  match rows with
  | [] => True
  | p :: rest => Forall (fun q => date q <= date p) rest /\ by_date_desc rest
  end.

(** * Properties *)

(** ** Strings *)

Lemma append_cons (c : ascii) (s t : string) :
  String c s +:+ t = String c (s +:+ t).
Proof. reflexivity. Qed.

Lemma append_nil (t : string) : "" +:+ t = t.
Proof. reflexivity. Qed.

Lemma startsWith_app (s p : string) :
  Js.startsWith s p = true <-> exists t, s = p +:+ t.
Proof.
  unfold Js.startsWith. revert s.
  induction p as [|c p IH]; intros s; simpl.
  - split; [exists s; reflexivity | destruct s; reflexivity].
  - destruct s as [|d s]; simpl.
    + split; [discriminate | intros [t Ht]; discriminate].
    + destruct (ascii_dec c d) as [->|Hne].
      * rewrite IH. split; intros [t Ht]; exists t;
          rewrite append_cons in *; congruence.
      * split; [discriminate | intros [t Ht]; rewrite append_cons in Ht; congruence].
Qed.

Lemma substring_app (p t : string) :
  Js.substring (String.length p) (p +:+ t) = t.
Proof.
  induction p as [|c p IH].
  - rewrite append_nil. destruct t; reflexivity.
  - rewrite append_cons. exact IH.
Qed.

(** ** Bearer tokens ([auth.ts]) *)

Lemma extractToken_header (req : NextRequest) (h : string) :
  headers_get req "authorization" = Some h ->
  Auth.extractToken req =
    if Js.startsWith h "Bearer " then Some (Js.substring 7 h) else None.
Proof.
  intros H. unfold Auth.extractToken. rewrite H.
  destruct (Js.startsWith h "Bearer "); reflexivity.
Qed.

Lemma extractToken_missing (req : NextRequest) :
  headers_get req "authorization" = None -> Auth.extractToken req = None.
Proof. intros H. unfold Auth.extractToken. rewrite H. reflexivity. Qed.

Lemma extractToken_Some (req : NextRequest) (t : string) :
  Auth.extractToken req = Some t <->
  headers_get req "authorization" = Some ("Bearer " +:+ t).
Proof.
  destruct (headers_get req "authorization") as [h|] eqn:Hh.
  - rewrite (extractToken_header req h Hh).
    destruct (Js.startsWith h "Bearer ") eqn:Hp.
    + apply startsWith_app in Hp as [r ->].
      change 7%nat with (String.length "Bearer ").
      rewrite substring_app. split; intros E.
      * injection E as ->. reflexivity.
      * injection E as E. rewrite !append_nil in E. congruence.
    + split; [discriminate|]. intros E. injection E as ->.
      assert (Js.startsWith ("Bearer " +:+ t) "Bearer " = true) as Ht
        by (apply startsWith_app; eauto).
      congruence.
  - rewrite (extractToken_missing req Hh). split; discriminate.
Qed.

(** C8. [extractToken] returns a token exactly when the authorization
    header reads ["Bearer "] followed by that token, and the token is
    everything after these seven characters. It returns [null] exactly
    when the header has no such reading: when it is missing, and when it
    carries any other prefix, such as the lower-case ["bearer "] or
    ["Bearer"] without the space. It is a total function: it raises no
    error. *)
Theorem extractToken_exact_bearer_prefix (req : NextRequest) :
  (forall t, Auth.extractToken req = Some t <->
             headers_get req "authorization" = Some ("Bearer " +:+ t))
  /\ (Auth.extractToken req = None <->
      forall t, headers_get req "authorization" <> Some ("Bearer " +:+ t))
  /\ (headers_get req "authorization" = None -> Auth.extractToken req = None)
  /\ (forall r, headers_get req "authorization" = Some ("bearer " +:+ r) ->
                Auth.extractToken req = None)
  /\ (forall r, headers_get req "authorization" = Some ("BEARER " +:+ r) ->
                Auth.extractToken req = None)
  /\ (headers_get req "authorization" = Some "Bearer" ->
      Auth.extractToken req = None).
Proof.
  split; [apply extractToken_Some|].
  split.
  - split.
    + intros HN t Ht. apply extractToken_Some in Ht. congruence.
    + intros H. destruct (Auth.extractToken req) as [t|] eqn:E; [|reflexivity].
      apply extractToken_Some in E. destruct (H t E).
  - repeat split.
    + apply extractToken_missing.
    + intros r H. rewrite (extractToken_header req _ H). reflexivity.
    + intros r H. rewrite (extractToken_header req _ H). reflexivity.
    + intros H. rewrite (extractToken_header req _ H). reflexivity.
Qed.

Example extractToken_examples :
  Auth.extractToken (request_with [("Authorization", "Bearer abc.def.ghi")])
    = Some "abc.def.ghi"
  /\ Auth.extractToken (request_with [("authorization", "bearer abc.def.ghi")]) = None
  /\ Auth.extractToken (request_with [("authorization", "Token abc")]) = None
  /\ Auth.extractToken (request_with [("content-type", "application/json")]) = None.
Proof. repeat split. Qed.

Lemma headers_get_values (req : NextRequest) (name : string) :
  headers_get req name =
    match header_values req name with
    | [] => None
    | values => Some (Js.join ", " (map Headers.normalize values))
    end.
Proof.
  unfold headers_get, header_values.
  destruct (List.filter _ (headers req)) as [|kv found]; [reflexivity|].
  cbn [map]. now rewrite map_map.
Qed.

Lemma strip_start_padding (pad : string) :
  Js.forallb Headers.is_http_space pad = true -> Headers.strip_start pad = "".
Proof.
  induction pad as [|c pad IH]; [reflexivity|].
  cbn [Js.forallb Headers.strip_start]. intros H.
  apply andb_prop in H as [Hc Hpad]. rewrite Hc. now apply IH.
Qed.

Lemma strip_end_padding (pad : string) :
  Js.forallb Headers.is_http_space pad = true -> Headers.strip_end pad = "".
Proof.
  induction pad as [|c pad IH]; [reflexivity|].
  cbn [Js.forallb Headers.strip_end]. intros H.
  apply andb_prop in H as [Hc Hpad]. now rewrite (IH Hpad), Hc.
Qed.

Lemma normalize_bearer_padding (pad : string) :
  Js.forallb Headers.is_http_space pad = true ->
  Headers.normalize ("Bearer " +:+ pad) = "Bearer".
Proof.
  intros H. unfold Headers.normalize.
  repeat (rewrite append_cons || rewrite append_nil).
  cbn [Headers.strip_start Headers.is_http_space Js.code]. cbv iota.
  change (Headers.is_http_space "B") with false. cbv iota.
  assert (Headers.strip_end (String " " pad) = "") as Hend.
  { apply strip_end_padding. cbn [Js.forallb]. now rewrite H. }
  cbn [Headers.strip_end]. cbn [Headers.strip_end] in Hend.
  destruct (Headers.strip_end pad); [reflexivity | discriminate].
Qed.

(** C10, as the code has it. A request whose authorization header was
    sent as ["Bearer "], the prefix followed by nothing or by white space
    only, is read without the white space at its ends, as ["Bearer"].
    [extractToken] finds no prefix ["Bearer "] and returns [null], not the
    empty string, and [authenticateRequest] returns the missing-token
    failure whatever the token library would say: no token, empty or not,
    reaches the verification. *)
Theorem authenticateRequest_empty_bearer
        (decode : string -> option Jwt.Jws)
        (hmac : string -> string -> string -> string)
        (env : Env.env) (req : NextRequest) (now : Z) (pad : string) :
  header_values req "authorization" = ["Bearer " +:+ pad] ->
  Js.forallb Headers.is_http_space pad = true ->
  headers_get req "authorization" = Some "Bearer"
  /\ Auth.extractToken req = None
  /\ Auth.authenticateRequest decode hmac env req now =
       {| Auth.success := false; Auth.user := None;
          Auth.error := Some "No authentication token provided" |}.
Proof.
  intros Hsent Hpad.
  assert (headers_get req "authorization" = Some "Bearer") as H.
  { rewrite headers_get_values, Hsent. cbn [map Js.join].
    now rewrite normalize_bearer_padding. }
  assert (Auth.extractToken req = None) as E
    by (rewrite (extractToken_header req _ H); reflexivity).
  split; [exact H|]. split; [exact E|].
  unfold Auth.authenticateRequest. rewrite E. reflexivity.
Qed.

Lemma authenticateRequest_empty_bearer_witness :
  let req := request_with [("Authorization", "Bearer ")] in
  headers_get req "authorization" = Some "Bearer"
  /\ Auth.extractToken req = None
  /\ Auth.authenticateRequest
       ReferenceCodec.decode ReferenceCodec.hmac
       (Env.load {["JWT_SECRET" := "s3cret"]}) req 0 =
       {| Auth.success := false; Auth.user := None;
          Auth.error := Some "No authentication token provided" |}.
Proof.
  apply (authenticateRequest_empty_bearer
           ReferenceCodec.decode ReferenceCodec.hmac
           (Env.load {["JWT_SECRET" := "s3cret"]})
           (request_with [("Authorization", "Bearer ")]) 0 "").
  - reflexivity.
  - reflexivity.
Defined.

(** C10, as the claim words it, fails: for the request whose
    authorization header is sent as ["Bearer "], [extractToken] does not
    return the empty string. It returns [null]; the failure of
    [authenticateRequest] is the one the claim names. *)
Lemma extractToken_empty_bearer_is_null :
  let req := request_with [("Authorization", "Bearer ")] in
  header_values req "authorization" = ["Bearer "]
  /\ Auth.extractToken req <> Some ""
  /\ Auth.extractToken req = None
  /\ Auth.error (Auth.authenticateRequest
                   ReferenceCodec.decode ReferenceCodec.hmac
                   (Env.load {["JWT_SECRET" := "s3cret"]}) req 0)
     = Some "No authentication token provided".
Proof.
  cbv zeta. split; [reflexivity|]. split; [|split].
  - vm_compute. discriminate.
  - vm_compute. reflexivity.
  - vm_compute. reflexivity.
Qed.

(** ** The route gate ([middleware.ts]) *)

Lemma isProtectedRoute_prefix (pathname : string) :
  Middleware.isProtectedRoute pathname = true <->
  exists route rest,
    In route ["/create"; "/profile"; "/messages"; "/dashboard"]
    /\ pathname = route +:+ rest.
Proof.
  unfold Middleware.isProtectedRoute. rewrite existsb_exists. split.
  - intros [route [Hin Hp]]. apply startsWith_app in Hp as [rest ->].
    exists route, rest. split; [exact Hin | reflexivity].
  - intros [route [rest [Hin ->]]]. exists route. split; [exact Hin|].
    apply startsWith_app. exists rest. reflexivity.
Qed.

Lemma middleware_protected (request : NextRequest) :
  Middleware.isProtectedRoute (pathname request) = true ->
  Middleware.middleware request =
    match cookies request !! "authToken" with
    | None | Some "" => Redirect "/login"
    | Some _ => Next
    end.
Proof.
  intros H. unfold Middleware.middleware. rewrite H.
  destruct (cookies request !! "authToken") as [[|c v]|]; reflexivity.
Qed.

Lemma middleware_unprotected (request : NextRequest) :
  Middleware.isProtectedRoute (pathname request) = false ->
  Middleware.middleware request = Next.
Proof. intros H. unfold Middleware.middleware. rewrite H. reflexivity. Qed.

(** C2. On a path that starts with one of the protected prefixes
    [/create], [/profile], [/messages], [/dashboard], the gate redirects
    to [/login] exactly when the [authToken] cookie is absent or empty,
    and passes the request through for every non-empty value of the
    cookie: the value is never inspected. On any other path it passes the
    request through. *)
Theorem middleware_route_gate (request : NextRequest) :
  let authToken := cookies request !! "authToken" in
  let protected :=
    exists route rest,
      In route ["/create"; "/profile"; "/messages"; "/dashboard"]
      /\ pathname request = route +:+ rest in
  (protected ->
   (Middleware.middleware request = Redirect "/login" <->
    authToken = None \/ authToken = Some "")
   /\ (forall v, authToken = Some v -> v <> "" ->
                 Middleware.middleware request = Next))
  /\ (~ protected -> Middleware.middleware request = Next).
Proof.
  cbv zeta. split.
  - intros Hp. apply isProtectedRoute_prefix in Hp.
    rewrite (middleware_protected request Hp).
    destruct (cookies request !! "authToken") as [[|c v]|].
    + split.
      * split; [intros _; right; reflexivity | reflexivity].
      * intros v E Hv. injection E as <-. contradiction.
    + split.
      * split; [discriminate | intros [H|H]; discriminate].
      * intros; reflexivity.
    + split.
      * split; [intros _; left; reflexivity | reflexivity].
      * intros v H. discriminate.
  - intros Hn. apply middleware_unprotected.
    destruct (Middleware.isProtectedRoute (pathname request)) eqn:E; [|reflexivity].
    apply isProtectedRoute_prefix in E. contradiction.
Qed.

Example middleware_examples :
  Middleware.middleware (navigation "/create" ∅) = Redirect "/login"
  /\ Middleware.middleware (navigation "/create" {["authToken" := ""]}) = Redirect "/login"
  /\ Middleware.middleware (navigation "/create" {["authToken" := "garbage"]}) = Next
  /\ Middleware.middleware (navigation "/dashboard/settings" {["theme" := "dark"]})
     = Redirect "/login"
  /\ Middleware.middleware (navigation "/posts" ∅) = Next.
Proof. repeat split. Qed.

(** ** The response envelope ([apiResponse.ts]) *)

Lemma is_development_iff (process_env : gmap string string) :
  ApiResponse.is_development process_env = true <->
  process_env !! "NODE_ENV" = Some "development".
Proof.
  unfold ApiResponse.is_development.
  destruct (process_env !! "NODE_ENV") as [v|].
  - rewrite String.eqb_eq. split; congruence.
  - split; discriminate.
Qed.

(** C7, as the code has it. The validation error response has status 400
    and code [VALIDATION_ERROR] for every field-error mapping, and its
    envelope carries the detail object [{validationErrors: {...}}] exactly
    when [NODE_ENV] is ['development']; in every other mode, production
    or not, the envelope has no [details] member. *)
Theorem validationErrorResponse_details_in_development
        (process_env : gmap string string) (timestamp : string)
        (errors : list (string * string)) :
  (exists details,
      ApiResponse.validationErrorResponse process_env timestamp errors =
        Json (ApiError "Invalid input data" "VALIDATION_ERROR" 400 details timestamp) 400
      /\ (details = Some (validationErrors errors) <->
          process_env !! "NODE_ENV" = Some "development")
      /\ (details = None <->
          process_env !! "NODE_ENV" <> Some "development")).
Proof.
  unfold ApiResponse.validationErrorResponse, ApiResponse.errorResponse.
  pose proof (is_development_iff process_env) as Hd.
  destruct (ApiResponse.is_development process_env).
  - eexists. split; [reflexivity|]. split.
    + split; [intros _; apply Hd; reflexivity | reflexivity].
    + split; [discriminate|]. intros Hn. destruct Hn. apply Hd. reflexivity.
  - eexists. split; [reflexivity|]. split.
    + split; [discriminate|]. intros H. apply Hd in H. discriminate.
    + split; [|reflexivity]. intros _ H. apply Hd in H. discriminate.
Qed.

(** C7, as the claim words it, fails: with [NODE_ENV] set to ['test'] the
    process is not in production mode, and the envelope of a non-empty
    mapping carries no [details]. *)
Lemma validationErrorResponse_no_details_in_test_mode :
  let process_env : gmap string string := {["NODE_ENV" := "test"]} in
  let errors := [("email", "Invalid email format")] in
  process_env !! "NODE_ENV" <> Some "production"
  /\ errors <> []
  /\ ApiResponse.validationErrorResponse process_env "2026-01-01T00:00:00.000Z" errors =
       Json (ApiError "Invalid input data" "VALIDATION_ERROR" 400 None
                      "2026-01-01T00:00:00.000Z") 400.
Proof.
  cbv zeta. split; [|split].
  - vm_compute. discriminate.
  - discriminate.
  - vm_compute. reflexivity.
Qed.

(** ** The token life cycle ([auth.ts] over [jsonwebtoken]) *)

Lemma truthy_iff (s : string) : Js.truthy s = true <-> s <> "".
Proof. destruct s; simpl; split; congruence. Qed.

Lemma truthy_dotted (a b : string) : Js.truthy (a +:+ "." +:+ b) = true.
Proof. destruct a; reflexivity. Qed.

Section TokenLifeCycle.
Variable encode : string -> Jwt.JwtPayload -> string.
Variable decode : string -> option Jwt.Jws.
Variable hmac : string -> string -> string -> string.
Variable ms : string -> option Z.
Variable env : Env.env.

(** The signing secret is set. *)
Hypothesis secret_set : Env.JWT_SECRET env <> "".
(** Seven days, in milliseconds. *)
Hypothesis ms_7d : ms "7d" = Some 604800000.
(** A token made of an encoded header and payload, a dot and a
    signature segment parses back into them. *)
Hypothesis decode_encode :
  forall a p s,
    decode (encode a p +:+ "." +:+ s) =
      Some {| Jwt.alg := a; Jwt.payload := p;
              Jwt.signing_input := encode a p; Jwt.signature := s |}.
(** A digest is never blank. *)
Hypothesis hmac_not_blank : forall a k i, Js.trim (hmac a k i) <> "".

Let issued (userId email : string) (now : Z) : Jwt.JwtPayload :=
  {| Jwt.id := userId; Jwt.email := email;
     Jwt.iat := Some (now / 1000);
     Jwt.exp := Some (now / 1000 + 604800) |}.

Let signed (userId email : string) (now : Z) : string :=
  let input := encode "HS256" (issued userId email now) in
  input +:+ "." +:+ hmac "HS256" (Env.JWT_SECRET env) input.

Lemma getJwtSecret_set : Env.getJwtSecret env = Ok (Env.JWT_SECRET env).
Proof.
  unfold Env.getJwtSecret.
  destruct (Env.JWT_SECRET env); [contradiction | reflexivity].
Qed.

Lemma generateToken_signed (userId email : string) (now : Z) :
  Auth.generateToken encode hmac ms env userId email "7d" now =
    Ok (signed userId email now).
Proof.
  unfold Auth.generateToken. rewrite getJwtSecret_set. simpl.
  unfold Jwt.sign.
  destruct (Js.truthy (Env.JWT_SECRET env)) eqn:Hs.
  - simpl. rewrite ms_7d. reflexivity.
  - apply (f_equal negb) in Hs. simpl in Hs.
    destruct (Env.JWT_SECRET env); [contradiction | discriminate].
Qed.

Lemma verify_signed (userId email : string) (now later : Z) :
  Jwt.verify decode hmac (signed userId email now) (Env.JWT_SECRET env) later =
    if now / 1000 + 604800 <=? later / 1000
    then Throw (JwtException TokenExpiredError)
    else Ok (issued userId email now).
Proof.
  unfold Jwt.verify, signed. cbv zeta.
  rewrite truthy_dotted. simpl negb. cbv iota.
  rewrite decode_encode. cbn [Jwt.signature Jwt.alg Jwt.signing_input Jwt.payload].
  destruct (Js.truthy (Js.trim _)) eqn:Hb.
  - simpl. rewrite String.eqb_refl. reflexivity.
  - exfalso. apply (hmac_not_blank "HS256" (Env.JWT_SECRET env)
                      (encode "HS256" (issued userId email now))).
    destruct (Js.trim _); [reflexivity | discriminate].
Qed.

Lemma verifyToken_signed (userId email : string) (now later : Z) :
  Auth.verifyToken decode hmac env (signed userId email now) later =
    if now / 1000 + 604800 <=? later / 1000
    then {| Auth.success := false; Auth.user := None;
            Auth.error := Some "Token has expired" |}
    else {| Auth.success := true; Auth.user := Some (issued userId email now);
            Auth.error := None |}.
Proof.
  unfold Auth.verifyToken. rewrite getJwtSecret_set. simpl bind.
  rewrite verify_signed.
  destruct (now / 1000 + 604800 <=? later / 1000); reflexivity.
Qed.

(** C4. With the signing secret set, [generateToken] returns a token,
    and [verifyToken] on that token succeeds with a payload that carries
    the subject id and the email when it runs at once, and at any time
    before the seven days (604800 seconds) of the expiry window have
    passed. From the end of the window on, it fails with the reason
    [Token has expired], which is neither the reason of a malformed
    token nor that of a bad signature. *)
Theorem verifyToken_generateToken (userId email : string) (now : Z) :
  exists token payload,
    Auth.generateToken encode hmac ms env userId email "7d" now = Ok token
    /\ Jwt.id payload = userId
    /\ Jwt.email payload = email
    /\ Auth.verifyToken decode hmac env token now =
         {| Auth.success := true; Auth.user := Some payload; Auth.error := None |}
    /\ (forall later,
           later / 1000 < now / 1000 + 604800 ->
           Auth.verifyToken decode hmac env token later =
             {| Auth.success := true; Auth.user := Some payload; Auth.error := None |})
    /\ (forall later,
           now / 1000 + 604800 <= later / 1000 ->
           Auth.verifyToken decode hmac env token later =
             {| Auth.success := false; Auth.user := None;
                Auth.error := Some "Token has expired" |}
           /\ Auth.error (Auth.verifyToken decode hmac env token later)
              <> Some "Invalid token").
Proof.
  exists (signed userId email now), (issued userId email now).
  split; [apply generateToken_signed|].
  split; [reflexivity|]. split; [reflexivity|].
  assert (forall later, later / 1000 < now / 1000 + 604800 ->
            Auth.verifyToken decode hmac env (signed userId email now) later =
              {| Auth.success := true; Auth.user := Some (issued userId email now);
                 Auth.error := None |}) as Hfresh.
  { intros later Hl. rewrite verifyToken_signed.
    destruct (Z.leb_spec (now / 1000 + 604800) (later / 1000)); [lia | reflexivity]. }
  split; [apply Hfresh; lia|]. split; [exact Hfresh|].
  intros later Hl. rewrite verifyToken_signed.
  destruct (Z.leb_spec (now / 1000 + 604800) (later / 1000)); [|lia].
  split; [reflexivity | discriminate].
Qed.
End TokenLifeCycle.

(** *** The reference codec meets the laws *)

Lemma append_assoc (a b c : string) : (a +:+ b) +:+ c = a +:+ (b +:+ c).
Proof.
  induction a as [|x a IH]; [reflexivity|].
  rewrite !append_cons, IH. reflexivity.
Qed.

Lemma read_unary_unary (n k : nat) (r : string) :
  ReferenceCodec.read_unary (ReferenceCodec.unary n +:+ r) k = Some ((k + n)%nat, r).
Proof.
  revert k. induction n as [|n IH]; intros k.
  - simpl ReferenceCodec.unary. rewrite append_cons, append_nil. simpl.
    f_equal. f_equal. lia.
  - simpl ReferenceCodec.unary. rewrite append_cons. simpl.
    rewrite IH. f_equal. f_equal. lia.
Qed.

Lemma take_append (a r : string) :
  ReferenceCodec.take (String.length a) (a +:+ r) = Some (a, r).
Proof.
  induction a as [|x a IH]; [reflexivity|].
  rewrite append_cons. simpl. rewrite IH. reflexivity.
Qed.

Lemma read_text_text (x r : string) :
  ReferenceCodec.read_text (ReferenceCodec.text x +:+ r) = Some (x, r).
Proof.
  unfold ReferenceCodec.read_text, ReferenceCodec.text.
  rewrite append_assoc, read_unary_unary. simpl. apply take_append.
Qed.

Lemma read_number_number (o : option Z) (r : string) :
  ReferenceCodec.read_number (ReferenceCodec.number o +:+ r) = Some (o, r).
Proof.
  destruct o as [z|]; [|reflexivity].
  unfold ReferenceCodec.number. rewrite append_cons.
  unfold ReferenceCodec.read_number. rewrite read_text_text.
  unfold ReferenceCodec.decimal. rewrite DecimalString.NilEmpty.isi.
  rewrite DecimalZ.of_to. reflexivity.
Qed.

Lemma reference_decode_encode (a : string) (p : Jwt.JwtPayload) (s : string) :
  ReferenceCodec.decode (ReferenceCodec.encode a p +:+ "." +:+ s) =
    Some {| Jwt.alg := a; Jwt.payload := p;
            Jwt.signing_input := ReferenceCodec.encode a p; Jwt.signature := s |}.
Proof.
  destruct p as [i e t0 t1].
  unfold ReferenceCodec.decode, ReferenceCodec.encode at 1.
  cbn [Jwt.id Jwt.email Jwt.iat Jwt.exp].
  rewrite !append_assoc.
  rewrite !read_text_text, !read_number_number.
  reflexivity.
Qed.

Lemma reference_hmac_not_blank (a k i : string) :
  Js.trim (ReferenceCodec.hmac a k i) <> "".
Proof.
  unfold ReferenceCodec.hmac, Js.trim. simpl.
  destruct (Js.trimEnd _); discriminate.
Qed.

Lemma verifyToken_generateToken_witness :
  let env := Env.load {["JWT_SECRET" := "s3cret"]} in
  exists token payload,
    Auth.generateToken ReferenceCodec.encode ReferenceCodec.hmac ReferenceCodec.ms
                       env "user-1" "jo@test.com" "7d" 1000 = Ok token
    /\ Jwt.id payload = "user-1"
    /\ Jwt.email payload = "jo@test.com"
    /\ Auth.verifyToken ReferenceCodec.decode ReferenceCodec.hmac env token 1000 =
         {| Auth.success := true; Auth.user := Some payload; Auth.error := None |}
    /\ (forall later,
           later / 1000 < 1000 / 1000 + 604800 ->
           Auth.verifyToken ReferenceCodec.decode ReferenceCodec.hmac env token later =
             {| Auth.success := true; Auth.user := Some payload; Auth.error := None |})
    /\ (forall later,
           1000 / 1000 + 604800 <= later / 1000 ->
           Auth.verifyToken ReferenceCodec.decode ReferenceCodec.hmac env token later =
             {| Auth.success := false; Auth.user := None;
                Auth.error := Some "Token has expired" |}
           /\ Auth.error (Auth.verifyToken ReferenceCodec.decode ReferenceCodec.hmac
                                           env token later)
              <> Some "Invalid token").
Proof.
  apply (verifyToken_generateToken
           ReferenceCodec.encode ReferenceCodec.decode ReferenceCodec.hmac
           ReferenceCodec.ms (Env.load {["JWT_SECRET" := "s3cret"]})).
  - vm_compute. discriminate.
  - reflexivity.
  - exact reference_decode_encode.
  - exact reference_hmac_not_blank.
Defined.

(** ** The client-held session ([useAuth.ts]) *)

Section StoredSummary.
Variable JSON_parse : string -> result json.

Lemma loadAuthState_never_throws (localStorage : gmap string string)
      (st : UseAuth.AuthState) :
  exists st' store',
    UseAuth.loadAuthState JSON_parse localStorage st = Ok (st', store').
Proof.
  unfold UseAuth.loadAuthState.
  destruct (localStorage !! "user") as [u|]; [|eauto].
  destruct (Js.truthy u); [|eauto].
  match goal with |- context [try_catch ?b ?h] => destruct (try_catch b h) end.
  eauto.
Qed.

(** C9, as the code has it. When the stored user summary is not empty
    and fails to deserialize, loading the session state returns without
    an exception, leaves the summary absent from the state, so that
    [isAuthenticated] is false, and removes the entry [user] from the
    store; the entry [authToken] stays as it was, and the stored token
    is still loaded into the state. An empty stored summary is read as
    no summary: the state has none, and the store is left as it is. *)
Theorem loadAuthState_malformed_summary
        (localStorage : gmap string string) (u : string) (e : exn) :
  localStorage !! "user" = Some u ->
  JSON_parse u = Throw e ->
  exists st,
    UseAuth.loadAuthState JSON_parse localStorage UseAuth.initial =
      Ok (st, if Js.truthy u then delete "user" localStorage else localStorage)
    /\ UseAuth.user st = None
    /\ UseAuth.isAuthenticated st = false
    /\ UseAuth.token st =
         (if Js.truthy_opt (localStorage !! "authToken")
          then localStorage !! "authToken" else None)
    /\ (u <> "" ->
        delete "user" localStorage !! "user" = None
        /\ delete "user" localStorage !! "authToken" = localStorage !! "authToken").
Proof.
  intros Hu Hp. unfold UseAuth.loadAuthState. rewrite Hu.
  destruct (Js.truthy u) eqn:Ht.
  - rewrite Hp. simpl try_catch.
    eexists. split; [reflexivity|].
    destruct (Js.truthy_opt (localStorage !! "authToken")); simpl.
    + split; [reflexivity|]. split; [apply andb_false_r|]. split; [reflexivity|].
      intros _. split; [apply lookup_delete_eq | apply lookup_delete_ne; discriminate].
    + split; [reflexivity|]. split; [reflexivity|]. split; [reflexivity|].
      intros _. split; [apply lookup_delete_eq | apply lookup_delete_ne; discriminate].
  - eexists. split; [reflexivity|].
    destruct (Js.truthy_opt (localStorage !! "authToken")); simpl.
    + split; [reflexivity|]. split; [apply andb_false_r|]. split; [reflexivity|].
      intros Hn. apply truthy_iff in Hn. congruence.
    + split; [reflexivity|]. split; [reflexivity|]. split; [reflexivity|].
      intros Hn. apply truthy_iff in Hn. congruence.
Qed.
End StoredSummary.

Lemma loadAuthState_malformed_summary_witness :
  let localStorage : gmap string string :=
    {["authToken" := "tok"; "user" := "{oops"]} in
  exists st,
    UseAuth.loadAuthState rejecting_parser localStorage UseAuth.initial =
      Ok (st, if Js.truthy "{oops" then delete "user" localStorage else localStorage)
    /\ UseAuth.user st = None
    /\ UseAuth.isAuthenticated st = false
    /\ UseAuth.token st =
         (if Js.truthy_opt (localStorage !! "authToken")
          then localStorage !! "authToken" else None)
    /\ ("{oops" <> "" ->
        delete "user" localStorage !! "user" = None
        /\ delete "user" localStorage !! "authToken" = localStorage !! "authToken").
Proof.
  apply (loadAuthState_malformed_summary
           rejecting_parser {["authToken" := "tok"; "user" := "{oops"]} "{oops"
           (SyntaxError "Unexpected end of JSON input")).
  - vm_compute. reflexivity.
  - reflexivity.
Defined.

(** C9, as the claim words it, fails on two stores whose summary does not
    deserialize. With an empty summary the store is not touched: the
    entry [user] is still there after loading. With a malformed summary
    beside a token the store is not reset either: the entry [authToken]
    is still there, and the token is in the state. In both cases no
    exception escapes and [isAuthenticated] is false. *)
Lemma loadAuthState_does_not_reset_store :
  (exists st store',
      UseAuth.loadAuthState rejecting_parser {["user" := ""]} UseAuth.initial =
        Ok (st, store')
      /\ store' !! "user" = Some ""
      /\ UseAuth.isAuthenticated st = false)
  /\ (exists st store',
         UseAuth.loadAuthState rejecting_parser
                               {["authToken" := "tok"; "user" := "{oops"]}
                               UseAuth.initial =
           Ok (st, store')
         /\ store' !! "authToken" = Some "tok"
         /\ store' <> ∅
         /\ UseAuth.token st = Some "tok"
         /\ UseAuth.isAuthenticated st = false).
Proof.
  split.
  - eexists. eexists. split; [reflexivity|]. split; [vm_compute; reflexivity|].
    reflexivity.
  - eexists. eexists. split; [reflexivity|].
    split; [vm_compute; reflexivity|].
    split.
    + intros H. apply (f_equal (fun m : gmap string string => m !! "authToken")) in H.
      vm_compute in H. discriminate.
    + split; reflexivity.
Qed.

(** ** Validation ([validators.ts]) *)

Lemma errors_get_assign (errors : list (string * string)) (k v k' : string) :
  errors_get (Validators.assign errors k v) k' =
    if String.eqb k k' then Some v else errors_get errors k'.
Proof.
  induction errors as [|[k0 v0] errors IH]; simpl.
  - reflexivity.
  - destruct (String.eqb k0 k) eqn:E0; simpl.
    + apply String.eqb_eq in E0 as ->.
      destruct (String.eqb k k'); reflexivity.
    + rewrite IH. destruct (String.eqb k0 k') eqn:E1; [|reflexivity].
      apply String.eqb_eq in E1 as ->. rewrite String.eqb_sym, E0. reflexivity.
Qed.

(** Issues of another member leave the entry of a key as it is. *)
Lemma collect_other_member (k key : string) (messages : list string)
      (acc : list (string * string)) :
  k <> key ->
  errors_get
    (fold_left (fun errors i =>
                  Validators.assign errors (Js.join "." (Zod.path i)) (Zod.message i))
               (map (fun m => {| Zod.path := [k]; Zod.message := m |}) messages) acc)
    key = errors_get acc key.
Proof.
  intros Hne. revert acc.
  induction messages as [|m messages IH]; intros acc; simpl; [reflexivity|].
  rewrite IH, errors_get_assign.
  destruct (String.eqb k key) eqn:E; [|reflexivity].
  apply String.eqb_eq in E. contradiction.
Qed.

(** Of the issues of one member, the last one is kept. *)
Lemma collect_same_member (key : string) (messages : list string)
      (acc : list (string * string)) :
  errors_get
    (fold_left (fun errors i =>
                  Validators.assign errors (Js.join "." (Zod.path i)) (Zod.message i))
               (map (fun m => {| Zod.path := [key]; Zod.message := m |}) messages) acc)
    key = match last messages with
          | Some m => Some m
          | None => errors_get acc key
          end.
Proof.
  revert acc.
  induction messages as [|m messages IH]; intros acc; simpl; [reflexivity|].
  rewrite IH, errors_get_assign, String.eqb_refl.
  destruct messages as [|m' messages']; [reflexivity|].
  change (last (m :: m' :: messages')) with (last (m' :: messages')).
  destruct (last (m' :: messages')) eqn:E; [reflexivity|].
  apply last_None in E. discriminate.
Qed.

Lemma runChecks_passwordSchema (p : string) :
  Zod.runChecks Validators.passwordSchema p [] = (p, failing_rules p).
Proof.
  unfold Validators.passwordSchema, failing_rules, password_rules.
  cbn [Zod.runChecks List.filter map fst snd].
  rewrite Nat.ltb_antisym.
  destruct (8 <=? String.length p)%nat, (Js.existsb Js.is_upper p),
    (Js.existsb Js.is_lower p), (Js.existsb Js.is_digit p),
    (Js.existsb (fun c => Js.mem c Validators.special_characters) p) eqn:E;
    change Validators.special_characters with "@$!%*?&" in E; rewrite E;
    reflexivity.
Qed.

(** The result of [parseShape], member by member. *)
Lemma parseShape_members (type_issues : string -> option json -> list string)
      (shape : Zod.ZodObject) (input : list (string * json)) :
  let parsed ks :=
    Zod.parseString type_issues (snd ks) (Zod.member input (fst ks)) in
  Zod.parseShape type_issues shape input =
    (forallb (fun ks => match fst (parsed ks) with Some _ => true | None => false end)
             shape,
     flat_map (fun ks => match fst (parsed ks) with
                         | Some v => [(fst ks, v)]
                         | None => []
                         end) shape,
     flat_map (fun ks => map (fun m => {| Zod.path := [fst ks]; Zod.message := m |})
                             (snd (parsed ks))) shape).
Proof.
  cbv zeta. induction shape as [|[key schema] rest IH]; [reflexivity|].
  cbn [Zod.parseShape forallb flat_map fst snd]. rewrite IH.
  destruct (Zod.parseString type_issues schema (Zod.member input key)) as [[v|] ms];
    reflexivity.
Qed.

Lemma safeParse_issues (type_issues : string -> option json -> list string)
      (shape : Zod.ZodObject) (members : list (string * json)) :
  snd (Zod.parseShape type_issues shape members) <> [] ->
  Zod.safeParse type_issues shape (JObj members) =
    inr (snd (Zod.parseShape type_issues shape members)).
Proof.
  unfold Zod.safeParse.
  destruct (Zod.parseShape type_issues shape members) as [[ok values] issues].
  simpl. intros H. destruct ok, issues; congruence.
Qed.

(** The keys of an [errors] object are pairwise distinct: an assignment
    to a key that is there replaces its value in place. *)
Lemma assign_keys (errors : list (string * string)) (k v : string) :
  map fst (Validators.assign errors k v) =
    if List.existsb (String.eqb k) (map fst errors) then map fst errors
    else (map fst errors ++ [k])%list.
Proof.
  induction errors as [|[k0 v0] errors IH]; [reflexivity|].
  cbn [Validators.assign map fst List.existsb].
  rewrite (String.eqb_sym k k0).
  destruct (String.eqb k0 k); [reflexivity|].
  cbn [map fst orb]. rewrite IH.
  destruct (List.existsb (String.eqb k) (map fst errors)); reflexivity.
Qed.

Lemma assign_keys_unique (errors : list (string * string)) (k v : string) :
  List.NoDup (map fst errors) -> List.NoDup (map fst (Validators.assign errors k v)).
Proof.
  intros H. rewrite assign_keys.
  destruct (List.existsb (String.eqb k) (map fst errors)) eqn:E; [exact H|].
  apply (Permutation_NoDup (Permutation_cons_append (map fst errors) k)).
  apply List.NoDup_cons; [|exact H].
  intros Hin.
  assert (List.existsb (String.eqb k) (map fst errors) = true) as E'.
  { apply existsb_exists. exists k. split; [exact Hin | apply String.eqb_refl]. }
  congruence.
Qed.

Lemma collect_keys_unique (issues : list Zod.issue) :
  List.NoDup (map fst (Validators.collect issues)).
Proof.
  unfold Validators.collect.
  assert (forall acc, List.NoDup (map fst acc) ->
            List.NoDup (map fst (fold_left
              (fun errors i =>
                 Validators.assign errors (Js.join "." (Zod.path i)) (Zod.message i))
              issues acc))) as H.
  { induction issues as [|i issues IH]; intros acc Hacc; [exact Hacc|].
    cbn [fold_left]. apply IH. now apply assign_keys_unique. }
  apply H. constructor.
Qed.

(** Under distinct keys, the entries of a key are the one that
    [errors_get] finds. *)
Lemma entries_of_key (errors : list (string * string)) (key v : string) :
  List.NoDup (map fst errors) ->
  errors_get errors key = Some v ->
  List.filter (fun kv => String.eqb (fst kv) key) errors = [(key, v)].
Proof.
  induction errors as [|[k0 v0] errors IH]; [discriminate|].
  cbn [map fst errors_get List.filter]. intros Hnd Hget.
  inversion Hnd as [|? ? Hnotin Hrest]; subst.
  destruct (String.eqb k0 key) eqn:E.
  - apply String.eqb_eq in E as ->. injection Hget as ->. f_equal.
    clear IH Hnd Hrest. induction errors as [|[k1 v1] errors IH]; [reflexivity|].
    cbn [List.filter fst]. cbn [map fst] in Hnotin.
    destruct (String.eqb k1 key) eqn:E1.
    + apply String.eqb_eq in E1 as ->. exfalso. apply Hnotin. now left.
    + apply IH. intros Hin. apply Hnotin. now right.
  - now apply IH.
Qed.

(** C6, as the code has it. When the password of a signup payload fails
    at least one rule of the policy, validation fails and the [errors]
    object holds exactly one entry for the field [password]: the message
    of the last failing rule, in the order length, uppercase, lowercase,
    digit, special character. The messages of the other failing rules
    were assigned to the same key before it and are gone. *)
Theorem validateInput_password_last_failing_rule
        (type_issues : string -> option json -> list string)
        (members : list (string * json)) (p : string) :
  Zod.member members "password" = Some (JStr p) ->
  failing_rules p <> [] ->
  exists errors kept,
    Validators.validateInput type_issues Validators.signupSchema (JObj members)
      = Validators.Failure errors
    /\ last (failing_rules p) = Some kept
    /\ errors_get errors "password" = Some kept
    /\ List.filter (fun kv => String.eqb (fst kv) "password") errors
       = [("password", kept)].
Proof.
  intros Hp Hf.
  assert (snd (Zod.parseShape type_issues Validators.signupSchema members) =
            (map (fun m => {| Zod.path := ["name"]; Zod.message := m |})
                 (snd (Zod.parseString type_issues Validators.nameSchema
                                       (Zod.member members "name"))) ++
             map (fun m => {| Zod.path := ["email"]; Zod.message := m |})
                 (snd (Zod.parseString type_issues Validators.emailSchema
                                       (Zod.member members "email"))) ++
             map (fun m => {| Zod.path := ["password"]; Zod.message := m |})
                 (failing_rules p) ++ [])%list) as Hi.
  { rewrite parseShape_members. unfold Validators.signupSchema.
    cbn [flat_map fst snd]. rewrite Hp.
    cbn [Zod.parseString]. rewrite runChecks_passwordSchema. reflexivity. }
  destruct (last (failing_rules p)) as [kept|] eqn:E;
    [|apply last_None in E; contradiction].
  unfold Validators.validateInput. rewrite safeParse_issues.
  - assert (errors_get
              (Validators.collect
                 (snd (Zod.parseShape type_issues Validators.signupSchema members)))
              "password" = Some kept) as Hget.
    { rewrite Hi. unfold Validators.collect.
      rewrite !fold_left_app. simpl fold_left at 1.
      rewrite collect_same_member, E. reflexivity. }
    eexists. exists kept. split; [reflexivity|]. split; [reflexivity|].
    split; [exact Hget|].
    apply entries_of_key; [apply collect_keys_unique | exact Hget].
  - rewrite Hi. intros H.
    apply app_eq_nil in H as [_ H]. apply app_eq_nil in H as [_ H].
    apply app_eq_nil in H as [H _]. apply map_eq_nil in H. contradiction.
Qed.

Lemma validateInput_password_last_failing_rule_witness :
  exists errors kept,
    Validators.validateInput en_invalid_type Validators.signupSchema
                             (signup_body "Jo Doe" "jo@test.com" "abc")
      = Validators.Failure errors
    /\ last (failing_rules "abc") = Some kept
    /\ errors_get errors "password" = Some kept
    /\ List.filter (fun kv => String.eqb (fst kv) "password") errors
       = [("password", kept)].
Proof.
  apply (validateInput_password_last_failing_rule
           en_invalid_type
           [("name", JStr "Jo Doe"); ("email", JStr "jo@test.com");
            ("password", JStr "abc")] "abc").
  - reflexivity.
  - vm_compute. discriminate.
Defined.

(** C6, as the claim words it, fails: the password [abc] is too short and
    has no uppercase letter, no digit and no special character, and the
    failure reports the last of these four rules only. *)
Lemma validateInput_drops_earlier_password_rules :
  failing_rules "abc" =
    ["Password must be at least 8 characters long";
     "Password must contain at least one uppercase letter";
     "Password must contain at least one number";
     "Password must contain at least one special character (@$!%*?&)"]
  /\ Validators.validateInput en_invalid_type Validators.signupSchema
                              (signup_body "Jo Doe" "jo@test.com" "abc")
     = Validators.Failure
         [("password",
           "Password must contain at least one special character (@$!%*?&)")]
  /\ ~ (forall message,
           In message (failing_rules "abc") ->
           exists errors,
             Validators.validateInput en_invalid_type Validators.signupSchema
                                      (signup_body "Jo Doe" "jo@test.com" "abc")
               = Validators.Failure errors
             /\ In ("password", message) errors).
Proof.
  split; [reflexivity|]. split; [reflexivity|].
  intros H.
  destruct (H "Password must be at least 8 characters long") as [errors [He Hin]].
  - left. reflexivity.
  - vm_compute in He. injection He as <-.
    destruct Hin as [Hin|[]]. discriminate.
Qed.

(** C5 at the failing input. The email ["Jo@Test.com "], with its trailing
    space, is not accepted: the schema tests the address pattern on the
    text as it was sent, before [toLowerCase] and [trim] run, so the
    payload is refused with [Invalid email format] on the field [email].
    The same payload without the space is accepted and yields
    ["jo@test.com"]. *)
Theorem validateInput_rejects_padded_email
        (type_issues : string -> option json -> list string) :
  Validators.validateInput type_issues Validators.signupSchema
                           (signup_body "Jo Doe" "Jo@Test.com " "Passw0rd!")
    = Validators.Failure [("email", "Invalid email format")]
  /\ Validators.validateInput type_issues Validators.signupSchema
                              (signup_body "Jo Doe" "Jo@Test.com" "Passw0rd!")
     = Validators.Success
         [("name", "Jo Doe"); ("email", "jo@test.com"); ("password", "Passw0rd!")]
  /\ Zod.runChecks Validators.emailSchema "Jo@Test.com " []
     = ("jo@test.com", ["Invalid email format"]).
Proof. repeat split. Qed.

(** *** Normalisation of an accepted email *)

Lemma lower_char_idempotent (c : ascii) :
  Js.lower_char (Js.lower_char c) = Js.lower_char c.
Proof. destruct c as [[] [] [] [] [] [] [] []]; reflexivity. Qed.

Lemma is_space_lower_char (c : ascii) :
  Js.is_space (Js.lower_char c) = Js.is_space c.
Proof. destruct c as [[] [] [] [] [] [] [] []]; reflexivity. Qed.

Lemma toLowerCase_idempotent (s : string) :
  Js.toLowerCase (Js.toLowerCase s) = Js.toLowerCase s.
Proof.
  induction s as [|c s IH]; simpl; [reflexivity|].
  rewrite lower_char_idempotent, IH. reflexivity.
Qed.

Lemma toLowerCase_trimStart (s : string) :
  Js.toLowerCase (Js.trimStart s) = Js.trimStart (Js.toLowerCase s).
Proof.
  induction s as [|c s IH]; simpl; [reflexivity|].
  rewrite is_space_lower_char. destruct (Js.is_space c); [exact IH | reflexivity].
Qed.

Lemma toLowerCase_trimEnd (s : string) :
  Js.toLowerCase (Js.trimEnd s) = Js.trimEnd (Js.toLowerCase s).
Proof.
  induction s as [|c s IH]; simpl; [reflexivity|].
  rewrite <- IH, is_space_lower_char.
  destruct (Js.trimEnd s) as [|x r]; simpl; [|reflexivity].
  destruct (Js.is_space c); reflexivity.
Qed.

Lemma toLowerCase_trim (s : string) :
  Js.toLowerCase (Js.trim s) = Js.trim (Js.toLowerCase s).
Proof.
  unfold Js.trim. rewrite toLowerCase_trimEnd, toLowerCase_trimStart. reflexivity.
Qed.

Lemma trimStart_starts_clean (s : string) : starts_clean (Js.trimStart s).
Proof.
  induction s as [|c s IH]; simpl; [exact I|].
  destruct (Js.is_space c) eqn:E; [exact IH | exact E].
Qed.

Lemma trimStart_clean (s : string) : starts_clean s -> Js.trimStart s = s.
Proof. destruct s as [|c s]; simpl; [reflexivity|]. intros ->. reflexivity. Qed.

Lemma trimEnd_starts_clean (s : string) :
  starts_clean s -> starts_clean (Js.trimEnd s).
Proof.
  destruct s as [|c s]; simpl; [trivial|]. intros Hc.
  destruct (Js.trimEnd s); [rewrite Hc|]; exact Hc.
Qed.

Lemma trimEnd_idempotent (s : string) : Js.trimEnd (Js.trimEnd s) = Js.trimEnd s.
Proof.
  induction s as [|c s IH]; simpl; [reflexivity|].
  destruct (Js.trimEnd s) as [|x r] eqn:E.
  - destruct (Js.is_space c) eqn:Ec; simpl; [reflexivity|]. rewrite Ec. reflexivity.
  - change (Js.trimEnd (String c (String x r)))
      with (match Js.trimEnd (String x r) with
            | EmptyString => if Js.is_space c then EmptyString else String c EmptyString
            | r' => String c r'
            end).
    rewrite IH. reflexivity.
Qed.

Lemma trim_idempotent (s : string) : Js.trim (Js.trim s) = Js.trim s.
Proof.
  unfold Js.trim.
  rewrite (trimStart_clean (Js.trimEnd (Js.trimStart s))).
  - apply trimEnd_idempotent.
  - apply trimEnd_starts_clean, trimStart_starts_clean.
Qed.

Lemma runChecks_emailSchema (e : string) :
  Zod.runChecks Validators.emailSchema e [] =
    (Js.trim (Js.toLowerCase e),
     if Zod.email_regex e then [] else ["Invalid email format"]).
Proof. reflexivity. Qed.

Lemma validateInput_Success_inv (type_issues : string -> option json -> list string)
      (shape : Zod.ZodObject) (payload : json) (data : list (string * string)) :
  Validators.validateInput type_issues shape payload = Validators.Success data ->
  exists members,
    payload = JObj members
    /\ Zod.parseShape type_issues shape members = (true, data, []).
Proof.
  unfold Validators.validateInput, Zod.safeParse.
  destruct payload as [| | | | |members]; try discriminate.
  destruct (Zod.parseShape type_issues shape members) as [[ok values] issues] eqn:E.
  destruct ok, issues; try discriminate.
  intros H. injection H as ->. exists members. split; [reflexivity | exact E].
Qed.

(** The part of C5 that holds. Whenever [validateInput] accepts a signup
    payload, the payload is an object whose member [email] is a string,
    and the email of the typed data is that string lowercased and then
    trimmed: it is in lower case and has no white space around it. *)
Theorem validateInput_signup_email_normalised
        (type_issues : string -> option json -> list string)
        (payload : json) (data : list (string * string)) :
  Validators.validateInput type_issues Validators.signupSchema payload
    = Validators.Success data ->
  exists members e,
    payload = JObj members
    /\ Zod.member members "email" = Some (JStr e)
    /\ Validators.field data "email" = Js.trim (Js.toLowerCase e)
    /\ Js.toLowerCase (Validators.field data "email") = Validators.field data "email"
    /\ Js.trim (Validators.field data "email") = Validators.field data "email".
Proof.
  intros H. apply validateInput_Success_inv in H as [members [-> Hps]].
  rewrite parseShape_members in Hps. unfold Validators.signupSchema in Hps.
  cbn [forallb flat_map fst snd] in Hps.
  injection Hps as Hok Hdata _.
  assert (exists e, Zod.member members "email" = Some (JStr e)) as [e He].
  { destruct (Zod.member members "email") as [[| | |e| |]|]; eauto;
      cbn [Zod.parseString fst] in Hok; rewrite andb_false_r in Hok; discriminate. }
  exists members, e. split; [reflexivity|]. split; [exact He|].
  assert (Validators.field data "email" = Js.trim (Js.toLowerCase e)) as Hf.
  { rewrite <- Hdata, He. cbn [Zod.parseString]. rewrite runChecks_emailSchema.
    cbn [fst].
    destruct (fst (Zod.parseString type_issues Validators.nameSchema
                                   (Zod.member members "name"))); reflexivity. }
  split; [exact Hf|]. rewrite Hf. split.
  - rewrite <- toLowerCase_trim, toLowerCase_idempotent. reflexivity.
  - apply trim_idempotent.
Qed.

Lemma validateInput_signup_email_normalised_witness :
  exists members e,
    signup_body "Jo Doe" "Jo@Test.com" "Passw0rd!" = JObj members
    /\ Zod.member members "email" = Some (JStr e)
    /\ Validators.field
         [("name", "Jo Doe"); ("email", "jo@test.com"); ("password", "Passw0rd!")]
         "email" = Js.trim (Js.toLowerCase e)
    /\ Js.toLowerCase
         (Validators.field
            [("name", "Jo Doe"); ("email", "jo@test.com"); ("password", "Passw0rd!")]
            "email")
       = Validators.field
           [("name", "Jo Doe"); ("email", "jo@test.com"); ("password", "Passw0rd!")]
           "email"
    /\ Js.trim
         (Validators.field
            [("name", "Jo Doe"); ("email", "jo@test.com"); ("password", "Passw0rd!")]
            "email")
       = Validators.field
           [("name", "Jo Doe"); ("email", "jo@test.com"); ("password", "Passw0rd!")]
           "email".
Proof.
  apply (validateInput_signup_email_normalised
           en_invalid_type (signup_body "Jo Doe" "Jo@Test.com" "Passw0rd!")).
  reflexivity.
Defined.

(** ** Login ([api/auth/login/route.ts]) *)

Lemma validateInput_login (type_issues : string -> option json -> list string)
      (members : list (string * json)) (e p : string) :
  Zod.member members "email" = Some (JStr e) ->
  Zod.email_regex e = true ->
  Zod.member members "password" = Some (JStr p) ->
  p <> "" ->
  Validators.validateInput type_issues Validators.loginSchema (JObj members) =
    Validators.Success [("email", Js.trim (Js.toLowerCase e)); ("password", p)].
Proof.
  intros He Hre Hp Hne.
  unfold Validators.validateInput, Zod.safeParse, Validators.loginSchema.
  cbn [Zod.parseShape]. rewrite He, Hp. cbn [Zod.parseString].
  rewrite runChecks_emailSchema, Hre.
  destruct p as [|c p]; [contradiction | reflexivity].
Qed.

Lemma unauthorizedResponse_envelope (process_env : gmap string string)
      (timestamp message : string) :
  ApiResponse.unauthorizedResponse process_env timestamp message =
    Json (ApiError message "UNAUTHORIZED" 401 None timestamp) 401.
Proof.
  unfold ApiResponse.unauthorizedResponse, ApiResponse.errorResponse.
  destruct (ApiResponse.is_development process_env); reflexivity.
Qed.




(** ** Signup ([api/auth/signup/route.ts]) *)

(** C1 at the failing schedule. Two signups send the same email up to
    case. When both look the email up before either creates its row, the
    first create succeeds with status 201 and the second violates the
    unique constraint: its exception reaches [withErrorHandling], and the
    answer is the internal-error envelope with code [INTERNAL_ERROR] and
    status 500, not the conflict envelope. When the second request starts
    after the first has finished, its own lookup finds the row and the
    answer is the conflict envelope with status 409. *)
Theorem signup_race_answers_internal_error :
  let reqA := post "/api/auth/signup" (signup_body "Jo Doe" "Jo@Test.com" "Passw0rd!") in
  let reqB := post "/api/auth/signup" (signup_body "Joe D" "jo@test.com" "S3cret!pw") in
  let respond := Signup.response ReferencePlatform sample_clock in
  (exists table a b data,
      Signup.run ReferencePlatform sample_clock sample_clock
                 [true; false; true; false; true; false] []
                 (Signup.Received reqA) (Signup.Received reqB) = (table, a, b)
      /\ length table = 1%nat
      /\ respond a =
           Some (Json (ApiSuccess data "User created successfully" (iso sample_clock)) 201)
      /\ respond b =
           Some (Json (ApiError "An error occurred while processing your request"
                                "INTERNAL_ERROR" 500 None (iso sample_clock)) 500))
  /\ (exists table a b data,
         Signup.run ReferencePlatform sample_clock sample_clock
                    [true; true; true; false; false; false] []
                    (Signup.Received reqA) (Signup.Received reqB) = (table, a, b)
         /\ length table = 1%nat
         /\ respond a =
              Some (Json (ApiSuccess data "User created successfully" (iso sample_clock)) 201)
         /\ respond b =
              Some (Json (ApiError (Signup.already_exists "jo@test.com")
                                   "CONFLICT" 409 None (iso sample_clock)) 409)).
Proof.
  cbv zeta. split.
  - eexists. eexists. eexists. eexists.
    split; [vm_compute; reflexivity|]. repeat split.
  - eexists. eexists. eexists. eexists.
    split; [vm_compute; reflexivity|]. repeat split.
Qed.

(** *** Every schedule of a race *)

Lemma findUnique_created (table : list Prisma.User) (u : Prisma.User) :
  Prisma.findUnique (table ++ [u]) (Prisma.email u) <> None.
Proof.
  unfold Prisma.findUnique.
  induction table as [|v table IH]; simpl.
  - rewrite String.eqb_refl. discriminate.
  - destruct (String.eqb (Prisma.email v) (Prisma.email u)); [discriminate | exact IH].
Qed.

Lemma conflictResponse_envelope (process_env : gmap string string)
      (timestamp message : string) :
  ApiResponse.conflictResponse process_env timestamp message =
    Json (ApiError message "CONFLICT" 409 None timestamp) 409.
Proof.
  unfold ApiResponse.conflictResponse, ApiResponse.errorResponse.
  destruct (ApiResponse.is_development process_env); reflexivity.
Qed.

Section Race.
Variable P : Platform.
Variable e : string.

(** The signing secret is set, and [ms] reads the span of seven days. *)
Hypothesis secret_set : Env.JWT_SECRET (Env.load (process_env P)) <> "".
Hypothesis ms_7d : exists span, ms P "7d" = Some span.

Lemma generateToken_returns (userId email : string) (clock : Clock) :
  exists token, generateToken P userId email clock = Ok token.
Proof.
  unfold generateToken, Auth.generateToken, Env.getJwtSecret.
  destruct ms_7d as [span Hspan].
  destruct (Env.JWT_SECRET (Env.load (process_env P))) as [|c s] eqn:Hs;
    [contradiction|].
  simpl. unfold Jwt.sign. simpl. rewrite Hspan. eauto.
Qed.

(** A step of a pending task while the email is free: the task stays
    pending and the table is unchanged, or the task creates the account. *)
Lemma step_while_free (clock : Clock) (table : list Prisma.User) (t : Signup.Task) :
  Prisma.findUnique table e = None ->
  pending P e t ->
  (fst (Signup.step P clock table t) = table
   /\ pending P e (snd (Signup.step P clock table t)))
  \/ (Prisma.findUnique (fst (Signup.step P clock table t)) e <> None
      /\ won P clock (snd (Signup.step P clock table t))).
Proof.
  intros Hfree Hp. destruct t as [req|n mail pw|n mail h|r]; simpl in Hp.
  - destruct Hp as [payload [data [Hb [Hv He]]]].
    left. unfold Signup.step, req_json. rewrite Hb, Hv, He, Hfree.
    split; reflexivity.
  - subst mail. left. split; reflexivity.
  - subst mail. right. unfold Signup.step, Prisma.create. rewrite Hfree.
    cbn [fst snd]. split; [apply (findUnique_created table)|].
    destruct (generateToken_returns (cuid P (length table)) e clock) as [token Ht].
    unfold won, created. cbn [Signup.response Prisma.id Prisma.email].
    rewrite Ht. cbn [bind try_catch]. eauto.
  - contradiction.
Qed.

(** A step of a pending task once the email is taken: the table is
    unchanged, and the task stays pending or is refused. *)
Lemma step_while_taken (clock : Clock) (table : list Prisma.User) (t : Signup.Task) :
  Prisma.findUnique table e <> None ->
  pending P e t ->
  fst (Signup.step P clock table t) = table
  /\ (pending P e (snd (Signup.step P clock table t))
      \/ lost P clock (snd (Signup.step P clock table t))).
Proof.
  intros Htaken Hp. destruct t as [req|n mail pw|n mail h|r]; simpl in Hp.
  - destruct Hp as [payload [data [Hb [Hv He]]]].
    unfold Signup.step, req_json. rewrite Hb, Hv, He.
    destruct (Prisma.findUnique table e) as [existing|]; [|contradiction].
    split; [reflexivity|]. right.
    unfold lost, refused. cbn [snd Signup.response try_catch].
    rewrite conflictResponse_envelope. eauto.
  - subst mail. split; [reflexivity|]. left. reflexivity.
  - subst mail. unfold Signup.step, Prisma.create.
    destruct (Prisma.findUnique table e) as [existing|]; [|contradiction].
    split; [reflexivity|]. right.
    unfold lost, refused. cbn [snd Signup.response try_catch].
    unfold ApiResponse.handleError, ApiResponse.errorResponse. eauto.
  - contradiction.
Qed.

(** A task that has answered takes no further step. *)
Lemma step_answered (clock clock' : Clock) (table : list Prisma.User)
      (t : Signup.Task) (r : NextResponse) :
  Signup.response P clock t = Some r ->
  Signup.step P clock' table t = (table, t).
Proof. destruct t; simpl; [discriminate..|reflexivity]. Qed.

Lemma race_invariant_run (clockA clockB : Clock) (schedule : list bool)
      (table : list Prisma.User) (a b : Signup.Task) :
  race_invariant P clockA clockB e table a b ->
  let '(table', a', b') := Signup.run P clockA clockB schedule table a b in
  race_invariant P clockA clockB e table' a' b'.
Proof.
  revert table a b.
  induction schedule as [|turn schedule IH]; intros table a b Hinv; [exact Hinv|].
  destruct turn; cbn [Signup.run].
  - destruct (Signup.step P clockA table a) as [table1 a1] eqn:Hs.
    apply IH.
    destruct Hinv as [[Hfree [Ha Hb]]|[[Htaken [Ha Hb]]|[Htaken [Hb Ha]]]].
    + destruct (step_while_free clockA table a Hfree Ha) as [[Ht Hp]|[Ht Hw]];
        rewrite Hs in *; cbn [fst snd] in *.
      * subst table1. left. auto.
      * right. left. auto.
    + destruct Ha as [r [Hr Hc]].
      rewrite (step_answered clockA clockA table a r Hr) in Hs.
      injection Hs as <- <-. right. left. split; [exact Htaken|].
      split; [exists r; auto | exact Hb].
    + destruct Ha as [Ha|[r [Hr Hc]]].
      * destruct (step_while_taken clockA table a Htaken Ha) as [Ht Hp].
        rewrite Hs in *; cbn [fst snd] in *. subst table1.
        right. right. auto.
      * rewrite (step_answered clockA clockA table a r Hr) in Hs.
        injection Hs as <- <-. right. right. split; [exact Htaken|].
        split; [exact Hb | right; exists r; auto].
  - destruct (Signup.step P clockB table b) as [table1 b1] eqn:Hs.
    apply IH.
    destruct Hinv as [[Hfree [Ha Hb]]|[[Htaken [Ha Hb]]|[Htaken [Hb Ha]]]].
    + destruct (step_while_free clockB table b Hfree Hb) as [[Ht Hp]|[Ht Hw]];
        rewrite Hs in *; cbn [fst snd] in *.
      * subst table1. left. auto.
      * right. right. auto.
    + destruct Hb as [Hb|[r [Hr Hc]]].
      * destruct (step_while_taken clockB table b Htaken Hb) as [Ht Hp].
        rewrite Hs in *; cbn [fst snd] in *. subst table1.
        right. left. auto.
      * rewrite (step_answered clockB clockB table b r Hr) in Hs.
        injection Hs as <- <-. right. left. split; [exact Htaken|].
        split; [exact Ha | right; exists r; auto].
    + destruct Hb as [r [Hr Hc]].
      rewrite (step_answered clockB clockB table b r Hr) in Hs.
      injection Hs as <- <-. right. right. split; [exact Htaken|].
      split; [exists r; auto | exact Ha].
Qed.
End Race.

Lemma created_not_refused (clock clock' : Clock) (r : NextResponse) :
  created clock r -> refused clock' r -> False.
Proof.
  intros [data ->] [[message H]|[details H]]; discriminate.
Qed.

Lemma pending_not_answered (P : Platform) (clock : Clock) (e : string)
      (t : Signup.Task) (r : NextResponse) :
  pending P e t -> Signup.response P clock t = Some r -> False.
Proof. destruct t; simpl; [discriminate..|contradiction]. Qed.

(** The part of C1 that holds, on every schedule. Two signups whose
    payloads validate to the same normalised email run concurrently on a
    table that does not hold the email, with the signing secret set. In
    whatever order their steps interleave, once both have answered,
    exactly one has created the account (status 201) and the other has
    been refused, with the conflict envelope of status 409 or with the
    internal-error envelope of status 500. *)
Theorem signup_race_exactly_one_created
        (P : Platform) (clockA clockB : Clock) (schedule : list bool)
        (table table' : list Prisma.User) (reqA reqB : NextRequest)
        (payloadA payloadB : json) (dataA dataB : list (string * string))
        (a b : Signup.Task) (respA respB : NextResponse) :
  Env.JWT_SECRET (Env.load (process_env P)) <> "" ->
  (exists span, ms P "7d" = Some span) ->
  body reqA = Some payloadA ->
  Validators.validateInput (type_issues P) Validators.signupSchema payloadA
    = Validators.Success dataA ->
  body reqB = Some payloadB ->
  Validators.validateInput (type_issues P) Validators.signupSchema payloadB
    = Validators.Success dataB ->
  Validators.field dataB "email" = Validators.field dataA "email" ->
  Prisma.findUnique table (Validators.field dataA "email") = None ->
  Signup.run P clockA clockB schedule table
             (Signup.Received reqA) (Signup.Received reqB) = (table', a, b) ->
  Signup.response P clockA a = Some respA ->
  Signup.response P clockB b = Some respB ->
  ((created clockA respA /\ refused clockB respB)
   \/ (refused clockA respA /\ created clockB respB))
  /\ ~ (created clockA respA /\ created clockB respB)
  /\ Prisma.findUnique table' (Validators.field dataA "email") <> None.
Proof.
  intros Hsecret Hms HbA HvA HbB HvB Hsame Hfree Hrun HrA HrB.
  pose proof (race_invariant_run P (Validators.field dataA "email") Hsecret Hms
                clockA clockB schedule table
                (Signup.Received reqA) (Signup.Received reqB)) as Hinv.
  rewrite Hrun in Hinv.
  assert (race_invariant P clockA clockB (Validators.field dataA "email") table' a b)
    as [[_ [Ha _]]|[[Htaken [Ha Hb]]|[Htaken [Hb Ha]]]].
  { apply Hinv. left. split; [exact Hfree|]. split; simpl; eauto. }
  - destruct (pending_not_answered P clockA _ a respA Ha HrA).
  - destruct Hb as [Hb|Hb]; [destruct (pending_not_answered P clockB _ b respB Hb HrB)|].
    destruct Ha as [ra [Ea Ca]], Hb as [rb [Eb Cb]].
    assert (ra = respA) as -> by congruence. assert (rb = respB) as -> by congruence.
    split; [left; auto|]. split; [|exact Htaken].
    intros [_ Cb']. exact (created_not_refused clockB clockB respB Cb' Cb).
  - destruct Ha as [Ha|Ha]; [destruct (pending_not_answered P clockA _ a respA Ha HrA)|].
    destruct Ha as [ra [Ea Ca]], Hb as [rb [Eb Cb]].
    assert (ra = respA) as -> by congruence. assert (rb = respB) as -> by congruence.
    split; [right; auto|]. split; [|exact Htaken].
    intros [Ca' _]. exact (created_not_refused clockA clockA respA Ca' Ca).
Qed.

Lemma signup_race_exactly_one_created_witness :
  let reqA := post "/api/auth/signup" (signup_body "Jo Doe" "Jo@Test.com" "Passw0rd!") in
  let reqB := post "/api/auth/signup" (signup_body "Joe D" "jo@test.com" "S3cret!pw") in
  let final :=
    Signup.run ReferencePlatform sample_clock sample_clock
               [false; true; true; false; true; false] []
               (Signup.Received reqA) (Signup.Received reqB) in
  exists respA respB,
    Signup.response ReferencePlatform sample_clock (snd (fst final)) = Some respA
    /\ Signup.response ReferencePlatform sample_clock (snd final) = Some respB
    /\ ((created sample_clock respA /\ refused sample_clock respB)
        \/ (refused sample_clock respA /\ created sample_clock respB))
    /\ ~ (created sample_clock respA /\ created sample_clock respB)
    /\ Prisma.findUnique (fst (fst final)) "jo@test.com" <> None.
Proof.
  cbv zeta. eexists. eexists.
  split; [vm_compute; reflexivity|]. split; [vm_compute; reflexivity|].
  apply (signup_race_exactly_one_created
           ReferencePlatform sample_clock sample_clock
           [false; true; true; false; true; false] [] _
           (post "/api/auth/signup" (signup_body "Jo Doe" "Jo@Test.com" "Passw0rd!"))
           (post "/api/auth/signup" (signup_body "Joe D" "jo@test.com" "S3cret!pw"))
           (signup_body "Jo Doe" "Jo@Test.com" "Passw0rd!")
           (signup_body "Joe D" "jo@test.com" "S3cret!pw")
           [("name", "Jo Doe"); ("email", "jo@test.com"); ("password", "Passw0rd!")]
           [("name", "Joe D"); ("email", "jo@test.com"); ("password", "S3cret!pw")]
           (snd (fst (Signup.run ReferencePlatform sample_clock sample_clock
                                 [false; true; true; false; true; false] []
                                 (Signup.Received
                                    (post "/api/auth/signup"
                                          (signup_body "Jo Doe" "Jo@Test.com" "Passw0rd!")))
                                 (Signup.Received
                                    (post "/api/auth/signup"
                                          (signup_body "Joe D" "jo@test.com" "S3cret!pw"))))))
           (snd (Signup.run ReferencePlatform sample_clock sample_clock
                            [false; true; true; false; true; false] []
                            (Signup.Received
                               (post "/api/auth/signup"
                                     (signup_body "Jo Doe" "Jo@Test.com" "Passw0rd!")))
                            (Signup.Received
                               (post "/api/auth/signup"
                                     (signup_body "Joe D" "jo@test.com" "S3cret!pw")))))
           _ _);
    try (vm_compute; reflexivity).
  - vm_compute. discriminate.
  - exists 604800000. reflexivity.
Defined.

(** * Properties of the rest of the authentication core *)

(** ** Configuration ([env.ts]) *)

Lemma or_else_empty_truthy (v : option string) :
  Js.truthy (Env.or_else v "") = Js.truthy_opt v.
Proof. destruct v as [[|c s]|]; reflexivity. Qed.

Lemma or_else_empty_value (v : option string) (s : string) :
  v = Some s -> s <> "" -> Env.or_else v "" = s.
Proof. intros -> Hs. destruct s; [contradiction | reflexivity]. Qed.

(** [validateEnv] accepts a process exactly when [JWT_SECRET] and
    [DATABASE_URL] are both set to non-empty values. When it rejects the
    process, the error names [JWT_SECRET] whenever that one is missing,
    also when both are; and when it accepts it, [getJwtSecret] returns the
    secret of the process. *)
Theorem validateEnv_accepts_configured_process (process_env : gmap string string) :
  let e := Env.load process_env in
  (EnvCheck.validateEnv e = Ok tt <->
   Js.truthy_opt (process_env !! "JWT_SECRET") = true
   /\ Js.truthy_opt (process_env !! "DATABASE_URL") = true)
  /\ (Js.truthy_opt (process_env !! "JWT_SECRET") = false ->
      EnvCheck.validateEnv e = Throw (EnvCheck.missing "JWT_SECRET"))
  /\ (Js.truthy_opt (process_env !! "JWT_SECRET") = true ->
      Js.truthy_opt (process_env !! "DATABASE_URL") = false ->
      EnvCheck.validateEnv e = Throw (EnvCheck.missing "DATABASE_URL"))
  /\ (EnvCheck.validateEnv e = Ok tt ->
      exists secret,
        process_env !! "JWT_SECRET" = Some secret
        /\ secret <> ""
        /\ Env.getJwtSecret e = Ok secret).
Proof.
  cbv zeta.
  assert (EnvCheck.validateEnv (Env.load process_env) =
            if negb (Js.truthy_opt (process_env !! "JWT_SECRET"))
            then Throw (EnvCheck.missing "JWT_SECRET")
            else if negb (Js.truthy_opt (process_env !! "DATABASE_URL"))
                 then Throw (EnvCheck.missing "DATABASE_URL")
                 else Ok tt) as Hv.
  { unfold EnvCheck.validateEnv, EnvCheck.required, EnvCheck.check, EnvCheck.member.
    simpl. rewrite !or_else_empty_truthy. reflexivity. }
  rewrite Hv.
  destruct (process_env !! "JWT_SECRET") as [secret|] eqn:Hs;
    destruct (Js.truthy_opt (process_env !! "DATABASE_URL")) eqn:Hd;
    try destruct secret as [|c secret]; simpl;
    repeat split; try discriminate; try tauto; try (intros [? ?]; discriminate).
  intros _. exists (String c secret). repeat split; [discriminate|].
  unfold Env.getJwtSecret, Env.load. simpl. rewrite Hs. reflexivity.
Qed.

(** ** Authentication of a request ([auth.ts]) *)

Lemma verify_Ok_inv (decode : string -> option Jwt.Jws)
      (hmac : string -> string -> string -> string)
      (token secret : string) (now : Z) (p : Jwt.JwtPayload) :
  Jwt.verify decode hmac token secret now = Ok p ->
  token <> ""
  /\ exists j,
      decode token = Some j
      /\ Jwt.payload j = p
      /\ Jwt.accepted_algorithm (Jwt.alg j) = true
      /\ Jwt.signature j = hmac (Jwt.alg j) secret (Jwt.signing_input j)
      /\ match Jwt.exp p with
         | Some e => now / 1000 < e
         | None => True
         end.
Proof.
  unfold Jwt.verify, Jwt.jwt_error.
  destruct token as [|c token]; [discriminate|]. simpl negb. cbv iota.
  destruct (decode (String c token)) as [j|]; [|discriminate].
  destruct (Js.truthy (Js.trim (Jwt.signature j))); [|discriminate]. simpl negb. cbv iota.
  destruct (Jwt.accepted_algorithm (Jwt.alg j)) eqn:Ha; [|discriminate]. simpl negb. cbv iota.
  destruct (String.eqb (Jwt.signature j) _) eqn:Hs; [|discriminate]. simpl negb. cbv iota.
  apply String.eqb_eq in Hs.
  intros H. split; [discriminate|]. exists j. split; [reflexivity|].
  destruct (Jwt.exp (Jwt.payload j)) as [e|] eqn:He.
  - unfold Jwt.clockTimestamp in H.
    destruct (Z.leb_spec e (now / 1000)); [discriminate|].
    injection H as <-. rewrite He. auto.
  - injection H as <-. rewrite He. auto.
Qed.

Lemma verify_Throw_inv (decode : string -> option Jwt.Jws)
      (hmac : string -> string -> string -> string)
      (token secret : string) (now : Z) (e : exn) :
  Jwt.verify decode hmac token secret now = Throw e ->
  exists j, e = JwtException j.
Proof.
  unfold Jwt.verify, Jwt.jwt_error.
  repeat match goal with
         | |- context [if ?b then _ else _] => destruct b
         | |- context [match ?o with Some _ => _ | None => _ end] => destruct o
         end;
    intros H; try discriminate; injection H as <-; eauto.
Qed.

Lemma verifyToken_cases (decode : string -> option Jwt.Jws)
      (hmac : string -> string -> string -> string)
      (env : Env.env) (token : string) (now : Z) :
  Auth.verifyToken decode hmac env token now =
    match Env.JWT_SECRET env with
    | EmptyString =>
        {| Auth.success := false; Auth.user := None;
           Auth.error := Some "Token verification failed" |}
    | secret =>
        match Jwt.verify decode hmac token secret now with
        | Ok p => {| Auth.success := true; Auth.user := Some p; Auth.error := None |}
        | Throw e => {| Auth.success := false; Auth.user := None;
                        Auth.error := Some (Auth.verification_message e) |}
        end
    end.
Proof.
  unfold Auth.verifyToken, Env.getJwtSecret.
  destruct (Env.JWT_SECRET env) as [|c s]; [reflexivity|]. simpl.
  destruct (Jwt.verify decode hmac token (String c s) now); reflexivity.
Qed.

(** A request is authenticated only on the strength of a verified
    signature. When [authenticateRequest] succeeds, the authorization
    header reads ["Bearer "] followed by a non-empty token, the signing
    secret is set, the token parses, its signature is the digest of its
    signing input under that secret with an accepted algorithm, its expiry
    (if it has one) lies in the future, and the user of the result is the
    payload of that token. *)
Theorem authenticateRequest_success_sound
        (decode : string -> option Jwt.Jws)
        (hmac : string -> string -> string -> string)
        (env : Env.env) (req : NextRequest) (now : Z) :
  Auth.success (Auth.authenticateRequest decode hmac env req now) = true ->
  exists token j,
    headers_get req "authorization" = Some ("Bearer " +:+ token)
    /\ token <> ""
    /\ Env.JWT_SECRET env <> ""
    /\ decode token = Some j
    /\ Jwt.accepted_algorithm (Jwt.alg j) = true
    /\ Jwt.signature j = hmac (Jwt.alg j) (Env.JWT_SECRET env) (Jwt.signing_input j)
    /\ match Jwt.exp (Jwt.payload j) with
       | Some e => now / 1000 < e
       | None => True
       end
    /\ Auth.authenticateRequest decode hmac env req now =
         {| Auth.success := true; Auth.user := Some (Jwt.payload j); Auth.error := None |}.
Proof.
  unfold Auth.authenticateRequest.
  destruct (Auth.extractToken req) as [[|c token]|] eqn:Ht; try discriminate.
  cbn [Js.truthy_opt Js.truthy negb]. cbv iota.
  rewrite verifyToken_cases.
  destruct (Env.JWT_SECRET env) as [|k secret] eqn:Hs; [discriminate|].
  destruct (Jwt.verify decode hmac (String c token) (String k secret) now) as [p|e] eqn:Hv;
    [|discriminate].
  intros _. apply verify_Ok_inv in Hv as [_ [j [Hd [Hp [Ha [Hsig Hexp]]]]]].
  exists (String c token), j. apply extractToken_Some in Ht.
  subst p. repeat split; auto; discriminate.
Qed.

Lemma authenticateRequest_success_sound_witness :
  exists token j,
    headers_get (bearing sample_token None) "authorization" = Some ("Bearer " +:+ token)
    /\ token <> ""
    /\ Env.JWT_SECRET (Env.load (process_env ReferencePlatform)) <> ""
    /\ ReferenceCodec.decode token = Some j
    /\ Jwt.accepted_algorithm (Jwt.alg j) = true
    /\ Jwt.signature j =
         ReferenceCodec.hmac (Jwt.alg j)
                             (Env.JWT_SECRET (Env.load (process_env ReferencePlatform)))
                             (Jwt.signing_input j)
    /\ match Jwt.exp (Jwt.payload j) with
       | Some e => now sample_clock / 1000 < e
       | None => True
       end
    /\ Auth.authenticateRequest ReferenceCodec.decode ReferenceCodec.hmac
                                (Env.load (process_env ReferencePlatform))
                                (bearing sample_token None) (now sample_clock) =
         {| Auth.success := true; Auth.user := Some (Jwt.payload j); Auth.error := None |}.
Proof.
  apply (authenticateRequest_success_sound
           ReferenceCodec.decode ReferenceCodec.hmac
           (Env.load (process_env ReferencePlatform))
           (bearing sample_token None) (now sample_clock)).
  vm_compute. reflexivity.
Defined.

(** The result of [authenticateRequest] is always well formed: either it
    is a success that carries a user and no error, or it is a failure
    that carries no user and one of four messages, none of them empty. A
    caller may therefore read [user] after a success, and the fallback of
    [authResult.error || ...] is never taken. *)
Theorem authenticateRequest_result_well_formed
        (decode : string -> option Jwt.Jws)
        (hmac : string -> string -> string -> string)
        (env : Env.env) (req : NextRequest) (now : Z) :
  let r := Auth.authenticateRequest decode hmac env req now in
  (Auth.success r = true /\ Auth.error r = None /\ exists p, Auth.user r = Some p)
  \/ (Auth.success r = false /\ Auth.user r = None
      /\ exists m, Auth.error r = Some m /\ Js.truthy m = true
                   /\ In m authentication_errors).
Proof.
  cbv zeta. unfold Auth.authenticateRequest, authentication_errors.
  destruct (Auth.extractToken req) as [[|c token]|];
    cbn [Js.truthy_opt Js.truthy negb]; cbv iota.
  - right. repeat split. eexists. repeat split. simpl. auto.
  - rewrite verifyToken_cases.
    destruct (Env.JWT_SECRET env) as [|k secret].
    + right. repeat split. eexists. repeat split. simpl. auto.
    + destruct (Jwt.verify decode hmac (String c token) (String k secret) now)
        as [p|e] eqn:Hv.
      * left. repeat split. eauto.
      * apply verify_Throw_inv in Hv as [[m|] ->];
          right; repeat split; eexists; repeat split; simpl; auto.
  - right. repeat split. eexists. repeat split. simpl. auto.
Qed.

Section ForeignSecret.
Variable encode : string -> Jwt.JwtPayload -> string.
Variable decode : string -> option Jwt.Jws.
Variable hmac : string -> string -> string -> string.
Variable ms : string -> option Z.
(** The issuing process and the verifying process. *)
Variable issuer verifier : Env.env.

Hypothesis issuer_secret_set : Env.JWT_SECRET issuer <> "".
Hypothesis verifier_secret_set : Env.JWT_SECRET verifier <> "".
Hypothesis ms_7d : ms "7d" = Some 604800000.
Hypothesis decode_encode :
  forall a p s,
    decode (encode a p +:+ "." +:+ s) =
      Some {| Jwt.alg := a; Jwt.payload := p;
              Jwt.signing_input := encode a p; Jwt.signature := s |}.
(** The digest tells the two secrets apart. *)
Hypothesis digests_differ :
  forall input,
    hmac "HS256" (Env.JWT_SECRET issuer) input <>
    hmac "HS256" (Env.JWT_SECRET verifier) input.

(** A token signed under another secret is never accepted. Whatever the
    subject and the clock, also after the expiry of the token, a process
    whose secret the digest tells apart from the issuer's rejects the
    token with the reason [Invalid token]: the signature is checked
    before the expiry. *)
Theorem verifyToken_rejects_foreign_signature (userId email : string) (now later : Z) :
  exists token,
    Auth.generateToken encode hmac ms issuer userId email "7d" now = Ok token
    /\ Auth.verifyToken decode hmac verifier token later =
         {| Auth.success := false; Auth.user := None;
            Auth.error := Some "Invalid token" |}.
Proof.
  eexists. split.
  - apply (generateToken_signed encode hmac ms issuer issuer_secret_set ms_7d).
  - rewrite verifyToken_cases.
    destruct (Env.JWT_SECRET verifier) as [|k secret] eqn:Hv; [contradiction|].
    unfold Jwt.verify. rewrite truthy_dotted. simpl negb. cbv iota.
    rewrite decode_encode. cbn [Jwt.signature Jwt.alg Jwt.signing_input Jwt.payload].
    destruct (Js.truthy (Js.trim _)); [|reflexivity]. simpl negb. cbv iota.
    simpl Jwt.accepted_algorithm. simpl negb. cbv iota.
    destruct (String.eqb _ _) eqn:He; [|reflexivity].
    apply String.eqb_eq in He. destruct (digests_differ _ He).
Qed.
End ForeignSecret.

Lemma reference_digests_differ (input : string) :
  ReferenceCodec.hmac "HS256" "s3cret" input <> ReferenceCodec.hmac "HS256" "0ther" input.
Proof.
  unfold ReferenceCodec.hmac, ReferenceCodec.text. simpl ReferenceCodec.unary.
  intros H. repeat rewrite ?append_cons, ?append_nil in H.
  repeat (injection H as H). discriminate.
Qed.

Lemma verifyToken_rejects_foreign_signature_witness :
  exists token,
    Auth.generateToken ReferenceCodec.encode ReferenceCodec.hmac ReferenceCodec.ms
                       (Env.load {["JWT_SECRET" := "s3cret"]})
                       "user-1" "jo@test.com" "7d" 1000 = Ok token
    /\ Auth.verifyToken ReferenceCodec.decode ReferenceCodec.hmac
                        (Env.load {["JWT_SECRET" := "0ther"]}) token 2000 =
         {| Auth.success := false; Auth.user := None;
            Auth.error := Some "Invalid token" |}.
Proof.
  apply (verifyToken_rejects_foreign_signature
           ReferenceCodec.encode ReferenceCodec.decode ReferenceCodec.hmac
           ReferenceCodec.ms
           (Env.load {["JWT_SECRET" := "s3cret"]})
           (Env.load {["JWT_SECRET" := "0ther"]})).
  - vm_compute. discriminate.
  - vm_compute. discriminate.
  - reflexivity.
  - exact reference_decode_encode.
  - exact reference_digests_differ.
Defined.

(** ** The error funnel ([routeHandler.ts], [apiResponse.ts]) *)

(** [withErrorHandling] passes on the response of a handler that returns.
    When the handler throws, the answer is the internal-error envelope
    with status 500; outside development it is the same envelope for
    every exception and carries no detail, and in development it carries
    the message of the exception as [originalError]. *)
Theorem withErrorHandling_funnels_exceptions
        (process_env : gmap string string) (timestamp : string)
        (A : Type) (handler : A -> result NextResponse)
        (context : option string) (req : A) :
  (forall r, handler req = Ok r ->
             withErrorHandling process_env timestamp handler context req = r)
  /\ (forall e, handler req = Throw e ->
                process_env !! "NODE_ENV" <> Some "development" ->
                withErrorHandling process_env timestamp handler context req =
                  Json (ApiError "An error occurred while processing your request"
                                 "INTERNAL_ERROR" 500 None timestamp) 500)
  /\ (forall e, handler req = Throw e ->
                process_env !! "NODE_ENV" = Some "development" ->
                withErrorHandling process_env timestamp handler context req =
                  Json (ApiError "An error occurred while processing your request"
                                 "INTERNAL_ERROR" 500
                                 (Some (JObj [("originalError",
                                               JStr (ApiResponse.error_message e))]))
                                 timestamp) 500).
Proof.
  unfold withErrorHandling. repeat split.
  - intros r ->. reflexivity.
  - intros e -> Hn. simpl.
    unfold ApiResponse.handleError, ApiResponse.errorResponse.
    destruct (ApiResponse.is_development process_env) eqn:Hd; [|reflexivity].
    apply is_development_iff in Hd. contradiction.
  - intros e -> Hd. simpl. apply is_development_iff in Hd.
    unfold ApiResponse.handleError, ApiResponse.errorResponse.
    rewrite Hd. reflexivity.
Qed.

(** The two readings of the mode disagree when [NODE_ENV] is unset or
    empty: the [env] object then says ['development'], while the response
    envelope, which reads [process.env] itself, attaches no detail. *)
Theorem unset_NODE_ENV_withholds_details
        (process_env : gmap string string) (timestamp : string)
        (errors : list (string * string)) (e : exn) (context : option string) :
  Js.truthy_opt (process_env !! "NODE_ENV") = false ->
  Env.NODE_ENV (Env.load process_env) = "development"
  /\ ApiResponse.validationErrorResponse process_env timestamp errors =
       Json (ApiError "Invalid input data" "VALIDATION_ERROR" 400 None timestamp) 400
  /\ ApiResponse.handleError process_env timestamp e context =
       Json (ApiError "An error occurred while processing your request"
                      "INTERNAL_ERROR" 500 None timestamp) 500.
Proof.
  intros H.
  assert (ApiResponse.is_development process_env = false) as Hd.
  { unfold ApiResponse.is_development.
    destruct (process_env !! "NODE_ENV") as [[|c s]|]; try reflexivity; discriminate. }
  unfold Env.load, ApiResponse.validationErrorResponse, ApiResponse.handleError,
    ApiResponse.errorResponse. rewrite Hd. simpl.
  destruct (process_env !! "NODE_ENV") as [[|c s]|]; try discriminate; auto.
Qed.

Lemma unset_NODE_ENV_withholds_details_witness :
  Env.NODE_ENV (Env.load {["JWT_SECRET" := "s3cret"]}) = "development"
  /\ ApiResponse.validationErrorResponse
       {["JWT_SECRET" := "s3cret"]} "2026-01-01T00:00:00.000Z"
       [("email", "Invalid email format")] =
       Json (ApiError "Invalid input data" "VALIDATION_ERROR" 400 None
                      "2026-01-01T00:00:00.000Z") 400
  /\ ApiResponse.handleError
       {["JWT_SECRET" := "s3cret"]} "2026-01-01T00:00:00.000Z"
       (Error "boom") (Some "LOGIN") =
       Json (ApiError "An error occurred while processing your request"
                      "INTERNAL_ERROR" 500 None "2026-01-01T00:00:00.000Z") 500.
Proof.
  apply (unset_NODE_ENV_withholds_details
           {["JWT_SECRET" := "s3cret"]} "2026-01-01T00:00:00.000Z"
           [("email", "Invalid email format")] (Error "boom") (Some "LOGIN")).
  vm_compute. reflexivity.
Defined.

(** ** What the signup schema accepts ([validators.ts]) *)

Lemma runChecks_nameSchema (n : string) :
  exists messages,
    Zod.runChecks Validators.nameSchema n [] = (n, messages)
    /\ (messages = [] <-> valid_name n = true).
Proof.
  unfold Validators.nameSchema, valid_name. cbn [Zod.runChecks].
  rewrite !Nat.ltb_antisym.
  destruct (2 <=? String.length n)%nat, (String.length n <=? 100)%nat,
    (Validators.name_regex n);
    simpl; eexists; (split; [reflexivity|]); split; intros; congruence.
Qed.

Lemma failing_rules_nil_length (p : string) :
  failing_rules p = [] -> (8 <= String.length p)%nat.
Proof.
  unfold failing_rules, password_rules. cbn [List.filter map fst snd].
  destruct (8 <=? String.length p)%nat eqn:E.
  - intros _. apply Nat.leb_le. exact E.
  - simpl. discriminate.
Qed.

Lemma signup_validation_inv
        (type_issues : string -> option json -> list string)
        (payload : json) (data : list (string * string)) :
  Validators.validateInput type_issues Validators.signupSchema payload
    = Validators.Success data ->
  exists members n e p,
    payload = JObj members
    /\ Zod.member members "name" = Some (JStr n)
    /\ Zod.member members "email" = Some (JStr e)
    /\ Zod.member members "password" = Some (JStr p)
    /\ valid_name n = true
    /\ Zod.email_regex e = true
    /\ failing_rules p = []
    /\ data = [("name", n); ("email", Js.trim (Js.toLowerCase e)); ("password", p)].
Proof.
  intros H. apply validateInput_Success_inv in H as [members [-> Hps]].
  rewrite parseShape_members in Hps. unfold Validators.signupSchema in Hps.
  cbn [forallb flat_map fst snd] in Hps.
  injection Hps as Hok Hdata Hissues.
  destruct (Zod.member members "name") as [[| | |n| |]|] eqn:Hn;
    try (cbn [Zod.parseString fst] in Hok; discriminate).
  destruct (Zod.member members "email") as [[| | |e| |]|] eqn:He;
    try (cbn [Zod.parseString fst] in Hok; rewrite ?andb_false_r in Hok;
         simpl in Hok; destruct (fst _); discriminate).
  destruct (Zod.member members "password") as [[| | |p| |]|] eqn:Hp;
    try (cbn [Zod.parseString fst] in Hok; rewrite ?andb_false_r in Hok;
         simpl in Hok; repeat destruct (fst _); discriminate).
  cbn [Zod.parseString] in Hdata, Hissues.
  rewrite runChecks_emailSchema, runChecks_passwordSchema in Hdata, Hissues.
  destruct (runChecks_nameSchema n) as [messages [Hrun Hvalid]].
  rewrite Hrun in Hdata, Hissues. cbn [fst snd app] in Hdata, Hissues.
  apply app_eq_nil in Hissues as [Hi1 Hissues].
  apply app_eq_nil in Hissues as [Hi2 Hissues].
  apply app_eq_nil in Hissues as [Hi3 _].
  apply map_eq_nil in Hi1, Hi2, Hi3.
  exists members, n, e, p. repeat split; auto.
  + apply Hvalid. exact Hi1.
  + destruct (Zod.email_regex e); [reflexivity | discriminate].
Qed.

Lemma signup_validation_accepts
        (type_issues : string -> option json -> list string)
        (payload : json) (data : list (string * string)) :
  (exists members n e p,
    payload = JObj members
    /\ Zod.member members "name" = Some (JStr n)
    /\ Zod.member members "email" = Some (JStr e)
    /\ Zod.member members "password" = Some (JStr p)
    /\ valid_name n = true
    /\ Zod.email_regex e = true
    /\ failing_rules p = []
    /\ data = [("name", n); ("email", Js.trim (Js.toLowerCase e)); ("password", p)]) ->
  Validators.validateInput type_issues Validators.signupSchema payload
    = Validators.Success data.
Proof.
  intros [members [n [e [p [-> [Hn [He [Hp [Hvn [Hre [Hfr ->]]]]]]]]]]].
  unfold Validators.validateInput, Zod.safeParse.
  rewrite parseShape_members. unfold Validators.signupSchema.
  cbn [forallb flat_map fst snd]. rewrite Hn, He, Hp.
  cbn [Zod.parseString].
  rewrite runChecks_emailSchema, runChecks_passwordSchema, Hre, Hfr.
  destruct (runChecks_nameSchema n) as [messages [Hrun Hvalid]].
  rewrite Hrun. apply Hvalid in Hvn. subst messages. reflexivity.
Qed.

(** [validateInput] accepts a signup payload exactly when the payload is
    an object whose members [name], [email] and [password] are strings,
    the name has 2 to 100 characters that are letters, white space,
    hyphens or apostrophes, the email matches the address pattern as it
    was sent, and the password fails none of the five rules. The typed
    data is then the name as sent, the email lowercased and trimmed, and
    the password as sent; any other member of the payload is dropped. *)
Theorem validateInput_signup_accepts_exactly
        (type_issues : string -> option json -> list string)
        (payload : json) (data : list (string * string)) :
  Validators.validateInput type_issues Validators.signupSchema payload
    = Validators.Success data
  <->
  exists members n e p,
    payload = JObj members
    /\ Zod.member members "name" = Some (JStr n)
    /\ Zod.member members "email" = Some (JStr e)
    /\ Zod.member members "password" = Some (JStr p)
    /\ valid_name n = true
    /\ Zod.email_regex e = true
    /\ failing_rules p = []
    /\ data = [("name", n); ("email", Js.trim (Js.toLowerCase e)); ("password", p)].
Proof.
  split; [apply signup_validation_inv | apply signup_validation_accepts].
Qed.

(** ** Signup and login, one request at a time *)

Lemma findUnique_None_not_In (table : list Prisma.User) (e : string) :
  Prisma.findUnique table e = None -> ~ In e (map Prisma.email table).
Proof.
  unfold Prisma.findUnique.
  induction table as [|u table IH]; simpl; [tauto|].
  destruct (String.eqb (Prisma.email u) e) eqn:E; [discriminate|].
  intros H [Hu|Hin]; [|exact (IH H Hin)].
  apply String.eqb_neq in E. contradiction.
Qed.

Lemma findUnique_app_new (table : list Prisma.User) (u : Prisma.User) :
  Prisma.findUnique table (Prisma.email u) = None ->
  Prisma.findUnique (table ++ [u]) (Prisma.email u) = Some u.
Proof.
  unfold Prisma.findUnique.
  induction table as [|v table IH]; simpl.
  - rewrite String.eqb_refl. reflexivity.
  - destruct (String.eqb (Prisma.email v) (Prisma.email u)); [discriminate | exact IH].
Qed.

Lemma signup_POST_valid (P : Platform) (clock : Clock) (table : list Prisma.User)
      (req : NextRequest) (payload : json) (data : list (string * string)) :
  body req = Some payload ->
  Validators.validateInput (type_issues P) Validators.signupSchema payload
    = Validators.Success data ->
  Signup.POST P clock table req =
    match Prisma.findUnique table (Validators.field data "email") with
    | Some _ =>
        (table,
         Signup.Returned
           (Ok (Json (ApiError (Signup.already_exists (Validators.field data "email"))
                               "CONFLICT" 409 None (iso clock)) 409)))
    | None =>
        ((table ++ [new_user P table data])%list,
         Signup.Returned
           (let* token := generateToken P (cuid P (length table))
                                        (Validators.field data "email") clock in
            Ok (Json (ApiSuccess
                        (session token (cuid P (length table))
                                 (Validators.field data "email")
                                 (Validators.field data "name"))
                        "User created successfully" (iso clock)) 201)))
    end.
Proof.
  intros Hb Hv.
  assert (Signup.step P clock table (Signup.Received req) =
            match Prisma.findUnique table (Validators.field data "email") with
            | Some _ =>
                (table,
                 Signup.Returned
                   (Ok (ApiResponse.conflictResponse
                          (process_env P) (iso clock)
                          (Signup.already_exists (Validators.field data "email")))))
            | None =>
                (table,
                 Signup.Hashing (Validators.field data "name")
                                (Validators.field data "email")
                                (Validators.field data "password"))
            end) as Hfirst.
  { unfold Signup.step, req_json. rewrite Hb, Hv.
    destruct (Prisma.findUnique table (Validators.field data "email")); reflexivity. }
  unfold Signup.POST. rewrite Hfirst.
  destruct (Prisma.findUnique table (Validators.field data "email")) eqn:Hf.
  - cbn [Signup.step]. rewrite conflictResponse_envelope. reflexivity.
  - cbn [Signup.step]. unfold Prisma.create. rewrite Hf. reflexivity.
Qed.

(** A signup served alone, with a valid payload, a free email and the
    signing secret set, answers 201 and appends one row to the table. The
    row holds the normalised email, the name, and the hash of the
    password, not the password itself; the response carries a token and
    the id, the email and the name of the user, and nothing else. A later
    lookup of the email finds the new row. *)
Theorem signup_creates_account
        (P : Platform) (clock : Clock) (table : list Prisma.User)
        (req : NextRequest) (payload : json) (data : list (string * string)) :
  body req = Some payload ->
  Validators.validateInput (type_issues P) Validators.signupSchema payload
    = Validators.Success data ->
  Prisma.findUnique table (Validators.field data "email") = None ->
  Env.JWT_SECRET (Env.load (process_env P)) <> "" ->
  (exists span, ms P "7d" = Some span) ->
  exists token,
    generateToken P (cuid P (length table)) (Validators.field data "email") clock
      = Ok token
    /\ Signup.POST P clock table req =
         ((table ++ [new_user P table data])%list,
          Signup.Returned
            (Ok (Json (ApiSuccess
                         (session token (cuid P (length table))
                                  (Validators.field data "email")
                                  (Validators.field data "name"))
                         "User created successfully" (iso clock)) 201)))
    /\ Prisma.password (new_user P table data)
       = bcrypt_hash P (Validators.field data "password") 10
    /\ Prisma.findUnique (table ++ [new_user P table data])
                         (Validators.field data "email")
       = Some (new_user P table data).
Proof.
  intros Hb Hv Hfree Hsecret Hms.
  destruct (generateToken_returns P Hsecret Hms (cuid P (length table))
                                  (Validators.field data "email") clock)
    as [token Ht].
  exists token. split; [exact Ht|].
  rewrite (signup_POST_valid P clock table req payload data Hb Hv), Hfree, Ht.
  split; [reflexivity|]. split; [reflexivity|].
  apply (findUnique_app_new table (new_user P table data)). exact Hfree.
Qed.

Lemma signup_creates_account_witness :
  let req := post "/api/auth/signup" (signup_body "Jo Doe" "Jo@Test.com" "Passw0rd!") in
  let data := [("name", "Jo Doe"); ("email", "jo@test.com"); ("password", "Passw0rd!")] in
  exists token,
    generateToken ReferencePlatform (cuid ReferencePlatform (length (@nil Prisma.User)))
                  (Validators.field data "email") sample_clock = Ok token
    /\ Signup.POST ReferencePlatform sample_clock [] req =
         (([] ++ [new_user ReferencePlatform [] data])%list,
          Signup.Returned
            (Ok (Json (ApiSuccess
                         (session token
                                  (cuid ReferencePlatform (length (@nil Prisma.User)))
                                  (Validators.field data "email")
                                  (Validators.field data "name"))
                         "User created successfully" (iso sample_clock)) 201)))
    /\ Prisma.password (new_user ReferencePlatform [] data)
       = bcrypt_hash ReferencePlatform (Validators.field data "password") 10
    /\ Prisma.findUnique ([] ++ [new_user ReferencePlatform [] data])
                         (Validators.field data "email")
       = Some (new_user ReferencePlatform [] data).
Proof.
  apply (signup_creates_account
           ReferencePlatform sample_clock []
           (post "/api/auth/signup" (signup_body "Jo Doe" "Jo@Test.com" "Passw0rd!"))
           (signup_body "Jo Doe" "Jo@Test.com" "Passw0rd!")
           [("name", "Jo Doe"); ("email", "jo@test.com"); ("password", "Passw0rd!")]).
  - reflexivity.
  - reflexivity.
  - reflexivity.
  - vm_compute. discriminate.
  - exists 604800000. reflexivity.
Defined.

Lemma login_POST_valid (P : Platform) (clock : Clock) (table : list Prisma.User)
      (req : NextRequest) (members : list (string * json)) (e p : string) :
  body req = Some (JObj members) ->
  Zod.member members "email" = Some (JStr e) ->
  Zod.email_regex e = true ->
  Zod.member members "password" = Some (JStr p) ->
  p <> "" ->
  Login.POST P clock table req =
    match Prisma.findUnique table (Js.trim (Js.toLowerCase e)) with
    | None =>
        Ok (Json (ApiError "Invalid email or password" "UNAUTHORIZED" 401 None
                           (iso clock)) 401)
    | Some user =>
        if bcrypt_compare P p (Prisma.password user)
        then
          let* token := generateToken P (Prisma.id user) (Prisma.email user) clock in
          Ok (Json (ApiSuccess (session token (Prisma.id user) (Prisma.email user)
                                        (Prisma.name user))
                               "Login successful" (iso clock)) 200)
        else Ok (Json (ApiError "Invalid email or password" "UNAUTHORIZED" 401 None
                                (iso clock)) 401)
    end.
Proof.
  intros Hb He Hre Hp Hne. unfold Login.POST, req_json. rewrite Hb. cbn [bind].
  rewrite (validateInput_login (type_issues P) members e p He Hre Hp Hne).
  cbn [Validators.field String.eqb Ascii.eqb Bool.eqb].
  destruct (Prisma.findUnique table (Js.trim (Js.toLowerCase e))) as [user|].
  - destruct (bcrypt_compare P p (Prisma.password user)); cbn [negb].
    + reflexivity.
    + rewrite unauthorizedResponse_envelope. reflexivity.
  - rewrite unauthorizedResponse_envelope. reflexivity.
Qed.

(** Signup and login round trip. After a signup that created an account,
    a login that sends the same password and an email that normalises to
    the registered one (in any letter case) answers 200 with a fresh
    token and the id, the email and the name of that account, given that
    the hasher recognises the password it hashed. *)
Theorem login_after_signup
        (P : Platform) (clockS clockL : Clock) (table : list Prisma.User)
        (reqS reqL : NextRequest) (payloadS : json) (data : list (string * string))
        (membersL : list (string * json)) (e : string) :
  body reqS = Some payloadS ->
  Validators.validateInput (type_issues P) Validators.signupSchema payloadS
    = Validators.Success data ->
  Prisma.findUnique table (Validators.field data "email") = None ->
  Env.JWT_SECRET (Env.load (process_env P)) <> "" ->
  (exists span, ms P "7d" = Some span) ->
  (forall p, bcrypt_compare P p (bcrypt_hash P p 10) = true) ->
  body reqL = Some (JObj membersL) ->
  Zod.member membersL "email" = Some (JStr e) ->
  Zod.email_regex e = true ->
  Js.trim (Js.toLowerCase e) = Validators.field data "email" ->
  Zod.member membersL "password" = Some (JStr (Validators.field data "password")) ->
  exists token,
    generateToken P (cuid P (length table)) (Validators.field data "email") clockL
      = Ok token
    /\ Login.handler P clockL (fst (Signup.POST P clockS table reqS)) reqL =
         Json (ApiSuccess (session token (cuid P (length table))
                                   (Validators.field data "email")
                                   (Validators.field data "name"))
                          "Login successful" (iso clockL)) 200.
Proof.
  intros HbS Hv Hfree Hsecret Hms Hbcrypt HbL He Hre Hnorm Hp.
  destruct (generateToken_returns P Hsecret Hms (cuid P (length table))
                                  (Validators.field data "email") clockL)
    as [token Ht].
  exists token. split; [exact Ht|].
  assert (Validators.field data "password" <> "") as Hne.
  { apply signup_validation_inv in Hv
      as [members [n [e' [p [_ [_ [_ [_ [_ [_ [Hfr ->]]]]]]]]]]].
    cbn [Validators.field String.eqb Ascii.eqb Bool.eqb].
    apply failing_rules_nil_length in Hfr. destruct p; simpl in Hfr; [lia | discriminate]. }
  rewrite (signup_POST_valid P clockS table reqS payloadS data HbS Hv), Hfree.
  cbn [fst]. unfold Login.handler, withErrorHandling.
  rewrite (login_POST_valid P clockL _ reqL membersL e _ HbL He Hre Hp Hne).
  rewrite Hnorm.
  pose proof (findUnique_app_new table (new_user P table data) Hfree) as Hfind.
  cbn [new_user Prisma.email] in Hfind. rewrite Hfind.
  cbn [new_user Prisma.password Prisma.id Prisma.email Prisma.name].
  rewrite Hbcrypt, Ht. reflexivity.
Qed.

Lemma login_after_signup_witness :
  let data := [("name", "Jo Doe"); ("email", "jo@test.com"); ("password", "Passw0rd!")] in
  exists token,
    generateToken ReferencePlatform (cuid ReferencePlatform (length (@nil Prisma.User)))
                  (Validators.field data "email") sample_clock = Ok token
    /\ Login.handler ReferencePlatform sample_clock
         (fst (Signup.POST ReferencePlatform sample_clock []
                 (post "/api/auth/signup"
                       (signup_body "Jo Doe" "Jo@Test.com" "Passw0rd!"))))
         (post "/api/auth/login" (login_body "JO@test.COM" "Passw0rd!")) =
         Json (ApiSuccess (session token
                                   (cuid ReferencePlatform (length (@nil Prisma.User)))
                                   (Validators.field data "email")
                                   (Validators.field data "name"))
                          "Login successful" (iso sample_clock)) 200.
Proof.
  apply (login_after_signup
           ReferencePlatform sample_clock sample_clock []
           (post "/api/auth/signup" (signup_body "Jo Doe" "Jo@Test.com" "Passw0rd!"))
           (post "/api/auth/login" (login_body "JO@test.COM" "Passw0rd!"))
           (signup_body "Jo Doe" "Jo@Test.com" "Passw0rd!")
           [("name", "Jo Doe"); ("email", "jo@test.com"); ("password", "Passw0rd!")]
           [("email", JStr "JO@test.COM"); ("password", JStr "Passw0rd!")]
           "JO@test.COM");
    try reflexivity.
  - vm_compute. discriminate.
  - exists 604800000. reflexivity.
  - intros p. apply String.eqb_refl.
Defined.

(** Token generation runs after the row is created. With the signing
    secret unset, a signup with a valid payload and a free email still
    appends the row to the table, and answers with the internal-error
    envelope of status 500; the same signup sent again is then refused
    with the conflict envelope of status 409. *)
Theorem signup_without_secret_keeps_the_row
        (P : Platform) (clock clock' : Clock) (table : list Prisma.User)
        (req : NextRequest) (payload : json) (data : list (string * string)) :
  body req = Some payload ->
  Validators.validateInput (type_issues P) Validators.signupSchema payload
    = Validators.Success data ->
  Prisma.findUnique table (Validators.field data "email") = None ->
  Env.JWT_SECRET (Env.load (process_env P)) = "" ->
  exists first,
    Signup.POST P clock table req = ((table ++ [new_user P table data])%list, first)
    /\ (exists r, Signup.response P clock first = Some r /\ internal_error clock r)
    /\ exists again,
        snd (Signup.POST P clock' (table ++ [new_user P table data]) req) = again
        /\ Signup.response P clock' again =
             Some (Json (ApiError (Signup.already_exists (Validators.field data "email"))
                                  "CONFLICT" 409 None (iso clock')) 409)
        /\ fst (Signup.POST P clock' (table ++ [new_user P table data]) req)
           = (table ++ [new_user P table data])%list.
Proof.
  intros Hb Hv Hfree Hsecret.
  rewrite (signup_POST_valid P clock table req payload data Hb Hv), Hfree.
  eexists. split; [reflexivity|]. split.
  - unfold generateToken, Auth.generateToken, Env.getJwtSecret. rewrite Hsecret.
    cbn [Js.truthy negb bind Signup.response try_catch].
    unfold internal_error, ApiResponse.handleError, ApiResponse.errorResponse. eauto.
  - rewrite (signup_POST_valid P clock' _ req payload data Hb Hv).
    pose proof (findUnique_app_new table (new_user P table data) Hfree) as Hfind.
    cbn [new_user Prisma.email] in Hfind. rewrite Hfind.
    eexists. split; [reflexivity|]. split; reflexivity.
Qed.

Lemma signup_without_secret_keeps_the_row_witness :
  let P :=
    {| process_env := {["NODE_ENV" := "production"]};
       type_issues := en_invalid_type;
       jws_encode := ReferenceCodec.encode; jws_decode := ReferenceCodec.decode;
       hmac := ReferenceCodec.hmac; ms := ReferenceCodec.ms;
       bcrypt_hash := reference_hash;
       bcrypt_compare := fun password hash => String.eqb hash (reference_hash password 10);
       cuid := fun n => "user-" +:+ ReferenceCodec.unary n |} in
  let req := post "/api/auth/signup" (signup_body "Jo Doe" "Jo@Test.com" "Passw0rd!") in
  let data := [("name", "Jo Doe"); ("email", "jo@test.com"); ("password", "Passw0rd!")] in
  exists first,
    Signup.POST P sample_clock [] req = (([] ++ [new_user P [] data])%list, first)
    /\ (exists r, Signup.response P sample_clock first = Some r
                  /\ internal_error sample_clock r)
    /\ exists again,
        snd (Signup.POST P sample_clock ([] ++ [new_user P [] data]) req) = again
        /\ Signup.response P sample_clock again =
             Some (Json (ApiError (Signup.already_exists (Validators.field data "email"))
                                  "CONFLICT" 409 None (iso sample_clock)) 409)
        /\ fst (Signup.POST P sample_clock ([] ++ [new_user P [] data]) req)
           = ([] ++ [new_user P [] data])%list.
Proof.
  cbv zeta.
  apply (signup_without_secret_keeps_the_row
           _ sample_clock sample_clock []
           (post "/api/auth/signup" (signup_body "Jo Doe" "Jo@Test.com" "Passw0rd!"))
           (signup_body "Jo Doe" "Jo@Test.com" "Passw0rd!")
           [("name", "Jo Doe"); ("email", "jo@test.com"); ("password", "Passw0rd!")]);
    reflexivity.
Defined.

(** A body that is not JSON text makes [req.json()] throw, and the
    exception goes to the error funnel: login and signup answer with the
    internal-error envelope of status 500, not with a validation error,
    and the table is left as it was. *)
Theorem malformed_body_is_internal_error
        (P : Platform) (clock : Clock) (table : list Prisma.User) (req : NextRequest) :
  body req = None ->
  internal_error clock (Login.handler P clock table req)
  /\ exists task r,
      Signup.POST P clock table req = (table, task)
      /\ Signup.response P clock task = Some r
      /\ internal_error clock r.
Proof.
  intros Hb. unfold internal_error. split.
  - unfold Login.handler, withErrorHandling, Login.POST, req_json. rewrite Hb.
    cbn [bind try_catch].
    unfold ApiResponse.handleError, ApiResponse.errorResponse. eauto.
  - assert (Signup.step P clock table (Signup.Received req) =
              (table, Signup.Returned
                        (Throw (SyntaxError "Unexpected end of JSON input")))) as Hfirst
      by (unfold Signup.step, req_json; rewrite Hb; reflexivity).
    unfold Signup.POST. rewrite Hfirst.
    cbn [Signup.step]. eexists. eexists. split; [reflexivity|].
    cbn [Signup.response try_catch].
    unfold ApiResponse.handleError, ApiResponse.errorResponse. eauto.
Qed.

Lemma malformed_body_is_internal_error_witness :
  let req := {| headers := []; cookies := ∅; pathname := "/api/auth/login";
                body := None |} in
  internal_error sample_clock (Login.handler ReferencePlatform sample_clock [] req)
  /\ exists task r,
      Signup.POST ReferencePlatform sample_clock [] req = ([], task)
      /\ Signup.response ReferencePlatform sample_clock task = Some r
      /\ internal_error sample_clock r.
Proof.
  apply (malformed_body_is_internal_error ReferencePlatform sample_clock []).
  reflexivity.
Defined.

Lemma NoDup_snoc (l : list string) (x : string) :
  NoDup l -> ~ In x l -> NoDup (l ++ [x]).
Proof.
  intros Hl Hx. apply NoDup_app. split; [exact Hl|]. split.
  - intros y Hy Hin. apply list_elem_of_In in Hy, Hin.
    destruct Hin as [->|[]]. contradiction.
  - apply NoDup_singleton.
Qed.

Lemma step_keeps_emails_unique (P : Platform) (clock : Clock)
      (table : list Prisma.User) (t : Signup.Task) :
  NoDup (map Prisma.email table) ->
  NoDup (map Prisma.email (fst (Signup.step P clock table t)))
  /\ exists added, fst (Signup.step P clock table t) = (table ++ added)%list.
Proof.
  intros Hu.
  assert (table = (table ++ [])%list) as Hnil by (rewrite app_nil_r; reflexivity).
  destruct t as [req|n mail pw|n mail h|r]; cbn [Signup.step].
  - destruct (req_json req) as [payload|e]; [|simpl; eauto].
    destruct (Validators.validateInput _ _ payload); [|simpl; eauto].
    destruct (Prisma.findUnique table _); simpl; eauto.
  - simpl; eauto.
  - unfold Prisma.create.
    destruct (Prisma.findUnique table mail) eqn:Hf; [simpl; eauto|].
    cbn [fst]. split; [|eauto].
    rewrite map_app. simpl. apply NoDup_snoc; [exact Hu|].
    apply findUnique_None_not_In. exact Hf.
  - simpl; eauto.
Qed.

(** The user table keeps its emails unique and only grows. Whatever two
    signup tasks do and in whatever order their steps run, a table with
    pairwise distinct emails ends with pairwise distinct emails, and its
    rows are still there, in place, before the rows that were added. *)
Theorem signup_keeps_emails_unique
        (P : Platform) (clockA clockB : Clock) (schedule : list bool)
        (table : list Prisma.User) (a b : Signup.Task) :
  NoDup (map Prisma.email table) ->
  NoDup (map Prisma.email (fst (fst (Signup.run P clockA clockB schedule table a b))))
  /\ exists added,
      fst (fst (Signup.run P clockA clockB schedule table a b)) = (table ++ added)%list.
Proof.
  revert table a b.
  induction schedule as [|turn schedule IH]; intros table a b Hu.
  - simpl. split; [exact Hu|]. exists []. rewrite app_nil_r. reflexivity.
  - destruct turn; cbn [Signup.run].
    + destruct (step_keeps_emails_unique P clockA table a Hu) as [Hu1 [added1 Ha1]].
      destruct (Signup.step P clockA table a) as [table1 a1]. cbn [fst] in *.
      destruct (IH table1 a1 b Hu1) as [Hu2 [added2 Ha2]].
      split; [exact Hu2|]. exists (added1 ++ added2)%list.
      rewrite Ha2, Ha1, app_assoc. reflexivity.
    + destruct (step_keeps_emails_unique P clockB table b Hu) as [Hu1 [added1 Ha1]].
      destruct (Signup.step P clockB table b) as [table1 b1]. cbn [fst] in *.
      destruct (IH table1 a b1 Hu1) as [Hu2 [added2 Ha2]].
      split; [exact Hu2|]. exists (added1 ++ added2)%list.
      rewrite Ha2, Ha1, app_assoc. reflexivity.
Qed.

Lemma signup_keeps_emails_unique_witness :
  let reqA := post "/api/auth/signup" (signup_body "Jo Doe" "Jo@Test.com" "Passw0rd!") in
  let reqB := post "/api/auth/signup" (signup_body "Joe D" "jo@test.com" "S3cret!pw") in
  let final :=
    Signup.run ReferencePlatform sample_clock sample_clock
               [true; false; true; false; true; false] []
               (Signup.Received reqA) (Signup.Received reqB) in
  NoDup (map Prisma.email (fst (fst final)))
  /\ exists added, fst (fst final) = ([] ++ added)%list.
Proof.
  apply (signup_keeps_emails_unique
           ReferencePlatform sample_clock sample_clock
           [true; false; true; false; true; false] []).
  constructor.
Defined.

(** ** Pagination ([pagination.ts]) *)

Lemma parsePaginationParams_eq (searchParams : Pagination.SearchParams) :
  Pagination.parsePaginationParams searchParams =
    (Z.max 1 (default 1 (Pagination.parseInt
                           (Pagination.or_else (Pagination.get searchParams "page") "1"))),
     Z.min 100 (Z.max 1 (default 10 (Pagination.parseInt
                           (Pagination.or_else (Pagination.get searchParams "limit") "10"))))).
Proof.
  unfold Pagination.parsePaginationParams.
  destruct (Pagination.parseInt _), (Pagination.parseInt _); reflexivity.
Qed.

(** Whatever the query says, [parsePaginationParams] returns a page that
    is at least 1 and a limit between 1 and 100. A page or a limit that is
    missing, empty or not a number falls back to 1 and to 10; a number
    below 1 is raised to 1; a limit above 100 is lowered to 100. *)
Theorem parsePaginationParams_bounds (searchParams : Pagination.SearchParams) :
  let result := Pagination.parsePaginationParams searchParams in
  let sent name fallback :=
    Pagination.parseInt (Pagination.or_else (Pagination.get searchParams name) fallback) in
  1 <= fst result
  /\ 1 <= snd result <= 100
  /\ (sent "page" "1" = None -> fst result = 1)
  /\ (sent "limit" "10" = None -> snd result = 10)
  /\ (Pagination.get searchParams "page" = None -> fst result = 1)
  /\ (Pagination.get searchParams "limit" = None -> snd result = 10)
  /\ (Pagination.get searchParams "page" = Some "" -> fst result = 1)
  /\ (Pagination.get searchParams "limit" = Some "" -> snd result = 10)
  /\ (forall n, sent "page" "1" = Some n -> fst result = Z.max 1 n)
  /\ (forall n, sent "limit" "10" = Some n -> n < 1 -> snd result = 1)
  /\ (forall n, sent "limit" "10" = Some n -> 100 < n -> snd result = 100)
  /\ (forall n, sent "limit" "10" = Some n -> 1 <= n <= 100 -> snd result = n).
Proof.
  cbv zeta. rewrite parsePaginationParams_eq. cbn [fst snd].
  repeat split; try lia.
  - intros ->. reflexivity.
  - intros ->. reflexivity.
  - intros ->. reflexivity.
  - intros ->. reflexivity.
  - intros ->. reflexivity.
  - intros ->. reflexivity.
  - intros n ->. reflexivity.
  - intros n -> Hn. simpl. lia.
  - intros n -> Hn. simpl. lia.
  - intros n -> Hn. simpl. lia.
Qed.

Example parsePaginationParams_examples :
  Pagination.parsePaginationParams
    (Pagination.URLSearchParams [("page", "3"); ("limit", "25")]) = (3, 25)
  /\ Pagination.parsePaginationParams (Pagination.URLSearchParams []) = (1, 10)
  /\ Pagination.parsePaginationParams
       (Pagination.URLSearchParams [("page", "abc"); ("limit", "0")]) = (1, 1)
  /\ Pagination.parsePaginationParams
       (Pagination.URLSearchParams [("page", "-4"); ("limit", "5000")]) = (1, 100)
  /\ Pagination.parsePaginationParams
       (Pagination.URLSearchParams [("page", " 7px"); ("page", "9")]) = (7, 10)
  /\ Pagination.parsePaginationParams
       (Pagination.PlainObject {["page" := "2"; "limit" := "50"]}) = (2, 50).
Proof. repeat split. Qed.

Lemma small_digit_cases (d : Z) :
  0 <= d < 10 ->
  d = 0 \/ d = 1 \/ d = 2 \/ d = 3 \/ d = 4 \/ d = 5 \/ d = 6 \/ d = 7 \/ d = 8 \/ d = 9.
Proof. lia. Qed.

Lemma digit_value_digit (d : Z) :
  0 <= d < 10 ->
  Pagination.digit_value (ascii_of_N (Z.to_N (48 + d))) = Some d.
Proof.
  intros H. destruct (small_digit_cases d H) as [->|[->|[->|[->|[->|[->|[->|[->|[->| ->]]]]]]]]];
    reflexivity.
Qed.

Lemma read_digits_numeral (fuel : nat) :
  forall n, 0 <= n -> (Z.to_nat n < fuel)%nat ->
  exists m, forall after read,
    Pagination.read_digits (numeral_digits fuel n after) read =
      Pagination.read_digits after (Some (default 0 read * m + n)).
Proof.
  induction fuel as [|fuel IH]; intros n Hn Hfuel; [lia|].
  cbn [numeral_digits].
  assert (0 <= n mod 10 < 10) as Hd by (apply Z.mod_pos_bound; lia).
  destruct (Z.ltb_spec n 10) as [Hsmall|Hbig].
  - exists 10. intros after read. cbn [Pagination.read_digits].
    rewrite (digit_value_digit _ Hd). rewrite Z.mod_small by lia.
    f_equal. f_equal. lia.
  - assert (0 <= n / 10) as Hq by (apply Z.div_pos; lia).
    assert (n / 10 < n) as Hlt by (apply Z.div_lt; lia).
    destruct (IH (n / 10) Hq ltac:(lia)) as [m Hm].
    exists (10 * m). intros after read. rewrite Hm.
    cbn [Pagination.read_digits]. rewrite (digit_value_digit _ Hd).
    f_equal. f_equal. cbn [default]. unfold id.
    assert (n = 10 * (n / 10) + n mod 10) as Hdm by (apply Z.div_mod; discriminate).
    lia.
Qed.

Lemma numeral_digits_head (fuel : nat) :
  forall n after, 0 <= n ->
  exists d r, 0 <= d < 10
              /\ numeral_digits (S fuel) n after = String (ascii_of_N (Z.to_N (48 + d))) r.
Proof.
  induction fuel as [|fuel IH]; intros n after Hn;
    assert (0 <= n mod 10 < 10) as Hd by (apply Z.mod_pos_bound; lia).
  - cbn [numeral_digits]. destruct (n <? 10); eauto.
  - change (numeral_digits (S (S fuel)) n after)
      with (if n <? 10
            then String (ascii_of_N (Z.to_N (48 + n mod 10))) after
            else numeral_digits (S fuel) (n / 10)
                                (String (ascii_of_N (Z.to_N (48 + n mod 10))) after)).
    destruct (Z.ltb_spec n 10); [eauto|].
    apply IH. apply Z.div_pos; lia.
Qed.

Lemma parseInt_numeral (n : Z) :
  0 <= n -> Pagination.parseInt (numeral n) = Some n.
Proof.
  intros Hn. unfold numeral.
  destruct (Z.ltb_spec n 0) as [Hneg|_]; [lia|].
  destruct (read_digits_numeral (S (Z.to_nat n)) n Hn ltac:(lia)) as [m Hm].
  destruct (numeral_digits_head (Z.to_nat n) n "" Hn) as [d [r [Hd Hhead]]].
  assert (Pagination.parseInt (numeral_digits (S (Z.to_nat n)) n "") =
            Pagination.read_digits (numeral_digits (S (Z.to_nat n)) n "") None) as Hp.
  { rewrite Hhead.
    destruct (small_digit_cases d Hd)
      as [->|[->|[->|[->|[->|[->|[->|[->|[->| ->]]]]]]]]]; reflexivity. }
  rewrite Hp, Hm. cbn [Pagination.read_digits default]. unfold id. f_equal; lia.
Qed.

Lemma parseInt_or_else_numeral (k : Z) (fallback : string) :
  1 <= k ->
  Pagination.parseInt (Pagination.or_else (Some (numeral k)) fallback) = Some k.
Proof.
  intros Hk. unfold Pagination.or_else.
  destruct (numeral_digits_head (Z.to_nat k) k "" ltac:(lia)) as [d [r [_ Hhead]]].
  unfold numeral at 1. destruct (Z.ltb_spec k 0) as [Hneg|_]; [lia|].
  rewrite Hhead. cbn [Js.truthy].
  apply parseInt_numeral. lia.
Qed.

(** The page and the page size that the posts page prints into the query
    are read back by the route: for a page [n] and a size [m] that are at
    least 1 and within the safe range of the numbers, up to
    [Number.MAX_SAFE_INTEGER], the query [?page=n&limit=m] is parsed as
    the page [n] and the limit [m], lowered to 100 when [m] is larger.
    Beyond the safe range the source reads a rounded number. *)
Theorem parsePaginationParams_reads_numerals (n m : Z) :
  1 <= n <= Pagination.MAX_SAFE_INTEGER ->
  1 <= m <= Pagination.MAX_SAFE_INTEGER ->
  Pagination.parsePaginationParams (posts_query n m) = (n, Z.min 100 m).
Proof.
  intros [Hn _] [Hm _]. unfold posts_query. rewrite parsePaginationParams_eq.
  cbn [Pagination.get List.find fst snd String.eqb Ascii.eqb Bool.eqb option_map].
  rewrite (parseInt_or_else_numeral n "1" Hn), (parseInt_or_else_numeral m "10" Hm). cbn [default]. unfold id. f_equal; lia.
Qed.

Lemma parsePaginationParams_reads_numerals_witness :
  Pagination.parsePaginationParams (posts_query 12 250) = (12, Z.min 100 250).
Proof.
  apply (parsePaginationParams_reads_numerals 12 250);
    unfold Pagination.MAX_SAFE_INTEGER; lia.
Defined.

(** ** Pages of posts *)

Lemma ceil_div_bounds (a b : Z) :
  0 <= a -> 1 <= b ->
  a <= b * Pagination.ceil_div a b /\ b * (Pagination.ceil_div a b - 1) < a.
Proof.
  intros Ha Hb. unfold Pagination.ceil_div.
  assert (- a = b * (- a / b) + (- a) mod b) as Hdm by (apply Z.div_mod; lia).
  assert (0 <= (- a) mod b < b) as Hr by (apply Z.mod_pos_bound; lia).
  set (q := - a / b) in *. set (r := (- a) mod b) in *. split; nia.
Qed.

(** For a total that is not negative and a limit of at least 1,
    [calculatePagination] reports as [pages] the least number of pages of
    [limit] rows that hold [total] rows, and [hasMore] exactly when rows
    remain after the page. *)
Theorem calculatePagination_least_cover (total page limit : Z) :
  0 <= total -> 1 <= limit ->
  let m := Pagination.calculatePagination total page limit in
  total <= limit * Pagination.pages m
  /\ (forall k, total <= limit * k -> Pagination.pages m <= k)
  /\ (Pagination.hasMore m = true <-> page * limit < total).
Proof.
  intros Ht Hl. cbv zeta.
  unfold Pagination.calculatePagination.
  cbn [Pagination.pages Pagination.hasMore].
  destruct (ceil_div_bounds total limit Ht Hl) as [Hcover Hleast].
  set (pages := Pagination.ceil_div total limit) in *.
  split; [exact Hcover|]. split.
  - intros k Hk. nia.
  - rewrite Z.ltb_lt. split; intros H; nia.
Qed.

Lemma calculatePagination_least_cover_witness :
  let m := Pagination.calculatePagination 25 3 10 in
  25 <= 10 * Pagination.pages m
  /\ (forall k, 25 <= 10 * k -> Pagination.pages m <= k)
  /\ (Pagination.hasMore m = true <-> 3 * 10 < 25).
Proof. apply (calculatePagination_least_cover 25 3 10); lia. Defined.

Lemma include_author_integrity (users : list Prisma.User)
      (rows : list PostService.Post) :
  referential_integrity users rows ->
  exists found,
    PostService.include_author users rows = Ok found
    /\ map PostService.post found = rows.
Proof.
  unfold referential_integrity. induction rows as [|p rows IH]; intros H.
  - exists []. split; reflexivity.
  - inversion H as [|? ? Hp Hrows]; subst.
    destruct (IH Hrows) as [found [Hfound Hmap]].
    cbn [PostService.include_author].
    destruct (UserService.getUserById users (PostService.authorId p)) as [a|];
      [|contradiction].
    rewrite Hfound. cbn [bind].
    exists ({| PostService.post := p; PostService.author := a |} :: found).
    split; [reflexivity|]. cbn [map PostService.post]. now rewrite Hmap.
Qed.

Lemma include_author_Ok_inv (users : list Prisma.User) (p : PostService.Post)
      (rows : list PostService.Post) (found : list PostService.PostWithAuthor) :
  PostService.include_author users (p :: rows) = Ok found ->
  exists a others,
    UserService.getUserById users (PostService.authorId p) = Some a
    /\ PostService.include_author users rows = Ok others
    /\ found = {| PostService.post := p; PostService.author := a |} :: others.
Proof.
  cbn [PostService.include_author].
  destruct (UserService.getUserById users (PostService.authorId p)) as [a|];
    [|discriminate].
  destruct (PostService.include_author users rows) as [others|e]; [|discriminate].
  cbn [bind]. intros [= <-]. eauto.
Qed.

Lemma include_author_skipn (users : list Prisma.User) (n : nat) :
  forall rows found,
    PostService.include_author users rows = Ok found ->
    PostService.include_author users (skipn n rows) = Ok (skipn n found).
Proof.
  induction n as [|n IH]; intros rows found H; [exact H|].
  destruct rows as [|p rows].
  - cbn in H. injection H as <-. reflexivity.
  - apply include_author_Ok_inv in H as [a [others [_ [Hothers ->]]]].
    cbn [skipn]. now apply IH.
Qed.

Lemma include_author_firstn (users : list Prisma.User) (n : nat) :
  forall rows found,
    PostService.include_author users rows = Ok found ->
    PostService.include_author users (firstn n rows) = Ok (firstn n found).
Proof.
  induction n as [|n IH]; intros rows found H; [reflexivity|].
  destruct rows as [|p rows].
  - cbn in H. injection H as <-. reflexivity.
  - apply include_author_Ok_inv in H as [a [others [Ha [Hothers ->]]]].
    cbn [firstn PostService.include_author]. rewrite Ha.
    rewrite (IH _ _ Hothers). reflexivity.
Qed.

Lemma include_author_length (users : list Prisma.User) :
  forall rows found,
    PostService.include_author users rows = Ok found ->
    length found = length rows.
Proof.
  induction rows as [|p rows IH]; intros found H.
  - cbn in H. injection H as <-. reflexivity.
  - apply include_author_Ok_inv in H as [a [others [_ [Hothers ->]]]].
    cbn [length]. f_equal. now apply IH.
Qed.

(** The handler of [GET /api/posts] on a table whose rows all have an
    author: the page of the ordered rows. *)
Lemma getHandler_page (P : Platform)
      (orderBy : list PostService.Post -> list PostService.Post) (clock : Clock)
      (users : list Prisma.User) (posts : list PostService.Post)
      (all : list PostService.PostWithAuthor)
      (searchParams : Pagination.SearchParams) :
  PostService.include_author users (orderBy posts) = Ok all ->
  Posts.getHandler P orderBy clock users posts searchParams =
    let (page, limit) := Pagination.parsePaginationParams searchParams in
    Posts.Paginated (map PostService.to_json (page_of all page limit))
                    (Pagination.calculatePagination (Z.of_nat (length posts)) page limit)
                    "Operation completed successfully" (iso clock) 200.
Proof.
  intros Hall. unfold Posts.getHandler, Posts.GET, PostService.getAllPosts.
  destruct (Pagination.parsePaginationParams searchParams) as [page limit].
  rewrite (include_author_firstn _ _ _ _ (include_author_skipn _ _ _ _ Hall)).
  reflexivity.
Qed.

Lemma include_author_own (users : list Prisma.User) :
  forall rows found,
    PostService.include_author users rows = Ok found ->
    Forall (own_author users) found.
Proof.
  induction rows as [|p rows IH]; intros found H.
  - cbn in H. injection H as <-. constructor.
  - apply include_author_Ok_inv in H as [a [others [Ha [Hothers ->]]]].
    constructor; [exact Ha | now apply IH].
Qed.

Section PostsPages.
Variable P : Platform.
Variable orderBy : list PostService.Post -> list PostService.Post.
Variable clock : Clock.
Variable users : list Prisma.User.
Variable posts : list PostService.Post.

(** The store orders the rows of the table: it neither drops nor
    repeats one. *)
Hypothesis orderBy_permutes : forall rows, Permutation (orderBy rows) rows.
Hypothesis integrity : referential_integrity users posts.

Lemma ordered_with_authors :
  exists all,
    PostService.include_author users (orderBy posts) = Ok all
    /\ map PostService.post all = orderBy posts
    /\ length all = length posts
    /\ Forall (own_author users) all.
Proof.
  destruct (include_author_integrity users (orderBy posts)) as [all [Hall Hmap]].
  { unfold referential_integrity in *.
    rewrite Forall_forall in *. intros p Hp. apply integrity.
    now rewrite <- (orderBy_permutes posts). }
  exists all. split; [exact Hall|]. split; [exact Hmap|]. split.
  - rewrite (include_author_length _ _ _ Hall).
    apply Permutation_length, orderBy_permutes.
  - exact (include_author_own _ _ _ Hall).
Qed.

(** For every query whose rows to skip fit the integers of the store,
    [GET /api/posts] answers with status 200 and the paginated envelope.
    Its rows are the window of the ordered table that the parsed page
    and limit select, and each row carries its own author, the user
    whose id is the [authorId] of the post; there are at most [limit] of
    them, and [limit] is at most 100; [total] is the number of rows in
    the table; and [hasMore] is set exactly when rows of the table remain
    after the last row of this page. Beyond this range the model does
    not follow the source: the store refuses a number that does not fit
    its integers, and the source reads a page beyond
    [Number.MAX_SAFE_INTEGER] as a rounded number or as an infinity. *)
Theorem posts_GET_serves_the_window (searchParams : Pagination.SearchParams) :
  skip_of searchParams <= MAX_INT ->
  exists found m,
    Posts.getHandler P orderBy clock users posts searchParams =
      Posts.Paginated (map PostService.to_json found) m
                      "Operation completed successfully" (iso clock) 200
    /\ (Pagination.page m, Pagination.limit m) =
         Pagination.parsePaginationParams searchParams
    /\ map PostService.post found =
         page_of (orderBy posts) (Pagination.page m) (Pagination.limit m)
    /\ Forall (own_author users) found
    /\ Z.of_nat (length found) <= Pagination.limit m <= 100
    /\ Pagination.total m = Z.of_nat (length posts)
    /\ (Pagination.hasMore m = true <->
        Pagination.calculateSkip (Pagination.page m) (Pagination.limit m)
          + Z.of_nat (length found) < Pagination.total m).
Proof.
  intros _.
  destruct ordered_with_authors as [all [Hall [Hmap [Hlen Hown]]]].
  rewrite (getHandler_page _ _ _ _ _ _ searchParams Hall).
  rewrite parsePaginationParams_eq.
  set (page := Z.max 1 _). set (limit := Z.min 100 _).
  assert (1 <= page) as Hpage by (unfold page; lia).
  assert (1 <= limit <= 100) as Hlimit by (unfold limit; lia).
  exists (page_of all page limit),
         (Pagination.calculatePagination (Z.of_nat (length posts)) page limit).
  cbn [Pagination.calculatePagination Pagination.page Pagination.limit
       Pagination.total Pagination.hasMore].
  split; [reflexivity|]. split; [reflexivity|].
  assert (length (page_of all page limit) =
            Nat.min (Z.to_nat limit)
                    (length posts - Z.to_nat (Pagination.calculateSkip page limit)))
    as Hwindow.
  { unfold page_of. rewrite length_take, length_drop, Hlen. reflexivity. }
  split.
  { unfold page_of. rewrite <- Hmap.
    rewrite <- firstn_map, <- skipn_map. reflexivity. }
  split; [unfold page_of; apply Forall_take, Forall_drop, Hown|].
  split; [rewrite Hwindow; lia|]. split; [reflexivity|].
  destruct (ceil_div_bounds (Z.of_nat (length posts)) limit ltac:(lia) ltac:(lia))
    as [Hcover Hleast].
  set (pages := Pagination.ceil_div (Z.of_nat (length posts)) limit) in *.
  rewrite Hwindow, Z.ltb_lt. unfold Pagination.calculateSkip in *.
  split; intros H; nia.
Qed.

End PostsPages.

Lemma insert_by_date_permutes (p : PostService.Post) (rows : list PostService.Post) :
  Permutation (insert_by_date p rows) (p :: rows).
Proof.
  induction rows as [|q rows IH]; [reflexivity|].
  cbn [insert_by_date].
  destruct (now (PostService.createdAt q) <? now (PostService.createdAt p));
    [reflexivity|].
  rewrite IH. apply perm_swap.
Qed.

Lemma newest_first_permutes (rows : list PostService.Post) :
  Permutation (newest_first rows) rows.
Proof.
  induction rows as [|p rows IH]; [reflexivity|].
  unfold newest_first in *. cbn [fold_right].
  rewrite insert_by_date_permutes. now apply perm_skip.
Qed.

Lemma sample_integrity : referential_integrity sample_users sample_posts.
Proof. repeat constructor; discriminate. Qed.

Lemma posts_GET_serves_the_window_witness :
  exists found m,
    Posts.getHandler ReferencePlatform newest_first sample_clock
                     sample_users sample_posts (posts_query 2 2) =
      Posts.Paginated (map PostService.to_json found) m
                      "Operation completed successfully" (iso sample_clock) 200
    /\ (Pagination.page m, Pagination.limit m) =
         Pagination.parsePaginationParams (posts_query 2 2)
    /\ map PostService.post found =
         page_of (newest_first sample_posts) (Pagination.page m) (Pagination.limit m)
    /\ Forall (own_author sample_users) found
    /\ Z.of_nat (length found) <= Pagination.limit m <= 100
    /\ Pagination.total m = Z.of_nat (length sample_posts)
    /\ (Pagination.hasMore m = true <->
        Pagination.calculateSkip (Pagination.page m) (Pagination.limit m)
          + Z.of_nat (length found) < Pagination.total m).
Proof.
  apply (posts_GET_serves_the_window ReferencePlatform newest_first sample_clock
           sample_users sample_posts newest_first_permutes sample_integrity
           (posts_query 2 2)).
  vm_compute. discriminate.
Defined.

Lemma pages_concat {A : Type} (m : nat) :
  (1 <= m)%nat ->
  forall (n : nat) (l : list A),
    (length l <= n * m)%nat ->
    concat (map (fun k => firstn m (skipn (k * m) l)) (seq 0 n)) = l.
Proof.
  intros Hm. induction n as [|n IH]; intros l Hl.
  - destruct l; [reflexivity | cbn in Hl; lia].
  - cbn [seq map concat]. rewrite <- seq_shift, map_map.
    cbn [Nat.mul skipn].
    rewrite (map_ext _ (fun k => firstn m (skipn (k * m) (skipn m l)))).
    + rewrite IH; [apply firstn_skipn|]. rewrite length_drop. lia.
    + intros k. rewrite skipn_skipn. f_equal. f_equal. lia.
Qed.

(** Rows of pairwise different dates have one order newest first. *)
Lemma same_date_same_row (rows : list PostService.Post) (p q : PostService.Post) :
  List.NoDup (map date rows) -> In p rows -> In q rows -> date p = date q -> p = q.
Proof.
  induction rows as [|r rows IH]; [contradiction|].
  cbn [map]. intros Hnd Hp Hq Hdate.
  inversion Hnd as [|? ? Hnotin Hrest]; subst.
  destruct Hp as [->|Hp], Hq as [->|Hq].
  - reflexivity.
  - exfalso. apply Hnotin. rewrite Hdate. now apply in_map.
  - exfalso. apply Hnotin. rewrite <- Hdate. now apply in_map.
  - now apply IH.
Qed.

Lemma by_date_desc_unique (l1 : list PostService.Post) :
  forall l2,
    Permutation l1 l2 -> List.NoDup (map date l1) ->
    by_date_desc l1 -> by_date_desc l2 -> l1 = l2.
Proof.
  induction l1 as [|p r1 IH]; intros l2 Hperm Hnd H1 H2.
  - apply Permutation_nil in Hperm. now subst.
  - destruct l2 as [|q r2];
      [apply Permutation_sym, Permutation_nil in Hperm; discriminate|].
    assert (In q (p :: r1)) as Hq
        by (apply (Permutation_in _ (Permutation_sym Hperm)); now left).
    assert (In p (q :: r2)) as Hp by (apply (Permutation_in _ Hperm); now left).
    destruct H1 as [Hle1 Hs1], H2 as [Hle2 Hs2].
    assert (date q <= date p) as Hqp.
    { destruct Hq as [<-|Hq]; [lia|].
      rewrite List.Forall_forall in Hle1. now apply Hle1. }
    assert (date p <= date q) as Hpq.
    { destruct Hp as [<-|Hp]; [lia|].
      rewrite List.Forall_forall in Hle2. now apply Hle2. }
    assert (p = q) as <-.
    { apply (same_date_same_row (p :: r1)); auto; [now left | lia]. }
    f_equal. apply IH; auto.
    + now apply Permutation_cons_inv in Hperm.
    + cbn [map] in Hnd. now inversion Hnd.
Qed.

Section PostsPartition.
Variable P : Platform.
(** The order that the store gives to the rows at the query of each
    page. *)
Variable orderBy : nat -> list PostService.Post -> list PostService.Post.
Variable clock : Clock.
Variable users : list Prisma.User.
Variable posts : list PostService.Post.

Hypothesis orderBy_permutes : forall k rows, Permutation (orderBy k rows) rows.
Hypothesis orderBy_sorts : forall k rows, by_date_desc (orderBy k rows).
(** No two posts were created at the same date. *)
Hypothesis distinct_dates : List.NoDup (map date posts).
Hypothesis integrity : referential_integrity users posts.

Lemma one_order (k : nat) : orderBy k posts = orderBy 0%nat posts.
Proof.
  apply by_date_desc_unique; auto.
  - rewrite orderBy_permutes. symmetry. apply orderBy_permutes.
  - apply (Permutation_NoDup (l := map date posts)); [|exact distinct_dates].
    apply Permutation_map. symmetry. apply orderBy_permutes.
Qed.

(** The pages of the posts listing partition the table, when no two
    posts have the same date. The store orders the rows anew at each
    query, by date only; with pairwise different dates every query sees
    the same order. Then, for a page size between 1 and 100, a table
    within the integers of the store, and as long as the table does not
    change, the rows of the answers to the queries for the pages 1 to
    [pages], one after the other, are the rows of the table, each row
    once, newest first, and each with its own author. With two posts of
    the same date the store may order them differently from one query to
    the next, and a row may then come twice or not at all. *)
Theorem posts_pages_partition (limit : Z) :
  1 <= limit <= 100 ->
  Z.of_nat (length posts) <= MAX_INT ->
  exists all,
    Permutation (map PostService.post all) posts
    /\ by_date_desc (map PostService.post all)
    /\ Forall (own_author users) all
    /\ concat
         (map (fun k =>
                 page_data (Posts.getHandler P (orderBy k) clock users posts
                                             (posts_query (Z.of_nat k) limit)))
              (seq 1 (Z.to_nat
                        (Pagination.pages
                           (Pagination.calculatePagination
                              (PostService.getPostCount posts) 1 limit)))))
       = map PostService.to_json all.
Proof.
  intros Hlimit _.
  destruct (ordered_with_authors (orderBy 0%nat) users posts
              (orderBy_permutes 0%nat) integrity)
    as [all [Hall [Hmap [Hlen Hown]]]].
  exists all. split; [rewrite Hmap; apply orderBy_permutes|].
  split; [rewrite Hmap; apply orderBy_sorts|]. split; [exact Hown|].
  cbn [Pagination.calculatePagination Pagination.pages]. unfold PostService.getPostCount.
  destruct (ceil_div_bounds (Z.of_nat (length posts)) limit ltac:(lia) ltac:(lia))
    as [Hcover _].
  set (pages := Pagination.ceil_div (Z.of_nat (length posts)) limit) in *.
  rewrite <- seq_shift, map_map.
  rewrite (map_ext _ (fun k => map PostService.to_json
                                   (firstn (Z.to_nat limit)
                                           (skipn (k * Z.to_nat limit) all)))).
  - rewrite <- (map_map (fun k => firstn (Z.to_nat limit)
                                         (skipn (k * Z.to_nat limit) all))
                        (map PostService.to_json)).
    rewrite <- concat_map. f_equal. apply pages_concat; [lia|]. rewrite Hlen. nia.
  - intros k.
    assert (PostService.include_author users (orderBy (S k) posts) = Ok all) as Hk
        by (rewrite one_order; exact Hall).
    rewrite (getHandler_page _ _ _ _ _ _ _ Hk).
    unfold posts_query. rewrite parsePaginationParams_eq.
    cbn [Pagination.get List.find fst snd String.eqb Ascii.eqb Bool.eqb option_map].
    rewrite !parseInt_or_else_numeral by lia. cbn [default]. unfold id.
    rewrite Z.max_r, Z.max_r, Z.min_r by lia.
    cbn [page_data]. unfold page_of, Pagination.calculateSkip. do 3 f_equal. lia.
Qed.

End PostsPartition.

Lemma insert_by_date_sorts (p : PostService.Post) (rows : list PostService.Post) :
  by_date_desc rows -> by_date_desc (insert_by_date p rows).
Proof.
  induction rows as [|q rows IH]; intros Hs.
  - cbn. split; constructor.
  - cbn [insert_by_date]. destruct Hs as [Hle Hs].
    fold (date q). fold (date p).
    destruct (Z.ltb_spec (date q) (date p)) as [Hlt|Hge].
    + split; [|split; assumption].
      constructor; [lia|].
      apply (List.Forall_impl (P := fun r => date r <= date q)); [intros r Hr; lia|].
      exact Hle.
    + split; [|now apply IH].
      apply (Permutation_Forall (Permutation_sym (insert_by_date_permutes p rows))).
      constructor; [lia | exact Hle].
Qed.

Lemma newest_first_sorts (rows : list PostService.Post) :
  by_date_desc (newest_first rows).
Proof.
  induction rows as [|p rows IH]; [exact I|].
  unfold newest_first in *. cbn [fold_right]. now apply insert_by_date_sorts.
Qed.

Lemma sample_dates_differ : List.NoDup (map date sample_posts).
Proof.
  repeat (apply List.NoDup_cons; [cbn; intros H; intuition discriminate|]).
  constructor.
Qed.

Lemma posts_pages_partition_witness :
  exists all,
    Permutation (map PostService.post all) sample_posts
    /\ by_date_desc (map PostService.post all)
    /\ Forall (own_author sample_users) all
    /\ concat
         (map (fun k =>
                 page_data (Posts.getHandler ReferencePlatform newest_first
                                             sample_clock sample_users sample_posts
                                             (posts_query (Z.of_nat k) 2)))
              (seq 1 (Z.to_nat
                        (Pagination.pages
                           (Pagination.calculatePagination
                              (PostService.getPostCount sample_posts) 1 2)))))
       = map PostService.to_json all.
Proof.
  apply (posts_pages_partition ReferencePlatform (fun _ => newest_first) sample_clock
           sample_users sample_posts
           (fun _ => newest_first_permutes) (fun _ => newest_first_sorts)
           sample_dates_differ sample_integrity 2).
  - lia.
  - unfold sample_posts, MAX_INT. cbn [length]. lia.
Defined.

(** ** Creating a post *)

Lemma enum_parseShape_members (type_issues : string -> option json -> list string)
      (invalid_value : list string -> option json -> string)
      (shape : ZodEnum.ZodObject) (input : list (string * json)) :
  let parsed ks :=
    ZodEnum.parseMember type_issues invalid_value (snd ks) (Zod.member input (fst ks)) in
  ZodEnum.parseShape type_issues invalid_value shape input =
    (forallb (fun ks => match fst (parsed ks) with Some _ => true | None => false end)
             shape,
     flat_map (fun ks => match fst (parsed ks) with
                         | Some v => [(fst ks, v)]
                         | None => []
                         end) shape,
     flat_map (fun ks => map (fun m => {| Zod.path := [fst ks]; Zod.message := m |})
                             (snd (parsed ks))) shape).
Proof.
  cbv zeta. induction shape as [|[key schema] rest IH]; [reflexivity|].
  cbn [ZodEnum.parseShape forallb flat_map fst snd]. rewrite IH.
  destruct (ZodEnum.parseMember type_issues invalid_value schema (Zod.member input key))
    as [[v|] ms]; reflexivity.
Qed.

(** A schema of string members is read as the object schemas of the
    other routes are. *)
Lemma enum_parseShape_of_strings (type_issues : string -> option json -> list string)
      (invalid_value : list string -> option json -> string)
      (shape : Zod.ZodObject) (input : list (string * json)) :
  ZodEnum.parseShape type_issues invalid_value
                     (map (fun ks => (fst ks, ZodEnum.OfString (snd ks))) shape) input
  = Zod.parseShape type_issues shape input.
Proof.
  induction shape as [|[key schema] rest IH]; [reflexivity|].
  cbn [map fst snd ZodEnum.parseShape Zod.parseShape ZodEnum.parseMember].
  now rewrite IH.
Qed.

Lemma parseMember_string_inv (type_issues : string -> option json -> list string)
      (invalid_value : list string -> option json -> string)
      (schema : ZodEnum.member_schema) (v : option json) :
  match fst (ZodEnum.parseMember type_issues invalid_value schema v) with
  | Some _ => true
  | None => false
  end = true ->
  exists s, v = Some (JStr s).
Proof.
  destruct schema as [checks|values], v as [[| | |s| |]|];
    cbn [ZodEnum.parseMember ZodEnum.parseEnum Zod.parseString fst];
    try discriminate; eauto.
Qed.

Lemma runChecks_min_max (lo hi : nat) (m1 m2 s : string) :
  exists messages,
    Zod.runChecks [Zod.Min lo m1; Zod.Max hi m2] s [] = (s, messages)
    /\ (messages = [] <->
        ((lo <=? String.length s)%nat && (String.length s <=? hi)%nat) = true).
Proof.
  cbn [Zod.runChecks].
  destruct (Nat.ltb_spec (String.length s) lo) as [H1|H1],
           (Nat.ltb_spec hi (String.length s)) as [H2|H2];
    eexists; (split; [reflexivity|]); cbn [app];
    rewrite andb_true_iff, !Nat.leb_le; split; intros H;
    try discriminate; try lia; reflexivity.
Qed.

Lemma parseEnum_values (invalid_value : list string -> option json -> string)
      (values : list string) (s : string) :
  ZodEnum.parseEnum invalid_value values (Some (JStr s)) =
    if List.existsb (String.eqb s) values then (Some s, [])
    else (None, [invalid_value values (Some (JStr s))]).
Proof. reflexivity. Qed.

Lemma createPost_validation (type_issues : string -> option json -> list string)
      (invalid_value : list string -> option json -> string)
      (payload : json) (data : list (string * string)) :
  ZodEnum.validateInput type_issues invalid_value ZodEnum.createPostSchema payload
    = Validators.Success data
  <->
  exists members t d ty c,
    payload = JObj members
    /\ Zod.member members "title" = Some (JStr t)
    /\ Zod.member members "description" = Some (JStr d)
    /\ Zod.member members "type" = Some (JStr ty)
    /\ Zod.member members "category" = Some (JStr c)
    /\ valid_post t d ty c = true
    /\ data = [("title", t); ("description", d); ("type", ty); ("category", c)].
Proof.
  unfold ZodEnum.validateInput, ZodEnum.safeParse, valid_post. split.
  - destruct payload as [| | | | |members]; try discriminate.
    rewrite enum_parseShape_members. cbv zeta.
    destruct (forallb _ ZodEnum.createPostSchema) eqn:Hok;
      [|destruct (flat_map _ _); discriminate].
    match goal with
    | |- context [match ?issues with [] => _ | _ :: _ => _ end] =>
        destruct issues eqn:Hissues; [|discriminate]
    end.
    intros [= <-].
    cbn [forallb ZodEnum.createPostSchema fst snd] in Hok.
    apply andb_prop in Hok as [Ht Hok]. apply andb_prop in Hok as [Hd Hok].
    apply andb_prop in Hok as [Hty Hok]. apply andb_prop in Hok as [Hc _].
    apply parseMember_string_inv in Ht as [t Ht], Hd as [d Hd],
          Hty as [ty Hty], Hc as [c Hc].
    exists members, t, d, ty, c.
    unfold ZodEnum.createPostSchema in *.
    cbn [flat_map fst snd ZodEnum.postTypeSchema ZodEnum.categorySchema] in *.
    rewrite Ht, Hd, Hty, Hc in *.
    unfold ZodEnum.postTypeSchema, ZodEnum.categorySchema in *.
    cbn [ZodEnum.parseMember Zod.parseString] in *.
    rewrite !parseEnum_values in *.
    destruct (runChecks_min_max 5 200 "Title must be at least 5 characters long"
                "Title must be at most 200 characters long" t) as [mt [Hrt Hvt]].
    destruct (runChecks_min_max 10 5000 "Description must be at least 10 characters long"
                "Description must be at most 5000 characters long" d) as [md [Hrd Hvd]].
    rewrite Hrt, Hrd in *. cbn [fst snd] in *.
    apply app_eq_nil in Hissues as [Hi1 Hissues].
    apply app_eq_nil in Hissues as [Hi2 Hissues].
    apply app_eq_nil in Hissues as [Hi3 Hissues].
    apply app_eq_nil in Hissues as [Hi4 _].
    apply map_eq_nil in Hi1, Hi2.
    apply Hvt in Hi1. apply Hvd in Hi2.
    destruct (List.existsb (String.eqb ty) ["offer"; "request"]);
      [|cbn in Hi3; discriminate].
    destruct (List.existsb (String.eqb c) _); [|cbn in Hi4; discriminate].
    apply andb_prop in Hi1 as [Hi1 Hi1'], Hi2 as [Hi2 Hi2'].
    rewrite Hi1, Hi1', Hi2, Hi2'. repeat split; reflexivity.
  - intros [members [t [d [ty [c [-> [Ht [Hd [Hty [Hc [Hv ->]]]]]]]]]]].
    rewrite enum_parseShape_members. unfold ZodEnum.createPostSchema.
    cbn [forallb flat_map fst snd ZodEnum.postTypeSchema ZodEnum.categorySchema].
    rewrite Ht, Hd, Hty, Hc.
    unfold ZodEnum.postTypeSchema, ZodEnum.categorySchema.
    cbn [ZodEnum.parseMember Zod.parseString].
    rewrite !parseEnum_values.
    apply andb_prop in Hv as [Hv Hv6]. apply andb_prop in Hv as [Hv Hv5].
    apply andb_prop in Hv as [Hv Hv4]. apply andb_prop in Hv as [Hv Hv3].
    destruct (runChecks_min_max 5 200 "Title must be at least 5 characters long"
                "Title must be at most 200 characters long" t) as [mt [Hrt Hvt]].
    destruct (runChecks_min_max 10 5000 "Description must be at least 10 characters long"
                "Description must be at most 5000 characters long" d) as [md [Hrd Hvd]].
    rewrite Hrt, Hrd, Hv5, Hv6. cbn [fst snd].
    apply Hvt in Hv. subst mt.
    assert (md = []) as -> by (apply Hvd; now rewrite Hv3, Hv4).
    reflexivity.
Qed.

Lemma authenticateRequest_outcome
      (decode : string -> option Jwt.Jws)
      (hmac : string -> string -> string -> string)
      (env : Env.env) (req : NextRequest) (now : Z) :
  (exists p, Auth.authenticateRequest decode hmac env req now =
               {| Auth.success := true; Auth.user := Some p; Auth.error := None |})
  \/ (exists m, In m authentication_errors /\ Js.truthy m = true
                /\ Auth.authenticateRequest decode hmac env req now =
                     {| Auth.success := false; Auth.user := None;
                        Auth.error := Some m |}).
Proof.
  unfold Auth.authenticateRequest, authentication_errors.
  destruct (Auth.extractToken req) as [[|c token]|];
    cbn [Js.truthy_opt Js.truthy negb]; cbv iota.
  - right. eexists. (split; [|split; [|reflexivity]]); [simpl; auto | reflexivity].
  - rewrite verifyToken_cases.
    destruct (Env.JWT_SECRET env) as [|k secret].
    + right. eexists. (split; [|split; [|reflexivity]]); [simpl; auto | reflexivity].
    + destruct (Jwt.verify decode hmac (String c token) (String k secret) now)
        as [p|e] eqn:Hv.
      * left. eauto.
      * apply verify_Throw_inv in Hv as [[m|] ->];
          right; eexists; (split; [|split; [|reflexivity]]);
          [simpl; auto | reflexivity | simpl; auto | reflexivity].
  - right. eexists. (split; [|split; [|reflexivity]]); [simpl; auto | reflexivity].
Qed.

Lemma handleError_envelope (process_env : gmap string string) (timestamp : string)
      (e : exn) (context : option string) :
  exists details,
    ApiResponse.handleError process_env timestamp e context =
      Json (ApiError "An error occurred while processing your request"
                     "INTERNAL_ERROR" 500 details timestamp) 500.
Proof.
  unfold ApiResponse.handleError, ApiResponse.errorResponse.
  destruct (ApiResponse.is_development process_env); eauto.
Qed.

Lemma validationErrorResponse_envelope (process_env : gmap string string)
      (timestamp : string) (errors : list (string * string)) :
  exists details,
    ApiResponse.validationErrorResponse process_env timestamp errors =
      Json (ApiError "Invalid input data" "VALIDATION_ERROR" 400 details timestamp) 400.
Proof.
  unfold ApiResponse.validationErrorResponse, ApiResponse.errorResponse.
  destruct (ApiResponse.is_development process_env); eauto.
Qed.

Section CreatePost.
Variable P : Platform.
Variable invalid_value : list string -> option json -> string.
Variable orderBy : list PostService.Post -> list PostService.Post.
Variable clock stored : Clock.
Variable users : list Prisma.User.
Variable posts : list PostService.Post.
Variable req : NextRequest.

Lemma postHandler_unauthenticated (m : string) :
  Js.truthy m = true ->
  authenticated P clock req =
    {| Auth.success := false; Auth.user := None; Auth.error := Some m |} ->
  Posts.postHandler P invalid_value clock stored users posts req =
    (posts, Json (ApiError m "UNAUTHORIZED" 401 None (iso clock)) 401).
Proof.
  unfold authenticated, Posts.postHandler, Posts.POST. intros Hm ->.
  cbn [Auth.success Auth.error negb Js.truthy_opt default]. rewrite Hm.
  cbn [try_catch]. now rewrite unauthorizedResponse_envelope.
Qed.

Lemma postHandler_authenticated (p : Jwt.JwtPayload) :
  authenticated P clock req =
    {| Auth.success := true; Auth.user := Some p; Auth.error := None |} ->
  Posts.postHandler P invalid_value clock stored users posts req =
    match body req with
    | None =>
        (posts, ApiResponse.handleError (process_env P) (iso clock)
                  (SyntaxError "Unexpected end of JSON input") (Some "CREATE_POST"))
    | Some payload =>
        match ZodEnum.validateInput (type_issues P) invalid_value
                                    ZodEnum.createPostSchema payload with
        | Validators.Failure errors =>
            (posts, ApiResponse.validationErrorResponse (process_env P) (iso clock) errors)
        | Validators.Success data =>
            match UserService.getUserById users (Jwt.id p) with
            | None =>
                (posts,
                 ApiResponse.handleError (process_env P) (iso clock)
                   (PrismaClientKnownRequestError
                      "P2003"
                      "Foreign key constraint failed on the field: `Post_authorId_fkey (index)`")
                   (Some "CREATE_POST"))
            | Some a =>
                let row := new_post P stored posts
                                    (Validators.field data "title")
                                    (Validators.field data "description")
                                    (Validators.field data "type")
                                    (Validators.field data "category")
                                    (Jwt.id p) in
                ((posts ++ [row])%list,
                 Json (ApiSuccess
                         (PostService.to_json
                            {| PostService.post := row; PostService.author := a |})
                         "Post created successfully" (iso clock)) 201)
            end
        end
    end.
Proof.
  unfold authenticated, Posts.postHandler, Posts.POST, req_json. intros ->.
  cbn [Auth.success Auth.user negb].
  destruct (body req) as [payload|]; [|reflexivity].
  destruct (ZodEnum.validateInput _ _ _ payload) as [data|errors]; [|reflexivity].
  unfold PostService.createPost.
  destruct (UserService.getUserById users (Jwt.id p)) as [a|]; reflexivity.
Qed.

(** Only an authenticated request reaches the body. When the request
    bears no token that verifies, [POST /api/posts] answers with status
    401, the code [UNAUTHORIZED] and one of the four messages of
    [authenticateRequest], never the default message; the table is left
    as it was, and the body is not read: the answer is the same for a
    body that is not JSON and for a payload that would not validate. *)
Theorem posts_POST_requires_authentication :
  Auth.success (authenticated P clock req) = false ->
  exists m,
    In m authentication_errors
    /\ m <> ERROR_MESSAGES.UNAUTHORIZED
    /\ Posts.postHandler P invalid_value clock stored users posts req =
         (posts, Json (ApiError m "UNAUTHORIZED" 401 None (iso clock)) 401).
Proof.
  intros Hfail.
  destruct (authenticateRequest_outcome (jws_decode P) (hmac P)
              (Env.load (process_env P)) req (now clock))
    as [[p Hp]|[m [Hin [Hm Hr]]]].
  - unfold authenticated in Hfail. rewrite Hp in Hfail. discriminate.
  - exists m. split; [exact Hin|]. split.
    + unfold authentication_errors in Hin. simpl in Hin.
      destruct Hin as [<-|[<-|[<-|[<-|[]]]]]; discriminate.
    + now apply postHandler_unauthenticated.
Qed.

(** The answers of [POST /api/posts] with a success envelope are exactly
    the creations. The handler answers with a success envelope if and
    only if the request is authenticated, its body is an object whose
    members [title], [description], [type] and [category] are strings
    within the rules of the schema, and the subject of the token has a row
    in the table of users. The answer then has status 201, and the table
    has one more row, at its end: the four members as sent, the status
    [active], the dates of the store, and as author the subject of the
    token. Nothing else of the body reaches the row: an [authorId], an
    [id] or a [status] in the payload is dropped. *)
Theorem posts_POST_creates_exactly
        (posts' : list PostService.Post) (data : json)
        (message timestamp : string) (status : Z) :
  Posts.postHandler P invalid_value clock stored users posts req =
    (posts', Json (ApiSuccess data message timestamp) status)
  <->
  exists p members t d ty c a,
    authenticated P clock req =
      {| Auth.success := true; Auth.user := Some p; Auth.error := None |}
    /\ body req = Some (JObj members)
    /\ Zod.member members "title" = Some (JStr t)
    /\ Zod.member members "description" = Some (JStr d)
    /\ Zod.member members "type" = Some (JStr ty)
    /\ Zod.member members "category" = Some (JStr c)
    /\ valid_post t d ty c = true
    /\ UserService.getUserById users (Jwt.id p) = Some a
    /\ posts' = (posts ++ [new_post P stored posts t d ty c (Jwt.id p)])%list
    /\ data = PostService.to_json
                {| PostService.post := new_post P stored posts t d ty c (Jwt.id p);
                   PostService.author := a |}
    /\ message = "Post created successfully"
    /\ timestamp = iso clock
    /\ status = 201.
Proof.
  split.
  - intros H.
    destruct (authenticateRequest_outcome (jws_decode P) (hmac P)
                (Env.load (process_env P)) req (now clock))
      as [[p Hp]|[m [Hin [Hm Hr]]]].
    2:{ rewrite (postHandler_unauthenticated m Hm Hr) in H. discriminate. }
    rewrite (postHandler_authenticated p Hp) in H.
    destruct (body req) as [payload|] eqn:Hbody.
    2:{ destruct (handleError_envelope (process_env P) (iso clock)
                    (SyntaxError "Unexpected end of JSON input") (Some "CREATE_POST"))
          as [details Hd]. rewrite Hd in H. discriminate. }
    destruct (ZodEnum.validateInput _ _ _ payload) as [typed|errors] eqn:Hv.
    2:{ destruct (validationErrorResponse_envelope (process_env P) (iso clock) errors)
          as [details Hd]. rewrite Hd in H. discriminate. }
    apply createPost_validation in Hv
      as [members [t [d [ty [c [-> [Ht [Hde [Hty [Hc [Hvalid ->]]]]]]]]]]].
    destruct (UserService.getUserById users (Jwt.id p)) as [a|] eqn:Ha.
    2:{ match type of H with
        | (_, ApiResponse.handleError ?env ?ts ?e ?ctx) = _ =>
            destruct (handleError_envelope env ts e ctx) as [details Hd];
              rewrite Hd in H
        end. discriminate. }
    cbv zeta in H. cbn [Validators.field String.eqb Ascii.eqb Bool.eqb] in H.
    injection H as <- <- <- <- <-.
    exists p, members, t, d, ty, c, a. repeat split; auto.
  - intros (p & members & t & d & ty & c & a & Hp & Hbody & Ht & Hd & Hty & Hc
            & Hvalid & Ha & -> & -> & -> & -> & ->).
    rewrite (postHandler_authenticated p Hp), Hbody.
    assert (ZodEnum.validateInput (type_issues P) invalid_value
              ZodEnum.createPostSchema (JObj members) =
            Validators.Success
              [("title", t); ("description", d); ("type", ty); ("category", c)]) as Hv.
    { apply createPost_validation. exists members, t, d, ty, c. repeat split; auto. }
    rewrite Hv, Ha. reflexivity.
Qed.

(** A token outlives its account. When the request is authenticated and
    its payload is valid but the subject of the token has no row in the
    table of users, the handler does not answer 401: the store refuses
    the row, and the answer is the internal-error envelope with status
    500; the table of posts is left as it was. *)
Theorem posts_POST_orphaned_token
        (p : Jwt.JwtPayload) (payload : json) (data : list (string * string)) :
  authenticated P clock req =
    {| Auth.success := true; Auth.user := Some p; Auth.error := None |} ->
  body req = Some payload ->
  ZodEnum.validateInput (type_issues P) invalid_value ZodEnum.createPostSchema payload
    = Validators.Success data ->
  UserService.getUserById users (Jwt.id p) = None ->
  exists r,
    Posts.postHandler P invalid_value clock stored users posts req = (posts, r)
    /\ internal_error clock r.
Proof.
  intros Hp Hbody Hv Ha.
  rewrite (postHandler_authenticated p Hp), Hbody, Hv, Ha.
  eexists. split; [reflexivity|]. apply handleError_envelope.
Qed.

(** [POST /api/posts] keeps the constraint of the table: whatever the
    request, when every post has its author in the table of users before
    the handler runs, every post has it afterwards; the rows that were in
    the table stay, in their order, and at most one row is added. *)
Theorem posts_POST_keeps_referential_integrity :
  referential_integrity users posts ->
  let posts' := fst (Posts.postHandler P invalid_value clock stored users posts req) in
  referential_integrity users posts'
  /\ exists added, posts' = (posts ++ added)%list /\ (length added <= 1)%nat.
Proof.
  intros Hint. cbv zeta.
  assert (referential_integrity users posts
          /\ exists added, posts = (posts ++ added)%list /\ (length added <= 1)%nat)
    as Hsame.
  { split; [exact Hint|]. exists []. rewrite app_nil_r. split; [reflexivity | simpl; lia]. }
  destruct (authenticateRequest_outcome (jws_decode P) (hmac P)
              (Env.load (process_env P)) req (now clock))
    as [[p Hp]|[m [Hin [Hm Hr]]]].
  2:{ rewrite (postHandler_unauthenticated m Hm Hr). exact Hsame. }
  rewrite (postHandler_authenticated p Hp).
  destruct (body req) as [payload|]; [|exact Hsame].
  destruct (ZodEnum.validateInput _ _ _ payload) as [typed|errors]; [|exact Hsame].
  destruct (UserService.getUserById users (Jwt.id p)) as [a|] eqn:Ha; [|exact Hsame].
  cbv zeta. cbn [fst]. split.
  - unfold referential_integrity in *. apply Forall_app. split; [exact Hint|].
    constructor; [|constructor]. cbn [new_post PostService.authorId].
    rewrite Ha. discriminate.
  - eexists. split; [reflexivity | simpl; lia].
Qed.

End CreatePost.

Lemma posts_POST_requires_authentication_witness :
  exists m,
    In m authentication_errors
    /\ m <> ERROR_MESSAGES.UNAUTHORIZED
    /\ Posts.postHandler ReferencePlatform en_invalid_value sample_clock sample_clock
                         sample_users sample_posts (request_with []) =
         (sample_posts,
          Json (ApiError m "UNAUTHORIZED" 401 None (iso sample_clock)) 401).
Proof.
  apply (posts_POST_requires_authentication ReferencePlatform en_invalid_value
           sample_clock sample_clock sample_users sample_posts (request_with [])).
  reflexivity.
Defined.

Lemma posts_POST_orphaned_token_witness :
  exists r,
    Posts.postHandler ReferencePlatform en_invalid_value sample_clock sample_clock
                      [] []
                      (bearing sample_token
                               (Some (post_body "Spare winter coats" "Three coats, size M"
                                                "offer" "goods"))) = ([], r)
    /\ internal_error sample_clock r.
Proof.
  apply (posts_POST_orphaned_token ReferencePlatform en_invalid_value
           sample_clock sample_clock [] []
           (bearing sample_token
                    (Some (post_body "Spare winter coats" "Three coats, size M"
                                     "offer" "goods")))
           sample_payload
           (post_body "Spare winter coats" "Three coats, size M" "offer" "goods")
           [("title", "Spare winter coats"); ("description", "Three coats, size M");
            ("type", "offer"); ("category", "goods")]).
  - vm_compute. reflexivity.
  - reflexivity.
  - vm_compute. reflexivity.
  - reflexivity.
Defined.

Lemma posts_POST_keeps_referential_integrity_witness :
  let posts' :=
    fst (Posts.postHandler ReferencePlatform en_invalid_value sample_clock sample_clock
           sample_users sample_posts
           (bearing sample_token
                    (Some (post_body "Spare winter coats" "Three coats, size M"
                                     "offer" "goods")))) in
  referential_integrity sample_users posts'
  /\ exists added, posts' = (sample_posts ++ added)%list /\ (length added <= 1)%nat.
Proof.
  apply (posts_POST_keeps_referential_integrity ReferencePlatform en_invalid_value
           sample_clock sample_clock sample_users sample_posts
           (bearing sample_token
                    (Some (post_body "Spare winter coats" "Three coats, size M"
                                     "offer" "goods")))
           sample_integrity).
Defined.

(** A creation, and three requests that create nothing. *)
Example posts_POST_examples :
  let send users posts req :=
    Posts.postHandler ReferencePlatform en_invalid_value sample_clock sample_clock
                      users posts req in
  let body := post_body "Spare winter coats" "Three coats, size M" "offer" "goods" in
  (exists data,
      send sample_users [] (bearing sample_token (Some body)) =
        ([new_post ReferencePlatform sample_clock [] "Spare winter coats"
                   "Three coats, size M" "offer" "goods" "user-1"],
         Json (ApiSuccess data "Post created successfully" (iso sample_clock)) 201))
  /\ send sample_users [] (bearing sample_token
                                   (Some (post_body "Coat" "Three coats, size M"
                                                    "offer" "goods"))) =
       ([], Json (ApiError "Invalid input data" "VALIDATION_ERROR" 400 None
                           (iso sample_clock)) 400)
  /\ send sample_users [] (bearing sample_token
                                   (Some (post_body "Spare winter coats"
                                                    "Three coats, size M"
                                                    "gift" "goods"))) =
       ([], Json (ApiError "Invalid input data" "VALIDATION_ERROR" 400 None
                           (iso sample_clock)) 400)
  /\ send sample_users [] (bearing "" (Some body)) =
       ([], Json (ApiError "No authentication token provided" "UNAUTHORIZED" 401 None
                           (iso sample_clock)) 401).
Proof.
  cbv zeta. split; [eexists; vm_compute; reflexivity|].
  repeat split; vm_compute; reflexivity.
Qed.

(** ** From a session to a post *)

Section SessionToken.
Variable P : Platform.

Hypothesis secret_set : Env.JWT_SECRET (Env.load (process_env P)) <> "".
Hypothesis ms_7d : ms P "7d" = Some 604800000.
Hypothesis decode_encode :
  forall a p s,
    jws_decode P (jws_encode P a p +:+ "." +:+ s) =
      Some {| Jwt.alg := a; Jwt.payload := p;
              Jwt.signing_input := jws_encode P a p; Jwt.signature := s |}.
Hypothesis hmac_not_blank : forall a k i, Js.trim (hmac P a k i) <> "".

Lemma generateToken_text (userId email : string) (clock : Clock) :
  generateToken P userId email clock = Ok (token_text P userId email clock).
Proof.
  exact (generateToken_signed (jws_encode P) (hmac P) (ms P) (Env.load (process_env P))
                              secret_set ms_7d userId email (now clock)).
Qed.

(** A request that bears the token of a session is authenticated as
    the user of the session until the token expires. *)
Lemma authenticated_session (userId email : string) (issue clock : Clock)
      (req : NextRequest) :
  headers_get req "authorization" =
    Some ("Bearer " +:+ token_text P userId email issue) ->
  now clock / 1000 < now issue / 1000 + 604800 ->
  authenticated P clock req =
    {| Auth.success := true; Auth.user := Some (token_payload userId email issue);
       Auth.error := None |}.
Proof.
  intros Hh Hfresh. unfold authenticated, Auth.authenticateRequest.
  apply extractToken_Some in Hh. rewrite Hh.
  unfold token_text at 1. cbv zeta. cbn [Js.truthy_opt]. rewrite truthy_dotted.
  cbn [negb].
  pose proof (verifyToken_signed (jws_encode P) (jws_decode P) (hmac P)
                (Env.load (process_env P)) secret_set decode_encode hmac_not_blank
                userId email (now issue) (now clock)) as Hv.
  destruct (Z.leb_spec (now issue / 1000 + 604800) (now clock / 1000)); [lia|].
  exact Hv.
Qed.

Lemma author_of_found (users : list Prisma.User) (mail : string) (u : Prisma.User) :
  Prisma.findUnique users mail = Some u ->
  exists a, UserService.getUserById users (Prisma.id u) = Some a
            /\ UserService.id a = Prisma.id u.
Proof.
  intros Hfind. unfold UserService.getUserById.
  apply find_some in Hfind as [Hin _].
  destruct (List.find (fun v => String.eqb (Prisma.id v) (Prisma.id u)) users)
    as [v|] eqn:Hv.
  - eexists. split; [reflexivity|]. apply find_some in Hv as [_ Hv].
    now apply String.eqb_eq in Hv.
  - apply (find_none _ _ Hv) in Hin. simpl in Hin.
    now rewrite String.eqb_refl in Hin.
Qed.

Lemma login_handler_success (clock : Clock) (users : list Prisma.User)
      (u : Prisma.User) (req : NextRequest) (e pw : string) :
  body req = Some (login_body e pw) ->
  Zod.email_regex e = true ->
  pw <> "" ->
  Prisma.findUnique users (Js.trim (Js.toLowerCase e)) = Some u ->
  bcrypt_compare P pw (Prisma.password u) = true ->
  Login.handler P clock users req =
    Json (ApiSuccess (session (token_text P (Prisma.id u) (Prisma.email u) clock)
                              (Prisma.id u) (Prisma.email u) (Prisma.name u))
                     "Login successful" (iso clock)) 200.
Proof.
  intros Hb Hre Hpw Hfind Hcompare. unfold Login.handler, withErrorHandling.
  rewrite (login_POST_valid P clock users req _ e pw Hb eq_refl Hre eq_refl Hpw).
  rewrite Hfind, Hcompare, generateToken_text. reflexivity.
Qed.

Lemma bearer_creates_post
      (invalid_value : list string -> option json -> string)
      (issue clock stored : Clock)
      (users : list Prisma.User) (posts : list PostService.Post)
      (req : NextRequest) (userId email t d ty c : string) (a : UserService.Selected) :
  headers_get req "authorization" =
    Some ("Bearer " +:+ token_text P userId email issue) ->
  now clock / 1000 < now issue / 1000 + 604800 ->
  body req = Some (post_body t d ty c) ->
  valid_post t d ty c = true ->
  UserService.getUserById users userId = Some a ->
  Posts.postHandler P invalid_value clock stored users posts req =
    ((posts ++ [new_post P stored posts t d ty c userId])%list,
     Json (ApiSuccess
             (PostService.to_json
                {| PostService.post := new_post P stored posts t d ty c userId;
                   PostService.author := a |})
             "Post created successfully" (iso clock)) 201).
Proof.
  intros Hh Hfresh Hbody Hvalid Ha.
  rewrite (postHandler_authenticated P invalid_value clock stored users posts req _
             (authenticated_session _ _ issue clock req Hh Hfresh)).
  rewrite Hbody.
  assert (ZodEnum.validateInput (type_issues P) invalid_value
            ZodEnum.createPostSchema (post_body t d ty c) =
          Validators.Success
            [("title", t); ("description", d); ("type", ty); ("category", c)]) as Hv.
  { apply createPost_validation. unfold post_body.
    eexists _, t, d, ty, c. repeat split; auto. }
  rewrite Hv. cbn [token_payload Jwt.id]. rewrite Ha. reflexivity.
Qed.

(** From login to a post. A login with the password of an account
    answers 200 with a token; a request that bears this token within the
    seven days of its life, with a valid payload, creates a post, and the
    author of the post is the account that logged in: the row's
    [authorId] is the id of the account, whatever the payload says. *)
Theorem login_token_creates_post
        (invalid_value : list string -> option json -> string)
        (clockL clock stored : Clock)
        (users : list Prisma.User) (posts : list PostService.Post)
        (u : Prisma.User) (reqL req : NextRequest)
        (e pw t d ty c : string) :
  body reqL = Some (login_body e pw) ->
  Zod.email_regex e = true ->
  pw <> "" ->
  Prisma.findUnique users (Js.trim (Js.toLowerCase e)) = Some u ->
  bcrypt_compare P pw (Prisma.password u) = true ->
  exists token a,
    Login.handler P clockL users reqL =
      Json (ApiSuccess (session token (Prisma.id u) (Prisma.email u) (Prisma.name u))
                       "Login successful" (iso clockL)) 200
    /\ UserService.id a = Prisma.id u
    /\ (headers_get req "authorization" = Some ("Bearer " +:+ token) ->
        now clock / 1000 < now clockL / 1000 + 604800 ->
        body req = Some (post_body t d ty c) ->
        valid_post t d ty c = true ->
        Posts.postHandler P invalid_value clock stored users posts req =
          ((posts ++ [new_post P stored posts t d ty c (Prisma.id u)])%list,
           Json (ApiSuccess
                   (PostService.to_json
                      {| PostService.post :=
                           new_post P stored posts t d ty c (Prisma.id u);
                         PostService.author := a |})
                   "Post created successfully" (iso clock)) 201)).
Proof.
  intros HbL Hre Hpw Hfind Hcompare.
  destruct (author_of_found users _ u Hfind) as [a [Ha Hid]].
  exists (token_text P (Prisma.id u) (Prisma.email u) clockL), a.
  split; [|split; [exact Hid|]].
  - now apply (login_handler_success clockL users u reqL e pw).
  - intros Hh Hfresh Hbody Hvalid.
    now apply (bearer_creates_post invalid_value clockL clock stored users posts req
                 (Prisma.id u) (Prisma.email u)).
Qed.

End SessionToken.

Lemma login_token_creates_post_witness :
  exists token a,
    Login.handler ReferencePlatform sample_clock sample_users
                  (post "/api/auth/login" (login_body "Jo@Test.com" "Secret1!x")) =
      Json (ApiSuccess (session token "user-1" "jo@test.com" "Jo")
                       "Login successful" (iso sample_clock)) 200
    /\ UserService.id a = "user-1"
    /\ (headers_get (bearing sample_token
                             (Some (post_body "Spare winter coats" "Three coats, size M"
                                              "offer" "goods")))
                    "authorization" = Some ("Bearer " +:+ token) ->
        now sample_clock / 1000 < now sample_clock / 1000 + 604800 ->
        body (bearing sample_token
                      (Some (post_body "Spare winter coats" "Three coats, size M"
                                       "offer" "goods"))) =
          Some (post_body "Spare winter coats" "Three coats, size M" "offer" "goods") ->
        valid_post "Spare winter coats" "Three coats, size M" "offer" "goods" = true ->
        Posts.postHandler ReferencePlatform en_invalid_value sample_clock sample_clock
                          sample_users sample_posts
                          (bearing sample_token
                                   (Some (post_body "Spare winter coats"
                                                    "Three coats, size M"
                                                    "offer" "goods"))) =
          ((sample_posts ++
            [new_post ReferencePlatform sample_clock sample_posts "Spare winter coats"
                      "Three coats, size M" "offer" "goods" "user-1"])%list,
           Json (ApiSuccess
                   (PostService.to_json
                      {| PostService.post :=
                           new_post ReferencePlatform sample_clock sample_posts
                                    "Spare winter coats" "Three coats, size M"
                                    "offer" "goods" "user-1";
                         PostService.author := a |})
                   "Post created successfully" (iso sample_clock)) 201)).
Proof.
  apply (login_token_creates_post ReferencePlatform
           ltac:(vm_compute; discriminate) eq_refl
           reference_decode_encode reference_hmac_not_blank
           en_invalid_value sample_clock sample_clock sample_clock
           sample_users sample_posts
           {| Prisma.id := "user-1"; Prisma.email := "jo@test.com";
              Prisma.password := reference_hash "Secret1!x" 10; Prisma.name := "Jo" |}
           (post "/api/auth/login" (login_body "Jo@Test.com" "Secret1!x"))
           (bearing sample_token
                    (Some (post_body "Spare winter coats" "Three coats, size M"
                                     "offer" "goods")))
           "Jo@Test.com" "Secret1!x" "Spare winter coats" "Three coats, size M"
           "offer" "goods");
    try reflexivity.
  discriminate.
Defined.

(** ** The session in the browser *)

Lemma mem_app (c : ascii) (a b : string) :
  Js.mem c (a +:+ b) = Js.mem c a || Js.mem c b.
Proof.
  unfold Js.mem. induction a as [|x a IH].
  - now rewrite append_nil.
  - rewrite append_cons. cbn [Js.existsb]. now rewrite IH, orb_assoc.
Qed.

Lemma cut_app (c : ascii) (s r : string) :
  Js.mem c s = false ->
  Browser.cut c (s +:+ String c r) = (s, Some r).
Proof.
  unfold Js.mem. induction s as [|x s IH]; intros H.
  - rewrite append_nil. cbn [Browser.cut]. now rewrite Ascii.eqb_refl.
  - rewrite append_cons. cbn [Js.existsb] in H.
    apply orb_false_elim in H as [Hx Hs].
    cbn [Browser.cut]. rewrite Ascii.eqb_sym, Hx, (IH Hs). reflexivity.
Qed.

Lemma split_app (sep : ascii) (s r : string) :
  Js.mem sep s = false ->
  Js.split sep (s +:+ String sep r) = s :: Js.split sep r.
Proof.
  unfold Js.mem. induction s as [|x s IH]; intros H.
  - rewrite append_nil. cbn [Js.split]. now rewrite Ascii.eqb_refl.
  - rewrite append_cons. cbn [Js.existsb] in H.
    apply orb_false_elim in H as [Hx Hs].
    cbn [Js.split]. rewrite Ascii.eqb_sym, Hx, (IH Hs). reflexivity.
Qed.

Section BrowserSession.
Variable JSON_stringify : json -> string.
Variable JSON_parse : string -> result json.
Variable in_the_past : string -> bool.

Lemma auth_cookie_attributes (expires : string) :
  Js.mem ";" expires = false ->
  Js.split ";" (" path=/; expires=" +:+ expires +:+ "; SameSite=Strict") =
    [" path=/"; " expires" +:+ String "=" expires; " SameSite=Strict"].
Proof.
  intros Hexp.
  assert (" path=/; expires=" +:+ expires +:+ "; SameSite=Strict"
          = " path=/" +:+
            String ";" ((" expires=" +:+ expires) +:+ String ";" " SameSite=Strict"))
    as ->.
  { repeat (rewrite append_assoc || rewrite append_cons || rewrite append_nil).
    reflexivity. }
  rewrite split_app by reflexivity.
  rewrite split_app by (rewrite mem_app; now rewrite Hexp).
  reflexivity.
Qed.

Lemma auth_cookie_expired (expires : string) :
  Browser.expired in_the_past
    [" path=/"; " expires" +:+ String "=" expires; " SameSite=Strict"]
  = in_the_past (Js.trim expires).
Proof.
  unfold Browser.expired. cbn [fold_left].
  change (Browser.cut "=" " path=/") with (" path", Some "/").
  rewrite cut_app by reflexivity.
  change (Browser.cut "=" " SameSite=Strict") with (" SameSite", Some "Strict").
  reflexivity.
Qed.

Lemma auth_cookie_strict (expires : string) :
  Browser.same_site_strict
    [" path=/"; " expires" +:+ String "=" expires; " SameSite=Strict"]
  = true.
Proof.
  unfold Browser.same_site_strict. cbn [fold_left].
  change (Browser.cut "=" " path=/") with (" path", Some "/").
  rewrite cut_app by reflexivity.
  change (Browser.cut "=" " SameSite=Strict") with (" SameSite", Some "Strict").
  reflexivity.
Qed.

Lemma setAuthCookie_stores (expires token : string) (jar : gmap string Browser.Cookie) :
  cookie_safe token ->
  Js.mem ";" expires = false ->
  in_the_past (Js.trim expires) = false ->
  Session.setAuthCookie in_the_past expires token jar =
    <["authToken" := {| Browser.value := token; Browser.strict := true |}]> jar.
Proof.
  intros [Hsemi Htrim] Hexp Hfuture.
  unfold Session.setAuthCookie, Browser.assign.
  assert ("authToken=" +:+ token +:+ "; path=/; expires=" +:+ expires +:+
          "; SameSite=Strict"
          = ("authToken=" +:+ token) +:+
            String ";" (" path=/; expires=" +:+ expires +:+ "; SameSite=Strict")) as ->.
  { repeat (rewrite append_assoc || rewrite append_cons || rewrite append_nil).
    reflexivity. }
  rewrite cut_app by (rewrite mem_app; unfold Js.mem in *; now rewrite Hsemi).
  change ("authToken=" +:+ token) with ("authToken" +:+ String "=" token).
  rewrite cut_app by reflexivity.
  rewrite (auth_cookie_attributes _ Hexp), auth_cookie_expired, auth_cookie_strict.
  rewrite Hfuture, Htrim. reflexivity.
Qed.

Lemma clearAuthCookie_removes (jar : gmap string Browser.Cookie) :
  in_the_past "Thu, 01 Jan 1970 00:00:00 UTC" = true ->
  Session.clearAuthCookie in_the_past jar = delete "authToken" jar.
Proof.
  intros Hpast. unfold Session.clearAuthCookie, Browser.assign.
  change (Browser.cut ";" _)
    with ("authToken=", Some " path=/; expires=Thu, 01 Jan 1970 00:00:00 UTC; SameSite=Strict").
  cbv iota beta.
  change (Browser.cut "=" "authToken=") with ("authToken", Some "").
  cbv iota beta.
  change (Js.split ";" _)
    with [" path=/"; " expires=Thu, 01 Jan 1970 00:00:00 UTC"; " SameSite=Strict"].
  change (Browser.expired in_the_past _)
    with (in_the_past "Thu, 01 Jan 1970 00:00:00 UTC").
  rewrite Hpast. reflexivity.
Qed.

(** A login lasts over a reload, within the site. After [login] with a
    token that is not empty and that a cookie carries unchanged, and with
    a user that [JSON.parse] reads back from its text, the effect that
    runs on the next mount restores the same token and the same user and
    leaves the storage as it is. The cookie [authToken] holds the token
    and is a strict one: while it lasts, the middleware lets every
    navigation that starts within the site pass, and it sends a
    navigation to a protected route that another site started, by a
    link or a redirect, to [/login], because the browser withholds the
    cookie from it. *)
Theorem login_survives_reload
        (expires token : string) (userData : json) (b : Browser.State) :
  token <> "" ->
  cookie_safe token ->
  Js.mem ";" expires = false ->
  in_the_past (Js.trim expires) = false ->
  JSON_stringify userData <> "" ->
  JSON_parse (JSON_stringify userData) = Ok userData ->
  let after := Session.login JSON_stringify in_the_past expires token userData b in
  UseAuth.loadAuthState JSON_parse (Browser.localStorage (fst after)) UseAuth.initial
    = Ok (snd after, Browser.localStorage (fst after))
  /\ UseAuth.isAuthenticated (snd after) = UseAuth.json_truthy userData
  /\ Browser.cookie (fst after) !! "authToken"
     = Some {| Browser.value := token; Browser.strict := true |}
  /\ Browser.location (fst after) = Browser.location b
  /\ (forall path, Middleware.middleware (visit (fst after) path) = Next)
  /\ (forall path,
        Middleware.middleware (visit_from_another_site (fst after) path) =
          if Middleware.isProtectedRoute path then Redirect "/login" else Next).
Proof.
  intros Htoken Hsafe Hexp Hfuture Htext Hparse. cbv zeta.
  unfold Session.login. cbn [fst snd Browser.localStorage Browser.cookie Browser.location].
  rewrite (setAuthCookie_stores _ _ _ Hsafe Hexp Hfuture).
  apply truthy_iff in Htoken. apply truthy_iff in Htext.
  split; [|split; [|split; [|split; [|split]]]].
  - unfold UseAuth.loadAuthState.
    rewrite (lookup_insert_ne _ "user" "authToken") by discriminate.
    rewrite !lookup_insert_eq. cbn [Js.truthy_opt]. rewrite Htoken, Htext, Hparse.
    reflexivity.
  - unfold UseAuth.isAuthenticated. cbn [UseAuth.token UseAuth.user Js.truthy_opt].
    now rewrite Htoken.
  - apply lookup_insert_eq.
  - reflexivity.
  - intros path. unfold Middleware.middleware, visit, Browser.sent_within.
    cbn [pathname cookies Browser.cookie].
    rewrite lookup_fmap, lookup_insert_eq. cbn [fmap option_fmap option_map
                                                 Browser.value Js.truthy_opt].
    rewrite Htoken.
    destruct (Middleware.isProtectedRoute path); reflexivity.
  - intros path. unfold Middleware.middleware, visit_from_another_site,
      Browser.sent_across.
    cbn [pathname cookies Browser.cookie].
    rewrite lookup_omap, lookup_insert_eq. reflexivity.
Qed.

(** A logout ends the session. After [logout], whatever the browser
    held, the state of the hook is the initial one and the effect of the
    next mount restores nothing; the storage has lost the token and the
    user and nothing else; the cookie [authToken] is gone, the other
    cookies stay; the browser is on the home page, and the middleware
    sends every navigation to a protected route to [/login]. *)
Theorem logout_ends_session (b : Browser.State) :
  in_the_past "Thu, 01 Jan 1970 00:00:00 UTC" = true ->
  let after := Session.logout in_the_past b in
  snd after = UseAuth.initial
  /\ UseAuth.loadAuthState JSON_parse (Browser.localStorage (fst after)) UseAuth.initial
       = Ok (UseAuth.initial, Browser.localStorage (fst after))
  /\ (forall key, Browser.localStorage (fst after) !! key =
                    if String.eqb key "authToken" || String.eqb key "user" then None
                    else Browser.localStorage b !! key)
  /\ (forall name, Browser.cookie (fst after) !! name =
                     if String.eqb name "authToken" then None
                     else Browser.cookie b !! name)
  /\ Browser.location (fst after) = "/"
  /\ forall path,
       Middleware.isProtectedRoute path = true ->
       Middleware.middleware (visit (fst after) path) = Redirect "/login".
Proof.
  intros Hpast. cbv zeta. unfold Session.logout.
  cbn [fst snd Browser.localStorage Browser.cookie Browser.location].
  rewrite (clearAuthCookie_removes _ Hpast).
  split; [reflexivity|]. split; [|split; [|split; [|split]]].
  - unfold UseAuth.loadAuthState.
    rewrite (lookup_delete_ne _ "user" "authToken") by discriminate.
    rewrite !lookup_delete_eq. reflexivity.
  - intros key. destruct (String.eqb_spec key "authToken") as [->|Ht].
    + rewrite (lookup_delete_ne _ "user" "authToken") by discriminate.
      apply lookup_delete_eq.
    + destruct (String.eqb_spec key "user") as [->|Hu].
      * apply lookup_delete_eq.
      * cbn [orb]. now rewrite !lookup_delete_ne by congruence.
  - intros name. destruct (String.eqb_spec name "authToken") as [->|Ht].
    + apply lookup_delete_eq.
    + now rewrite lookup_delete_ne by congruence.
  - reflexivity.
  - intros path Hp. unfold Middleware.middleware, visit, Browser.sent_within.
    cbn [pathname cookies Browser.cookie].
    rewrite Hp, lookup_fmap, lookup_delete_eq. reflexivity.
Qed.

End BrowserSession.

Lemma login_survives_reload_witness :
  let after :=
    Session.login write_user before_2026 "Thu, 08 Jan 2026 00:00:00 GMT"
                  sample_token sample_user sample_browser in
  UseAuth.loadAuthState read_user (Browser.localStorage (fst after)) UseAuth.initial
    = Ok (snd after, Browser.localStorage (fst after))
  /\ UseAuth.isAuthenticated (snd after) = UseAuth.json_truthy sample_user
  /\ Browser.cookie (fst after) !! "authToken"
     = Some {| Browser.value := sample_token; Browser.strict := true |}
  /\ Browser.location (fst after) = Browser.location sample_browser
  /\ (forall path, Middleware.middleware (visit (fst after) path) = Next)
  /\ (forall path,
        Middleware.middleware (visit_from_another_site (fst after) path) =
          if Middleware.isProtectedRoute path then Redirect "/login" else Next).
Proof.
  apply (login_survives_reload write_user read_user before_2026
           "Thu, 08 Jan 2026 00:00:00 GMT" sample_token sample_user sample_browser).
  - vm_compute. discriminate.
  - split; vm_compute; reflexivity.
  - reflexivity.
  - reflexivity.
  - vm_compute. discriminate.
  - vm_compute. reflexivity.
Defined.

Lemma logout_ends_session_witness :
  let after := Session.logout before_2026 sample_browser in
  snd after = UseAuth.initial
  /\ UseAuth.loadAuthState read_user (Browser.localStorage (fst after)) UseAuth.initial
       = Ok (UseAuth.initial, Browser.localStorage (fst after))
  /\ (forall key, Browser.localStorage (fst after) !! key =
                    if String.eqb key "authToken" || String.eqb key "user" then None
                    else Browser.localStorage sample_browser !! key)
  /\ (forall name, Browser.cookie (fst after) !! name =
                     if String.eqb name "authToken" then None
                     else Browser.cookie sample_browser !! name)
  /\ Browser.location (fst after) = "/"
  /\ forall path,
       Middleware.isProtectedRoute path = true ->
       Middleware.middleware (visit (fst after) path) = Redirect "/login".
Proof.
  apply (logout_ends_session read_user before_2026 sample_browser). reflexivity.
Defined.

(** ** The pages and the envelopes *)

Lemma property_wire_error (error code : string) (status : Z) (details : option json)
      (timestamp key : string) :
  property (wire (ApiError error code status details timestamp)) key =
    Ok (if String.eqb "success" key then Some (JBool false)
        else if String.eqb "error" key then Some (JStr error)
        else if String.eqb "code" key then Some (JStr code)
        else if String.eqb "status" key then Some (JNum status)
        else match details with
             | Some d => if String.eqb "details" key then Some d
                         else if String.eqb "timestamp" key then Some (JStr timestamp)
                         else None
             | None => if String.eqb "timestamp" key then Some (JStr timestamp)
                       else None
             end).
Proof. destruct details; reflexivity. Qed.

Lemma session_or_error_on_error
      (JSON_stringify : json -> string) (in_the_past : string -> bool)
      (expires : string) (p : Pages.Page) (fallback : string)
      (error code : string) (status : Z) (details : option json) (timestamp : string) :
  Pages.session_or_error JSON_stringify in_the_past expires p
                         (wire (ApiError error code status details timestamp)) fallback =
    Ok (Pages.Settled (Pages.setErrors p {["submit" := JStr fallback]})).
Proof.
  unfold Pages.session_or_error. rewrite !property_wire_error.
  cbn [String.eqb Ascii.eqb Bool.eqb bind]. destruct details; reflexivity.
Qed.

Section ErrorEnvelopes.
Variable JSON_stringify : json -> string.
Variable in_the_past : string -> bool.
Variable expires : string.
Variable fetch : NextRequest -> result json.
Variable base : string.
Variable error code : string.
Variable status : Z.
Variable details : option json.
Variable timestamp : string.

(** Every request is answered with the same error envelope. *)
Hypothesis refused :
  forall req, fetch req = Ok (wire (ApiError error code status details timestamp)).

(** The text of an error envelope never reaches the user. The
    envelope carries its text in the member [error], and the pages read
    the member [message]: whatever the text, the code, the status and the
    details of the answer, and whatever the browser holds, the login page
    shows [Invalid email or password] and the signup page shows [An error
    occurred while processing your request]; the create page, which sends
    its request only on a browser that holds a token, then shows [Failed
    to create post]. The browser and the state of the hook are left as
    they were. *)
Theorem pages_show_their_own_text (p : Pages.Page)
        (name email password title description type category : string) :
  let shown text :=
    Pages.Settled {| Pages.browser := Pages.browser p; Pages.auth := Pages.auth p;
                     Pages.errors := {["submit" := JStr text]};
                     Pages.isSubmitting := false |} in
  Pages.handleSubmit p (Pages.LoginPage_onSubmit JSON_stringify in_the_past expires
                                                 fetch base p email password)
    = shown "Invalid email or password"
  /\ Pages.handleSubmit p (Pages.SignupPage_onSubmit JSON_stringify in_the_past expires
                                                     fetch base p name email
                                                     password password)
     = shown "An error occurred while processing your request"
  /\ (forall token,
        Browser.localStorage (Pages.browser p) !! "authToken" = Some token ->
        token <> "" ->
        Pages.handleSubmit p (Pages.CreatePostPage_onSubmit fetch base p title
                                                            description type category)
        = shown "Failed to create post").
Proof.
  cbv zeta. split; [|split].
  - unfold Pages.LoginPage_onSubmit. rewrite refused. cbn [bind].
    rewrite session_or_error_on_error. reflexivity.
  - unfold Pages.SignupPage_onSubmit. rewrite String.eqb_refl, refused. cbn [bind negb].
    rewrite session_or_error_on_error. reflexivity.
  - intros token Hstored Htoken. apply truthy_iff in Htoken.
    unfold Pages.CreatePostPage_onSubmit. rewrite Hstored, Htoken, refused.
    cbn [bind negb]. rewrite !property_wire_error.
    cbn [String.eqb Ascii.eqb Bool.eqb bind truthy_value UseAuth.json_truthy].
    destruct details; reflexivity.
Qed.

End ErrorEnvelopes.

Lemma pages_show_their_own_text_witness :
  let fetch (req : NextRequest) :=
    Ok (wire (ApiError "User with email jo@test.com already exists" "CONFLICT" 409
                       None "2026-01-01T00:00:00.000Z")) in
  let shown (p : Pages.Page) text :=
    Pages.Settled {| Pages.browser := Pages.browser p; Pages.auth := Pages.auth p;
                     Pages.errors := {["submit" := JStr text]};
                     Pages.isSubmitting := false |} in
  let p := fresh_page sample_browser in
  let q :=
    fresh_page {| Browser.localStorage := {["authToken" := sample_token]};
                  Browser.cookie := ∅; Browser.location := "/posts/create" |} in
  Browser.localStorage (Pages.browser p) !! "authToken" = None
  /\ Pages.handleSubmit p (Pages.LoginPage_onSubmit write_user before_2026
                             "Thu, 08 Jan 2026 00:00:00 GMT" fetch "/api" p
                             "jo@test.com" "Secret1!x")
     = shown p "Invalid email or password"
  /\ Pages.handleSubmit p (Pages.SignupPage_onSubmit write_user before_2026
                             "Thu, 08 Jan 2026 00:00:00 GMT" fetch "/api" p
                             "Jo" "jo@test.com" "Secret1!x" "Secret1!x")
     = shown p "An error occurred while processing your request"
  /\ Pages.handleSubmit q (Pages.CreatePostPage_onSubmit fetch "/api" q
                             "Spare winter coats" "Three coats, size M" "offer" "goods")
     = shown q "Failed to create post".
Proof.
  cbv zeta.
  pose proof (pages_show_their_own_text write_user before_2026
                "Thu, 08 Jan 2026 00:00:00 GMT"
                (fun _ => Ok (wire (ApiError "User with email jo@test.com already exists"
                                             "CONFLICT" 409 None
                                             "2026-01-01T00:00:00.000Z")))
                "/api" "User with email jo@test.com already exists" "CONFLICT" 409 None
                "2026-01-01T00:00:00.000Z" (fun _ => eq_refl)) as shows.
  split; [reflexivity|].
  destruct (shows (fresh_page sample_browser)
                  "Jo" "jo@test.com" "Secret1!x" "Spare winter coats"
                  "Three coats, size M" "offer" "goods") as (Hlogin & Hsignup & _).
  split; [exact Hlogin|]. split; [exact Hsignup|].
  destruct (shows (fresh_page {| Browser.localStorage := {["authToken" := sample_token]};
                                 Browser.cookie := ∅;
                                 Browser.location := "/posts/create" |})
                  "Jo" "jo@test.com" "Secret1!x" "Spare winter coats"
                  "Three coats, size M" "offer" "goods") as (_ & _ & Hcreate).
  apply (Hcreate sample_token); [reflexivity | vm_compute; discriminate].
Defined.

Lemma strip_end_app (a b : string) :
  b <> "" -> Headers.strip_end b = b -> Headers.strip_end (a +:+ b) = a +:+ b.
Proof.
  intros Hb Hend. induction a as [|c a IH]; [now rewrite append_nil|].
  rewrite append_cons. cbn [Headers.strip_end]. rewrite IH.
  destruct (a +:+ b) eqn:E; [|reflexivity].
  destruct a; [rewrite append_nil in E; contradiction|].
  rewrite append_cons in E. discriminate.
Qed.

(** The authorization header that [ApiService.createPost] writes is read
    by the route as it was written, when the token is not empty and does
    not end in white space. *)
Lemma createPost_authorization (base : string) (jar : gmap string Browser.Cookie)
      (post : list (string * string)) (token : string) :
  token <> "" ->
  Headers.strip_end token = token ->
  headers_get (ApiService.createPost base jar post token) "authorization" =
    Some ("Bearer " +:+ token).
Proof.
  intros Hne Hend.
  change (headers_get (ApiService.createPost base jar post token) "authorization")
    with (Some (Headers.normalize ("Bearer " +:+ token))).
  f_equal. unfold Headers.normalize.
  assert (Headers.strip_start ("Bearer " +:+ token) = "Bearer " +:+ token) as ->.
  { repeat (rewrite append_cons || rewrite append_nil). reflexivity. }
  now apply strip_end_app.
Qed.

(** ** From the login page to a post *)

Section PagesEndToEnd.
Variable P : Platform.
Variable JSON_stringify : json -> string.
Variable in_the_past : string -> bool.
Variable expires base : string.
Variable invalid_value : list string -> option json -> string.

Hypothesis secret_set : Env.JWT_SECRET (Env.load (process_env P)) <> "".
Hypothesis ms_7d : ms P "7d" = Some 604800000.
Hypothesis decode_encode :
  forall a p s,
    jws_decode P (jws_encode P a p +:+ "." +:+ s) =
      Some {| Jwt.alg := a; Jwt.payload := p;
              Jwt.signing_input := jws_encode P a p; Jwt.signature := s |}.
Hypothesis hmac_not_blank : forall a k i, Js.trim (hmac P a k i) <> "".

(** The pages and the routes, end to end. A user submits the login
    page with the password of the account; the page stores the token and
    the user of the answer and moves to [/posts]. When the create page is
    then submitted on this browser with valid values, within the seven
    days of the token, the route appends one post to the table, its
    author is the account that logged in, and the page moves to
    [/posts]. The route reads the authorization header without the white
    space at its ends: the token must not end in white space, and no
    token of the library does. *)
Theorem login_page_to_post
        (p0 : Pages.Page) (users : list Prisma.User) (posts : list PostService.Post)
        (u : Prisma.User) (e pw t d ty c : string) (clockL clock stored : Clock) :
  Zod.email_regex e = true ->
  pw <> "" ->
  Prisma.findUnique users (Js.trim (Js.toLowerCase e)) = Some u ->
  bcrypt_compare P pw (Prisma.password u) = true ->
  Headers.strip_end (token_text P (Prisma.id u) (Prisma.email u) clockL)
    = token_text P (Prisma.id u) (Prisma.email u) clockL ->
  now clock / 1000 < now clockL / 1000 + 604800 ->
  valid_post t d ty c = true ->
  let login_route req := answered (Login.handler P clockL users req) in
  let posts_route req := Posts.postHandler P invalid_value clock stored users posts req in
  exists token,
    let p1 := signed_in JSON_stringify in_the_past expires token u p0 in
    Pages.handleSubmit p0
      (Pages.LoginPage_onSubmit JSON_stringify in_the_past expires login_route base
                                p0 e pw)
      = Pages.Settled p1
    /\ Pages.handleSubmit p1
         (Pages.CreatePostPage_onSubmit (fun req => answered (snd (posts_route req)))
                                        base p1 t d ty c)
       = Pages.Settled (Pages.push p1 "/posts")
    /\ fst (posts_route
              (ApiService.createPost base (Browser.cookie (Pages.browser p1))
                 [("title", t); ("description", d); ("type", ty); ("category", c)]
                 token))
       = (posts ++ [new_post P stored posts t d ty c (Prisma.id u)])%list.
Proof.
  intros Hre Hpw Hfind Hcompare Hend Hfresh Hvalid. cbv zeta.
  destruct (author_of_found users _ u Hfind) as [a [Ha _]].
  set (token := token_text P (Prisma.id u) (Prisma.email u) clockL) in *.
  assert (token <> "") as Hne by (apply truthy_iff, truthy_dotted).
  exists token.
  assert (forall jar,
             Posts.postHandler P invalid_value clock stored users posts
               (ApiService.createPost base jar
                  [("title", t); ("description", d); ("type", ty); ("category", c)]
                  token) =
             ((posts ++ [new_post P stored posts t d ty c (Prisma.id u)])%list,
              Json (ApiSuccess
                      (PostService.to_json
                         {| PostService.post :=
                              new_post P stored posts t d ty c (Prisma.id u);
                            PostService.author := a |})
                      "Post created successfully" (iso clock)) 201)) as Hserved.
  { intros jar.
    apply (bearer_creates_post P secret_set decode_encode hmac_not_blank invalid_value
             clockL clock stored users posts _ (Prisma.id u) (Prisma.email u));
      auto; try reflexivity. now apply createPost_authorization. }
  split; [|split].
  - unfold Pages.LoginPage_onSubmit.
    rewrite (login_handler_success P secret_set ms_7d clockL users u
               (ApiService.login base (Browser.cookie (Pages.browser p0)) e pw) e pw
               eq_refl Hre Hpw Hfind Hcompare).
    reflexivity.
  - unfold Pages.CreatePostPage_onSubmit, signed_in at 2 3.
    cbn [Pages.browser Browser.localStorage Browser.cookie].
    rewrite (lookup_insert_ne _ "user" "authToken") by discriminate.
    rewrite lookup_insert_eq.
    assert (Js.truthy token = true) as -> by apply truthy_dotted.
    cbn [negb]. rewrite Hserved. reflexivity.
  - rewrite Hserved. reflexivity.
Qed.

End PagesEndToEnd.

Lemma login_page_to_post_witness :
  let login_route req :=
    answered (Login.handler ReferencePlatform sample_clock sample_users req) in
  let posts_route req :=
    Posts.postHandler ReferencePlatform en_invalid_value sample_clock sample_clock
                      sample_users sample_posts req in
  let u := {| Prisma.id := "user-1"; Prisma.email := "jo@test.com";
              Prisma.password := reference_hash "Secret1!x" 10; Prisma.name := "Jo" |} in
  exists token,
    let p1 := signed_in write_user before_2026 "Thu, 08 Jan 2026 00:00:00 GMT"
                        token u (fresh_page sample_browser) in
    Pages.handleSubmit (fresh_page sample_browser)
      (Pages.LoginPage_onSubmit write_user before_2026 "Thu, 08 Jan 2026 00:00:00 GMT"
                                login_route "/api" (fresh_page sample_browser)
                                "Jo@Test.com" "Secret1!x")
      = Pages.Settled p1
    /\ Pages.handleSubmit p1
         (Pages.CreatePostPage_onSubmit (fun req => answered (snd (posts_route req)))
                                        "/api" p1 "Spare winter coats"
                                        "Three coats, size M" "offer" "goods")
       = Pages.Settled (Pages.push p1 "/posts")
    /\ fst (posts_route
              (ApiService.createPost "/api" (Browser.cookie (Pages.browser p1))
                 [("title", "Spare winter coats"); ("description", "Three coats, size M");
                  ("type", "offer"); ("category", "goods")]
                 token))
       = (sample_posts ++
          [new_post ReferencePlatform sample_clock sample_posts "Spare winter coats"
                    "Three coats, size M" "offer" "goods" "user-1"])%list.
Proof.
  cbv zeta.
  apply (login_page_to_post ReferencePlatform write_user before_2026
           "Thu, 08 Jan 2026 00:00:00 GMT" "/api" en_invalid_value
           ltac:(vm_compute; discriminate) eq_refl
           reference_decode_encode reference_hmac_not_blank
           (fresh_page sample_browser) sample_users sample_posts
           {| Prisma.id := "user-1"; Prisma.email := "jo@test.com";
              Prisma.password := reference_hash "Secret1!x" 10; Prisma.name := "Jo" |}
           "Jo@Test.com" "Secret1!x" "Spare winter coats" "Three coats, size M"
           "offer" "goods" sample_clock sample_clock sample_clock);
    try reflexivity; try discriminate; vm_compute; reflexivity.
Defined.

(** ** Submissions that send nothing *)

(** Two submissions end before any request, whatever the network would
    answer. On every browser, the signup page with a confirmation that
    differs from the password shows [Passwords do not match] under the
    confirmation. On a browser without a stored token, or with an empty
    one, the create page shows [Authentication required] and leaves for
    [/login] when it mounts. After a logout every browser is such a one,
    whatever it held before: the create page leaves for [/login] when it
    mounts and a submission shows [Authentication required]. *)
Theorem pages_answer_without_a_request
        (JSON_stringify : json -> string) (in_the_past : string -> bool)
        (expires base : string) (fetch : NextRequest -> result json)
        (p : Pages.Page)
        (name email password confirmPassword title description type category : string) :
  let shown (r : Pages.Page) key text :=
    Pages.Settled {| Pages.browser := Pages.browser r; Pages.auth := Pages.auth r;
                     Pages.errors := {[key := JStr text]};
                     Pages.isSubmitting := false |} in
  (password <> confirmPassword ->
   Pages.handleSubmit p (Pages.SignupPage_onSubmit JSON_stringify in_the_past expires
                                                   fetch base p name email
                                                   password confirmPassword)
   = shown p "confirmPassword" "Passwords do not match")
  /\ (Js.truthy_opt (Browser.localStorage (Pages.browser p) !! "authToken") = false ->
      Pages.handleSubmit p (Pages.CreatePostPage_onSubmit fetch base p title description
                                                          type category)
      = shown p "submit" "Authentication required"
      /\ Pages.CreatePostPage_mount p = Pages.push p "/login")
  /\ (forall q : Pages.Page,
        Pages.browser q = fst (Session.logout in_the_past (Pages.browser p)) ->
        Pages.handleSubmit q (Pages.CreatePostPage_onSubmit fetch base q title description
                                                            type category)
        = shown q "submit" "Authentication required"
        /\ Pages.CreatePostPage_mount q = Pages.push q "/login").
Proof.
  cbv zeta.
  assert (forall r : Pages.Page,
            Js.truthy_opt (Browser.localStorage (Pages.browser r) !! "authToken") = false ->
            Pages.handleSubmit r (Pages.CreatePostPage_onSubmit fetch base r title
                                                                description type category)
            = Pages.Settled {| Pages.browser := Pages.browser r;
                               Pages.auth := Pages.auth r;
                               Pages.errors := {["submit" := JStr "Authentication required"]};
                               Pages.isSubmitting := false |}
            /\ Pages.CreatePostPage_mount r = Pages.push r "/login") as without.
  { intros r Hnone. split.
    - unfold Pages.CreatePostPage_onSubmit.
      destruct (Browser.localStorage (Pages.browser r) !! "authToken") as [token|];
        [|reflexivity].
      cbn [Js.truthy_opt] in Hnone. rewrite Hnone. reflexivity.
    - unfold Pages.CreatePostPage_mount. now rewrite Hnone. }
  split; [|split].
  - intros Hdiffer. unfold Pages.SignupPage_onSubmit.
    apply String.eqb_neq in Hdiffer. rewrite Hdiffer. reflexivity.
  - apply without.
  - intros q Hq. apply without. rewrite Hq.
    unfold Session.logout. cbn [fst Browser.localStorage].
    rewrite (lookup_delete_ne _ "user" "authToken") by discriminate.
    rewrite lookup_delete_eq. reflexivity.
Qed.

Lemma pages_answer_without_a_request_witness :
  let fetch (req : NextRequest) :=
    Ok (wire (ApiSuccess JNull "Operation completed successfully"
                         "2026-01-01T00:00:00.000Z")) in
  let shown (r : Pages.Page) key text :=
    Pages.Settled {| Pages.browser := Pages.browser r; Pages.auth := Pages.auth r;
                     Pages.errors := {[key := JStr text]};
                     Pages.isSubmitting := false |} in
  let p :=
    fresh_page {| Browser.localStorage := {["authToken" := sample_token]};
                  Browser.cookie :=
                    {["authToken" := {| Browser.value := sample_token;
                                        Browser.strict := true |}]};
                  Browser.location := "/posts/create" |} in
  let q := fresh_page (fst (Session.logout before_2026 (Pages.browser p))) in
  Browser.localStorage (Pages.browser p) !! "authToken" = Some sample_token
  /\ Pages.handleSubmit p (Pages.SignupPage_onSubmit write_user before_2026
                             "Thu, 08 Jan 2026 00:00:00 GMT" fetch "/api" p
                             "Jo" "jo@test.com" "Secret1!x" "Secret1!y")
     = shown p "confirmPassword" "Passwords do not match"
  /\ Pages.handleSubmit q (Pages.CreatePostPage_onSubmit fetch "/api" q
                             "Spare winter coats" "Three coats, size M" "offer" "goods")
     = shown q "submit" "Authentication required"
  /\ Pages.CreatePostPage_mount q = Pages.push q "/login".
Proof.
  cbv zeta.
  destruct (pages_answer_without_a_request write_user before_2026
              "Thu, 08 Jan 2026 00:00:00 GMT" "/api"
              (fun _ => Ok (wire (ApiSuccess JNull "Operation completed successfully"
                                             "2026-01-01T00:00:00.000Z")))
              (fresh_page {| Browser.localStorage := {["authToken" := sample_token]};
                             Browser.cookie :=
                               {["authToken" := {| Browser.value := sample_token;
                                                   Browser.strict := true |}]};
                             Browser.location := "/posts/create" |})
              "Jo" "jo@test.com" "Secret1!x" "Secret1!y"
              "Spare winter coats" "Three coats, size M" "offer" "goods")
    as (Hsignup & _ & Hlogout).
  split; [reflexivity|]. split; [apply Hsignup; discriminate|].
  apply Hlogout. reflexivity.
Defined.

(** ** The order of the wrappers *)

Lemma applyMiddleware_cons (handler : RouteHandler.RouteHandler)
      (wrapper : RouteHandler.RouteHandler -> RouteHandler.RouteHandler)
      (wrappers : list (RouteHandler.RouteHandler -> RouteHandler.RouteHandler)) :
  RouteHandler.applyMiddleware handler (wrapper :: wrappers) =
    wrapper (RouteHandler.applyMiddleware handler wrappers).
Proof.
  unfold RouteHandler.applyMiddleware. cbn [rev]. now rewrite fold_left_app.
Qed.

(** [applyMiddleware] makes its first wrapper the outermost one, and the
    order of [withErrorHandling] and [withLogging] decides what the
    console shows of a handler that throws. With the error handling
    first the log entry is that of an error; with the logging first the
    log entry reports the status 500. In both orders the client receives
    the answer of [withErrorHandling] alone, after the same entry of
    [handleError]. *)
Theorem applyMiddleware_order
        (process_env : gmap string string) (timestamp method : string) (duration : Z)
        (context : option string) (handler : RouteHandler.RouteHandler)
        (req : NextRequest) (out : list RouteHandler.entry) (error : exn) :
  handler req = (out, Throw error) ->
  let guard := RouteHandler.withErrorHandling process_env timestamp context in
  let log := RouteHandler.withLogging timestamp method duration in
  let answer := Ok (withErrorHandling process_env timestamp
                      (fun r => snd (handler r)) context req) in
  let handled :=
    RouteHandler.Err ("[" +:+ timestamp +:+ "] " +:+
                      (if Js.truthy_opt context
                       then "[" +:+ default "" context +:+ "] " else "") +:+ "Error:")
                     error in
  let line := "[" +:+ timestamp +:+ "] " +:+ method +:+ " " +:+ pathname req in
  RouteHandler.applyMiddleware handler [guard; log] req =
    ((out ++ [RouteHandler.Err (line +:+ " - Error (" +:+ numeral duration +:+ "ms):")
                               error;
              handled])%list,
     answer)
  /\ RouteHandler.applyMiddleware handler [log; guard] req =
       ((out ++ [handled;
                 RouteHandler.Log (line +:+ " - 500 (" +:+ numeral duration +:+ "ms)")])%list,
        answer).
Proof.
  intros Hthrows. cbv zeta.
  rewrite !applyMiddleware_cons.
  unfold RouteHandler.applyMiddleware. cbn [rev fold_left].
  unfold RouteHandler.withErrorHandling, RouteHandler.withLogging, withErrorHandling.
  rewrite Hthrows. cbn [snd try_catch]. rewrite <- !app_assoc. cbn [app].
  destruct (handleError_envelope process_env timestamp error context) as [details ->].
  cbn [RouteHandler.status].
  change (numeral 500) with "500".
  repeat (rewrite append_assoc || rewrite append_cons || rewrite append_nil).
  split; reflexivity.
Qed.

Lemma applyMiddleware_order_witness :
  let handler (req : NextRequest) :=
    ([RouteHandler.Log "reading the body"],
     @Throw NextResponse (SyntaxError "Unexpected end of JSON input")) in
  let req := request_with [] in
  let guard :=
    RouteHandler.withErrorHandling (process_env ReferencePlatform)
                                   "2026-01-01T00:00:00.000Z" (Some "LOGIN") in
  let log := RouteHandler.withLogging "2026-01-01T00:00:00.000Z" "POST" 12 in
  let answer := Ok (withErrorHandling (process_env ReferencePlatform)
                      "2026-01-01T00:00:00.000Z"
                      (fun r => snd (handler r)) (Some "LOGIN") req) in
  let handled :=
    RouteHandler.Err ("[" +:+ "2026-01-01T00:00:00.000Z" +:+ "] " +:+
                      (if Js.truthy_opt (Some "LOGIN")
                       then "[" +:+ default "" (Some "LOGIN") +:+ "] " else "") +:+
                      "Error:")
                     (SyntaxError "Unexpected end of JSON input") in
  let line := "[" +:+ "2026-01-01T00:00:00.000Z" +:+ "] " +:+ "POST" +:+ " " +:+
              pathname req in
  RouteHandler.applyMiddleware handler [guard; log] req =
    (([RouteHandler.Log "reading the body"] ++
      [RouteHandler.Err (line +:+ " - Error (" +:+ numeral 12 +:+ "ms):")
                        (SyntaxError "Unexpected end of JSON input");
       handled])%list,
     answer)
  /\ RouteHandler.applyMiddleware handler [log; guard] req =
       (([RouteHandler.Log "reading the body"] ++
         [handled;
          RouteHandler.Log (line +:+ " - 500 (" +:+ numeral 12 +:+ "ms)")])%list,
        answer).
Proof.
  cbv zeta.
  apply (applyMiddleware_order (process_env ReferencePlatform)
           "2026-01-01T00:00:00.000Z" "POST" 12 (Some "LOGIN")
           (fun _ => ([RouteHandler.Log "reading the body"],
                      @Throw NextResponse (SyntaxError "Unexpected end of JSON input")))
           (request_with []) [RouteHandler.Log "reading the body"]
           (SyntaxError "Unexpected end of JSON input")).
  reflexivity.
Defined.
